(** * SumkDFTTools: the distributed projection-and-reduction engine

    A shallow embedding of [python/triqs_dft_tools/sumk_dft_tools.py]
    (class [SumkDFTTools]) and theorems about it.

    Conventions of the embedding:
    - numpy arrays are functions from their indices to the scalar they
      hold, with the shapes kept in the object ([n_orbitals], [dims]);
    - complex floating point numbers are the elements of a closed numeric
      field [C] (exact arithmetic), [numpy.pi] is a constant [pi] of it;
    - the real floating point numbers that decide which frequencies are
      kept (the points of the frequency mesh, the bounds of the plot
      range) are IEEE binary64 numbers, Rocq's primitive floats, so that
      the comparisons come out as they do in the code;
    - a call of an entry point is a computation in a monad that threads the
      log of the observable steps taken so far (archive reads, provider
      calls, barrier, reductions, corrections) and may raise a Python
      exception;
    - the MPI run is a list [parts] of index slices, one per worker: the
      worker of rank [r] receives [nth [::] parts r] from
      [mpi.slice_array]; [mpi.all_reduce] adds the values of the workers
      in the order of their ranks: the element-wise sum for numpy arrays
      and Green's functions, the concatenation for Python lists. *)

Set Warnings "-notation-overridden,-ambiguous-paths,-notation-incompatible-prefix,-rewrite-rw,-redundant-canonical-projection".
From HB Require Import structures.
From Stdlib Require Import String ZArith PrimFloat Uint63.
From mathcomp Require Import boot order algebra field.

Set Implicit Arguments.
Unset Strict Implicit.
Unset Printing Implicit Defensive.

Import GRing.Theory Num.Theory.
Local Open Scope ring_scope.

(** ** Python values *)

HB.instance Definition _ := hasDecEq.Build string String.eqb_spec.

(** [x in s] for two Python strings: [x] occurs in [s] as a substring. *)
Fixpoint py_str_in (x s : string) : bool :=
  String.prefix x s ||
  match s with
  | EmptyString => false
  | String _ s' => py_str_in x s'
  end.

(** Truth value of a Python string: the empty string is false. *)
Definition py_truthy (s : option string) : bool :=
  match s with
  | None => false
  | Some EmptyString => false
  | Some _ => true
  end.

(** The exceptions raised by the module.  The specification names them by
    role: [AssertionError] is its ConfigurationError (and MeshTypeError),
    [ValueError] its MissingInputError, [IOError] its ShellIndexError.
    [UnboundLocalError] is what Python raises when a local variable is read
    before any assignment, [IndexError] and [AttributeError] when an index
    or an attribute does not exist. *)
Inductive exn : Type :=
| AssertionError (msg : string)
| ValueError (msg : string) (items : seq string)
| IOError (msg : string)
| UnboundLocalError (name : string)
| IndexError (msg : string)
| AttributeError (name : string).

(** Python floats.  A number that the caller writes down is the binary64
    number nearest to it: the correctly rounded quotient of its numerator
    and its denominator. *)
Definition float_of_nat (n : nat) : float :=
  PrimFloat.of_uint63 (Uint63.of_Z (Z.of_nat n)).

Definition float_of_int (z : int) : float :=
  match z with
  | Posz n => float_of_nat n
  | Negz n => PrimFloat.opp (float_of_nat n.+1)
  end.

Definition float_of_rat (q : rat) : float :=
  PrimFloat.div (float_of_int (numq q)) (float_of_int (denq q)).

(** [numpy.linspace(start, stop, num)] in binary64, as numpy computes it:
    [step = (stop - start) / (num - 1)], the points [i * step + start]
    (or [(i / (num - 1)) * (stop - start) + start] when the step
    underflows to zero, [i * (stop - start) + start] when there is but
    one point), and the last of several points set to [stop]. *)
Definition linspace (start stop : float) (num : nat) : seq float :=
  let div := num.-1 in
  let delta := PrimFloat.sub stop start in
  let step := PrimFloat.div delta (float_of_nat div) in
  [seq if (1 < num)%N && (i == num.-1) then stop
       else
         let y := float_of_nat i in
         let y :=
           if (0 < div)%N then
             if PrimFloat.eqb step (float_of_nat 0) then
               PrimFloat.mul (PrimFloat.div y (float_of_nat div)) delta
             else PrimFloat.mul y step
           else PrimFloat.mul y delta in
         PrimFloat.add y start
  | i <- iota 0 num].

(** Frequency meshes.  A bound of a mesh is the float nearest to the
    rational that names it here ([float_of_rat]). *)
Inductive Mesh : Type :=
| MeshReFreq (w_min w_max : rat) (n_w : nat)
| MeshImFreq (beta : rat) (n_iw : nat).

Definition isinstance_MeshReFreq (m : Mesh) : bool :=
  if m is MeshReFreq _ _ _ then true else false.

Definition isinstance_MeshImFreq (m : Mesh) : bool :=
  if m is MeshImFreq _ _ then true else false.

(** The observable steps of a worker. *)
Inductive event : Type :=
| EvReadInput (subgrp : string) (things_to_read : seq string)
| EvLatticeGf (ik : nat) (mesh : option Mesh)
| EvProject (ik ish : nat)
| EvBarrier
| EvAllReduce (what : string)
| EvSymmetrize
| EvRotate (ish : nat).

Inductive outcome (A : Type) : Type :=
| Ok (a : A)
| Raise (e : exn).
Arguments Raise {A} e.

(** ** The monad of a call: a log of events and a possible exception *)

Definition M (A : Type) : Type := seq event -> outcome A * seq event.

Definition ret {A} (a : A) : M A := fun l => (Ok a, l).

Definition bind {A B} (m : M A) (k : A -> M B) : M B :=
  fun l =>
    match m l with
    | (Ok a, l') => k a l'
    | (Raise e, l') => (Raise e, l')
    end.

Definition raise {A} (e : exn) : M A := fun l => (Raise e, l).

Definition tell (e : event) : M unit := fun l => (Ok tt, rcons l e).

Definition tell_all (es : seq event) : M unit := fun l => (Ok tt, l ++ es).

Definition py_assert (b : bool) (msg : string) : M unit :=
  if b then ret tt else raise (AssertionError msg).

Declare Scope py_scope.
Delimit Scope py_scope with py.
Notation "'let*' x ':=' m 'in' k" := (bind m (fun x => k))
  (at level 10, x pattern, m at level 100, k at level 200) : py_scope.
Notation "m ;; k" := (bind m (fun _ => k))
  (at level 61, right associativity) : py_scope.
Local Open Scope py_scope.

(** [for x in xs: s = body(s, x)], where the body may log and raise. *)
Fixpoint for_each {S : Type} (xs : seq nat) (body : S -> nat -> M S) (s : S)
    : M S :=
  if xs is x :: xs' then let* s' := body s x in for_each xs' body s'
  else ret s.

(** The worker-local results of a sweep on every worker of the run, each
    started from its own empty log.  An exception on one worker is fatal
    to the run. *)
Fixpoint locals {S : Type} (sweep : seq nat -> M S) (parts : seq (seq nat))
    : M (seq S) :=
  if parts is slice :: parts' then
    match sweep slice [::] with
    | (Ok v, _) => let* vs := locals sweep parts' in ret (v :: vs)
    | (Raise e, _) => raise e
    end
  else ret [::].

(** What a call returned, and the log it left, started from the empty log. *)
Definition result {A} (m : M A) : outcome A := (m [::]).1.
Definition trace {A} (m : M A) : seq event := (m [::]).2.

(** ** Reading a log *)

(** A call succeeded. *)
Definition succeeded {A} (o : outcome A) : bool :=
  if o is Ok _ then true else false.

(** What a call returned, [d] if it raised. *)
Definition returned {A} (d : A) (o : outcome A) : A :=
  if o is Ok a then a else d.

(** The corrections of the local Green's functions, and the reduction of
    the local Green's functions over the workers. *)
Definition is_correction (e : event) : bool :=
  match e with
  | EvSymmetrize | EvRotate _ => true
  | _ => false
  end.







(** Every event that [m] logs satisfies [p], whatever the log it starts
    from and whether it returns or raises. *)
Definition logs (p : event -> bool) {A} (m : M A) : Prop :=
  forall l, exists2 es, (m l).2 = l ++ es & all p es.

Definition mesh_code (m : Mesh) : rat * rat * nat + rat * nat :=
  match m with
  | MeshReFreq a b n => inl (a, b, n)
  | MeshImFreq b n => inr (b, n)
  end.

Definition mesh_decode (x : rat * rat * nat + rat * nat) : Mesh :=
  match x with
  | inl (a, b, n) => MeshReFreq a b n
  | inr (b, n) => MeshImFreq b n
  end.

Lemma mesh_codeK : cancel mesh_code mesh_decode.
Proof. by case. Qed.

HB.instance Definition _ := Equality.copy Mesh (can_type mesh_codeK).

(** Every provider call of the log was made on the mesh [m]. *)
Definition on_mesh (m : Mesh) (e : event) : bool :=
  if e is EvLatticeGf _ m' then m' == Some m else true.

(** The events that [gen_Akw] logs when it works on the mesh [m]. *)
Definition akw_event (m : Mesh) (e : event) : bool :=
  match e with
  | EvLatticeGf _ m' => m' == Some m
  | EvProject _ _ | EvRotate _ | EvBarrier => true
  | EvAllReduce what => what \in [:: "Akw"; "pAkw_orb"]%string
  | _ => false
  end.


(** Every provider call of the log was made on a real-frequency mesh. *)
Definition on_real_mesh (e : event) : bool :=
  if e is EvLatticeGf _ m then
    if m is Some m' then isinstance_MeshReFreq m' else false
  else true.

(** An event of the work on a projection: a projection, the reduction of a
    projected quantity, or a correction. *)
Definition is_projection_work (e : event) : bool :=
  match e with
  | EvProject _ _ | EvSymmetrize | EvRotate _ => true
  | EvAllReduce what => what \in [:: "G_loc"; "pAkw_orb"]%string
  | _ => false
  end.

(** ** The persistent archive *)

(** The archive, as far as the module looks at it: for every subgroup that
    exists, the names of the entries it holds. *)
Definition archive : Type := seq (string * seq string).

Definition subgroup (ar : archive) (subgrp : string) : option (seq string) :=
  if [seq g <- ar | g.1 == subgrp] is g :: _ then Some g.2 else None.

(** Modelled from the spec: [SumkDFT.read_input_from_hdf] lives in
    [sumk_dft.py], which is not among the sources.  The specification
    (section 6) has a read of named inputs report exactly the items that
    are absent; a subgroup that does not exist holds none of them.  It
    returns [(subgroup_present, values_not_read)]. *)
Definition read_input_from_hdf (ar : archive) (subgrp : string)
    (things_to_read : seq string) : M (bool * seq string) :=
  tell (EvReadInput subgrp things_to_read) ;;
  match subgroup ar subgrp with
  | Some present =>
      ret (true, [seq it <- things_to_read | it \notin present])
  | None => ret (false, things_to_read)
  end.

(** ** Green's functions and the SumkDFT object *)

Section Engine.

Variable C : numClosedFieldType.

(** [numpy.pi], and the float 0.001 that is the default broadening. *)
Variable pi : C.
Variable broadening_default : C.

(** Spin block names ("up", "down", "ud"). *)
Definition block : Type := string.

(** A matrix [m[i, j]], the data [gf.data[iom, i, j]] of a Green's function
    on a mesh, and a [BlockGf] addressed by block name. *)
Definition mat : Type := nat -> nat -> C.
Definition Gf : Type := nat -> mat.
Definition BlockGf : Type := block -> Gf.

(** [G.zero()], [G += H], [G *= x] on a [BlockGf]. *)
Definition zero : BlockGf := fun _ _ _ _ => 0.
Definition iadd (G H : BlockGf) : BlockGf :=
  fun b iom i j => G b iom i j + H b iom i j.
Definition imul (G : BlockGf) (x : C) : BlockGf :=
  fun b iom i j => G b iom i j * x.

(** [for k in keys: d[k] = f(k, d[k])], on a dictionary or a [BlockGf]
    whose keys are [keys]. *)
Definition for_keys {T : Type} (keys : seq block) (f : block -> T -> T)
    (d : block -> T) : block -> T :=
  fun b => if b \in keys then f b (d b) else d b.

(** [for ish in range(n): l[ish] = f(ish, l[ish])] on a list of length at
    least [n]. *)
Definition for_range {T : Type} (n : nat) (f : nat -> T -> T)
    (l : nat -> T) : nat -> T :=
  fun ish => if (ish < n)%N then f ish (l ish) else l ish.

(** [a.trace()] of a [d] by [d] array, and [a.imag.trace()]. *)
Definition tr (d : nat) (a : mat) : C := \sum_(0 <= i < d) a i i.
Definition imag_trace (d : nat) (a : mat) : C := \sum_(0 <= i < d) 'Im (a i i).

Inductive shells_kind : Type := shells_corr | shells_csc | shells_all.

(** The attributes of a [SumkDFTTools] object that the module reads, with
    the values they hold once the inputs of the call are loaded.  Arrays
    addressed by a spin index take the block name ([ntoi] composed in). *)
Record SumkDFT : Type := {
  hdf_file : archive;
  misc_data : string;
  parproj_data : string;
  symmpar_data : string;
  bands_data : string;
  cont_data : string;
  dft_code : string;
  n_k : nat;
  SO : nat;
  symm_op : nat;
  use_rotations : bool;
  spin_block_names : nat -> seq block;
  n_shells : nat;
  shells_dim : nat -> nat;
  n_corr_shells : nat;
  corr_shells_dim : nat -> nat;
  n_orbitals : nat -> block -> nat;
  bz_weights : nat -> C;
  chemical_potential : C;
  proj_mat : nat -> block -> nat -> mat;
  proj_mat_csc : nat -> block -> mat;
  proj_mat_csc_shape2 : nat;
  n_parproj : nat -> nat;
  proj_mat_all : nat -> block -> nat -> nat -> mat;
  rot_mat : nat -> mat;
  rot_mat_time_inv : nat -> nat;
  rot_mat_all : nat -> mat;
  rot_mat_all_time_inv : nat -> nat;
  Sigma_imp_mesh : Mesh;
  mesh : option Mesh;
  values_not_read : seq string;
  occik : block -> nat -> mat;
  dens_mat_below : block -> nat -> mat
}.

(** The external collaborators: the lattice Green's function provider
    [lattice_gf(ik, mu, broadening, mesh, with_Sigma, with_dc)], the two
    symmetry operators and the [density()] functional of a Green's
    function. *)
Variable lattice_gf :
  SumkDFT -> nat -> option C -> option C -> option Mesh -> bool -> bool ->
  BlockGf.
Variable symmcorr_symmetrize : (nat -> BlockGf) -> (nat -> BlockGf).
Variable symmpar_symmetrize : (nat -> BlockGf) -> (nat -> BlockGf).
Variable density : Gf -> mat.

(** ** Example objects *)

(** An archive that holds every input the module reads, but for the
    entries [missing] of the subgroup "dft_misc_input". *)
Definition example_archive (missing : seq string) : archive :=
  [:: ("dft_misc_input", [seq it <- [:: "occik"] | it \notin missing]);
      ("dft_parproj_input",
       [:: "dens_mat_below"; "n_parproj"; "proj_mat_all"; "rot_mat_all";
           "rot_mat_all_time_inv"]);
      ("dft_bands_input",
       [:: "n_k"; "n_orbitals"; "proj_mat"; "hopping"; "n_parproj";
           "proj_mat_all"]);
      ("dft_contours_input",
       [:: "n_k"; "bmat"; "BZ_n_k"; "BZ_iknr"; "BZ_vkl"; "n_orbitals";
           "proj_mat"; "hopping"])]%string.

(** A small object: two spin blocks, k-points of weight one with a single
    band, shells of one orbital with the identity as projector and as
    rotation matrix, and a successfully loaded input
    ([values_not_read] is empty). *)
Definition example_object (ar : archive) (code : string) (Sigma_mesh : Mesh)
    (nk n_corr n_all : nat) (symm : nat) (rotations : bool) : SumkDFT :=
  {| hdf_file := ar;
     misc_data := "dft_misc_input";
     parproj_data := "dft_parproj_input";
     symmpar_data := "dft_symmpar_input";
     bands_data := "dft_bands_input";
     cont_data := "dft_contours_input";
     dft_code := code;
     n_k := nk;
     SO := 0;
     symm_op := symm;
     use_rotations := rotations;
     spin_block_names :=
       (fun so => if so == 0%N then [:: "up"; "down"] else [:: "ud"])%string;
     n_shells := n_all;
     shells_dim := fun _ => 1%N;
     n_corr_shells := n_corr;
     corr_shells_dim := fun _ => 1%N;
     n_orbitals := fun _ _ => 1%N;
     bz_weights := fun _ => 1;
     chemical_potential := 0;
     proj_mat := fun _ _ _ i j => (i == j)%:R;
     proj_mat_csc := fun _ _ i j => (i == j)%:R;
     proj_mat_csc_shape2 := 1;
     n_parproj := fun _ => 1%N;
     proj_mat_all := fun _ _ _ _ i j => (i == j)%:R;
     rot_mat := fun _ i j => (i == j)%:R;
     rot_mat_time_inv := fun _ => 0%N;
     rot_mat_all := fun _ i j => (i == j)%:R;
     rot_mat_all_time_inv := fun _ => 0%N;
     Sigma_imp_mesh := Sigma_mesh;
     mesh := None;
     values_not_read := [::];
     occik := fun _ _ i j => (i == j)%:R;
     dens_mat_below := fun _ _ _ _ => 0 |}.

Definition example_real_mesh : Mesh := MeshReFreq (-1) 1 3.
Definition example_imag_mesh : Mesh := MeshImFreq 40%:R 4.

Section Methods.

Variable self : SumkDFT.

Definition spn : seq block := spin_block_names self (SO self).

(** The dimension of shell [ish] in the shell list named by [shells]. *)
Definition shell_dim (shells : shells_kind) (ish : nat) : nat :=
  match shells with
  | shells_corr => corr_shells_dim self ish
  | shells_csc => proj_mat_csc_shape2 self
  | shells_all => shells_dim self ish
  end.

(** The projector of shell [ish] at [ik] for block [bname]. *)
Definition projector (shells : shells_kind) (ik ish : nat) (bname : block)
    (ir : option nat) : mat :=
  match shells with
  | shells_corr => proj_mat self ik bname ish
  | shells_csc => proj_mat_csc self ik bname
  | shells_all => proj_mat_all self ik bname ish (if ir is Some r then r else 0%N)
  end.

(** Modelled from the spec: [SumkDFT.downfold] lives in [sumk_dft.py],
    which is not among the sources.  The specification (4.2) has the
    contribution of a projector be the projector-sandwiched lattice Green's
    function, [P G P^dagger]; [gf_inp] is the template that gives the
    result its shape. *)
Definition downfold (ik ish : nat) (bname : block) (gf_to_downfold gf_inp : Gf)
    (shells : shells_kind) (ir : option nat) : Gf :=
  let P := projector shells ik ish bname ir in
  let n := n_orbitals self ik bname in
  fun iom a b =>
    \sum_(0 <= i < n) \sum_(0 <= j < n)
      P a i * gf_to_downfold iom i j * (P b j)^*.

(** The rotation matrix of shell [ish] in the shell list named by [shells],
    and what it is for it to be unitary on the orbitals of the shell:
    [U U^dagger = 1]. *)
Definition rot_matrix (shells : shells_kind) (ish : nat) : mat :=
  if shells is shells_corr then rot_mat self ish else rot_mat_all self ish.

Definition unitary (d : nat) (U : mat) : Prop :=
  forall i j, (i < d)%N -> (j < d)%N ->
    \sum_(0 <= a < d) U i a * (U j a)^* = (i == j)%:R.

(** Modelled from the spec: [SumkDFT.rotloc] lives in [sumk_dft.py], which
    is not among the sources.  The specification (3, 4.4) has it apply the
    shell's unitary matrix [U], with its time-reversal sign, as a
    similarity transform in orbital space: [U^dagger G U] into the local
    frame (the direction 'toLocal', the only one the module asks for),
    and, for a time-reversed shell under spin-orbit coupling, the transform
    of the transpose, [U^T G^T conj(U)]. *)
Definition rotloc (ish : nat) (gf_to_rotate : Gf) (shells : shells_kind) : Gf :=
  let U := rot_matrix shells ish in
  let time_inv :=
    if shells is shells_corr then rot_mat_time_inv self ish
    else rot_mat_all_time_inv self ish in
  let d := shell_dim shells ish in
  if (time_inv == 1%N) && (SO self != 0%N) then
    fun iom a b =>
      \sum_(0 <= i < d) \sum_(0 <= j < d)
        U i a * gf_to_rotate iom j i * (U j b)^*
  else
    fun iom a b =>
      \sum_(0 <= i < d) \sum_(0 <= j < d)
        (U i a)^* * gf_to_rotate iom i j * U j b.

(** The rotation step of the corrections,
    [for ish in range(n_shells): for bname, gf in G_loc[ish]:
       G_loc[ish][bname] << self.rotloc(ish, gf, direction='toLocal',
                                        shells=shells_type)]. *)
Definition rotate_all (n_shells_used : nat) (shells_type : shells_kind)
    (G_loc : nat -> BlockGf) : nat -> BlockGf :=
  for_range n_shells_used
    (fun ish G_loc_ish =>
       for_keys spn (fun bname gf => rotloc ish gf shells_type) G_loc_ish)
    G_loc.

(** *** proj_type_G_loc *)

Definition proj_type_G_loc (G_latt G_inp : BlockGf) (ik ish : nat)
    (proj_type : option string) : BlockGf :=
  let G_proj := G_inp in
  if proj_type == Some "wann"%string then
    for_keys spn
      (fun bname gf => downfold ik ish bname (G_latt bname) gf shells_corr None)
      G_proj
  else if proj_type == Some "vasp"%string then
    for_keys spn
      (fun bname gf => downfold ik ish bname (G_latt bname) gf shells_csc None)
      G_proj
  else if proj_type == Some "wien2k"%string then
    let tmp := G_proj in
    (foldl
       (fun (st : BlockGf * BlockGf) ir =>
          let: (G_proj, tmp) := st in
          let tmp := zero in
          let tmp :=
            for_keys spn
              (fun bname gf =>
                 downfold ik ish bname (G_latt bname) gf shells_all (Some ir))
              tmp in
          (iadd G_proj tmp, tmp))
       (G_proj, tmp) (iota 0 (n_parproj self ish))).1
  else G_proj.

(** *** The checks that open the entry points *)

(** [mpi.is_master_node], written without the call parentheses, is a
    function object: it is true in a condition, on every worker. *)
Definition mpi_is_master_node_object : bool := true.

(** [if len(values_not_read) > 0 and mpi.is_master_node: raise
    ValueError(..., self.values_not_read)], the statement that follows
    every read; [values_not_read_local] is the local variable
    [values_not_read], the list the read returned. *)
Definition check_values_read (values_not_read_local : seq string) : M unit :=
  if (0 < size values_not_read_local)%N && mpi_is_master_node_object then
    raise (ValueError
      "ERROR: One or more necessary SumK input properties have not been found in the given h5 archive:"
      (values_not_read self))
  else ret tt.

(** [self.symmpar = Symmetry(...)], which [load_parproj] and
    [partial_charges] build when a symmetrization is configured, is the
    collaborator [symmpar_symmetrize]. *)
Definition load_parproj (data_type : option string) : M unit :=
  let things_to_read := [:: "n_parproj"; "proj_mat_all"]%string in
  let* r :=
    (if data_type == Some "band"%string then
       read_input_from_hdf (hdf_file self) (bands_data self) things_to_read
     else
       read_input_from_hdf (hdf_file self) (parproj_data self) things_to_read)
  in
  check_values_read r.2 ;;
  let things_to_read := [:: "rot_mat_all"; "rot_mat_all_time_inv"]%string in
  let* r :=
    read_input_from_hdf (hdf_file self) (parproj_data self) things_to_read in
  check_values_read r.2.

(** The choice of the frequency mesh and of the broadening, the same
    statement in [density_of_states], [spectral_contours] and
    [spaghettis]; [broadening_default] is the float 0.001. *)
Definition select_mesh (with_Sigma : bool) (mesh_arg : option Mesh)
    (broadening : option C) : M (Mesh * option C) :=
  if with_Sigma then
    py_assert (isinstance_MeshReFreq (Sigma_imp_mesh self))
      "SumkDFT.mesh must be real if with_Sigma is True" ;;
    ret (Sigma_imp_mesh self, broadening)
  else if mesh_arg is Some m then
    py_assert (isinstance_MeshReFreq m) "mesh must be of form MeshReFreq" ;;
    ret (m, if broadening is None then Some broadening_default else broadening)
  else if mesh self is Some m then
    py_assert (isinstance_MeshReFreq m)
      "self.mesh must be of form MeshReFreq" ;;
    ret (m, if broadening is None then Some broadening_default else broadening)
  else
    raise (AssertionError
      "ReFreqMesh input required for calculations without real frequency self-energy").

(** [mesh_val = numpy.linspace(mesh.w_min, mesh.w_max, len(mesh))], and the
    bounds [om_minplot = mesh_val[0] - 0.001] and
    [om_maxplot = mesh_val[-1] + 0.001]; the statements open
    [density_of_states], [spectral_contours], [spaghettis] and [gen_Akw]. *)
Definition mesh_val_of (m : Mesh) : M (seq float) :=
  if m is MeshReFreq w_min w_max n then
    ret (linspace (float_of_rat w_min) (float_of_rat w_max) n)
  else raise (AttributeError "w_min").

Definition plot_bounds (m : Mesh) : M (seq float * (float * float)) :=
  let* mesh_val := mesh_val_of m in
  if mesh_val is w0 :: _ then
    ret (mesh_val,
         (PrimFloat.sub w0 (float_of_rat (1 / 1000%:R)),
          PrimFloat.add (last w0 mesh_val) (float_of_rat (1 / 1000%:R))))
  else raise (IndexError "index 0 is out of bounds").

(** The frequency window of the plot: the indices that
    [numpy.where((mesh_val > om_minplot) & (mesh_val < om_maxplot))]
    selects. *)
Definition window_of (mesh_val : seq float) (om_minplot om_maxplot : float)
    : seq nat :=
  [seq i <- iota 0 (size mesh_val)
   | PrimFloat.ltb om_minplot (nth (float_of_nat 0) mesh_val i)
     && PrimFloat.ltb (nth (float_of_nat 0) mesh_val i) om_maxplot].

(** *** density_of_states *)

(** The worker-local accumulators of the sweep of [density_of_states]. *)
Record dos_state : Type := {
  dos_DOS : block -> nat -> C;
  dos_G_loc : nat -> BlockGf
}.

(** The shell count, the shell dimensions and the shell list of the
    requested projection.  Without a projection [dims] and [shells_type]
    stay unassigned and are never read; they are given a value here. *)
Definition dos_setup (proj_type : option string)
    : M (nat * (nat -> nat) * shells_kind) :=
  let n_shells0 := 1%N in
  if proj_type == Some "wann"%string then
    ret (n_corr_shells self, corr_shells_dim self, shells_corr)
  else if proj_type == Some "vasp"%string then
    ret (1%N, (fun _ => proj_mat_csc_shape2 self), shells_csc)
  else if proj_type == Some "wien2k"%string then
    load_parproj None ;;
    ret (n_shells self, shells_dim self, shells_all)
  else ret (n_shells0, (fun _ => 0%N), shells_corr).

(** The body of the loop over the k-points of the worker's slice. *)
Definition dos_body (mu broadening : option C) (mesh_used : Mesh)
    (with_Sigma with_dc : bool) (proj_type : option string) (dosocc : bool)
    (n_shells_used : nat) (st : dos_state) (ik : nat) : M dos_state :=
  tell (EvLatticeGf ik (Some mesh_used)) ;;
  let G_latt_w :=
    lattice_gf self ik mu broadening (Some mesh_used) with_Sigma with_dc in
  let G_latt_w := imul G_latt_w (bz_weights self ik) in
  let G_latt_w :=
    if dosocc then
      for_keys spn
        (fun bname gf => fun iom i j => gf iom i j * occik self bname ik i j)
        G_latt_w
    else G_latt_w in
  let DOS :=
    for_keys spn
      (fun bname d => fun iom =>
         d iom - imag_trace (n_orbitals self ik bname) (G_latt_w bname iom) / pi)
      (dos_DOS st) in
  if proj_type != None then
    tell_all [seq EvProject ik ish | ish <- iota 0 n_shells_used] ;;
    ret {| dos_DOS := DOS;
           dos_G_loc :=
             for_range n_shells_used
               (fun ish G_loc_ish =>
                  let tmp := G_loc_ish in
                  let tmp := zero in
                  let tmp := proj_type_G_loc G_latt_w tmp ik ish proj_type in
                  iadd G_loc_ish tmp)
               (dos_G_loc st) |}
  else ret {| dos_DOS := DOS; dos_G_loc := dos_G_loc st |}.

Definition dos_init : dos_state :=
  {| dos_DOS := fun _ _ => 0; dos_G_loc := fun _ => zero |}.

Definition dos_sweep (mu broadening : option C) (mesh_used : Mesh)
    (with_Sigma with_dc : bool) (proj_type : option string) (dosocc : bool)
    (n_shells_used : nat) (slice : seq nat) : M dos_state :=
  for_each slice
    (dos_body mu broadening mesh_used with_Sigma with_dc proj_type dosocc
       n_shells_used)
    dos_init.

(** [mpi.all_reduce] of the local Green's functions of the workers. *)
Definition all_reduce_BlockGf (Gs : seq BlockGf) : BlockGf :=
  fun b iom i j => \sum_(G <- Gs) G b iom i j.

(** The symmetrization and the rotation of the reduced [G_loc]. *)
Definition dos_corrections (proj_type : option string) (n_shells_used : nat)
    (shells_type : shells_kind) (G_loc : nat -> BlockGf)
    : M (nat -> BlockGf) :=
  if (proj_type != Some "vasp"%string) && (proj_type != Some "elk"%string) then
    let* G_loc :=
      (if symm_op self != 0%N then
         tell EvSymmetrize ;;
         if proj_type == Some "wann"%string then ret (symmcorr_symmetrize G_loc)
         else ret (symmpar_symmetrize G_loc)
       else ret G_loc) in
    if use_rotations self then
      tell_all [seq EvRotate ish | ish <- iota 0 n_shells_used] ;;
      ret (rotate_all n_shells_used shells_type G_loc)
    else ret G_loc
  else ret G_loc.

(** [DOSproj[ish][bname]] and [DOSproj_orb[ish][bname]] out of [G_loc]. *)
Definition DOSproj_of (dims : nat -> nat) (G_loc : nat -> BlockGf)
    (ish : nat) (bname : block) (iom : nat) : C :=
  - imag_trace (dims ish) (G_loc ish bname iom) / pi.

Definition DOSproj_orb_of (G_loc : nat -> BlockGf)
    (ish : nat) (bname : block) (iom : nat) : mat :=
  fun i j =>
    0 + 'i * (G_loc ish bname iom i j - (G_loc ish bname iom j i)^*) / 2 / pi.

Definition dos_result : Type :=
  (block -> nat -> C) * (nat -> block -> nat -> C)
  * (nat -> block -> nat -> mat).

(** The call, on the worker [rank] of a run whose slices are [parts].  The
    text files written at the end are left out. *)
Definition density_of_states (parts : seq (seq nat)) (rank : nat)
    (mu broadening : option C) (mesh_arg : option Mesh)
    (with_Sigma with_dc : bool) (proj_type : option string) (dosocc : bool)
    : M dos_result :=
  (if proj_type is Some p then
     py_assert (p \in [:: "wann"; "vasp"; "wien2k"]%string)
       "'proj_type' must be either 'wann', 'vasp', 'wien2k'" ;;
     if p != "wann"%string then
       py_assert (p == dft_code self)
         "proj_type must be from the corresponding dft inputs."
     else ret tt
   else ret tt) ;;
  let* mb := select_mesh with_Sigma mesh_arg broadening in
  let mesh_used := mb.1 in
  let broadening := mb.2 in
  let* mv := plot_bounds mesh_used in
  (if dosocc then
     let* r := read_input_from_hdf (hdf_file self) (misc_data self)
                 [:: "occik"%string] in
     check_values_read r.2
   else ret tt) ;;
  let* su := dos_setup proj_type in
  let: (n_shells_used, dims, shells_type) := su in
  let sweep :=
    dos_sweep mu broadening mesh_used with_Sigma with_dc proj_type dosocc
      n_shells_used in
  let* own := sweep (nth [::] parts rank) in
  tell EvBarrier ;;
  let* workers := locals sweep parts in
  tell (EvAllReduce "DOS") ;;
  let DOS :=
    for_keys spn
      (fun bname _ => fun iom => \sum_(w <- workers) dos_DOS w bname iom)
      (dos_DOS own) in
  if proj_type != None then
    tell (EvAllReduce "G_loc") ;;
    let G_loc :=
      for_range n_shells_used
        (fun ish _ =>
           all_reduce_BlockGf [seq dos_G_loc w ish | w <- workers])
        (dos_G_loc own) in
    let* G_loc := dos_corrections proj_type n_shells_used shells_type G_loc in
    ret (DOS,
         (fun ish bname iom =>
            if (ish < n_shells_used)%N && (bname \in spn)
            then DOSproj_of dims G_loc ish bname iom else 0),
         (fun ish bname iom =>
            if (ish < n_shells_used)%N && (bname \in spn)
            then DOSproj_orb_of G_loc ish bname iom else fun _ _ => 0))
  else ret (DOS, (fun _ _ _ => 0), (fun _ _ _ _ _ => 0)).

(** The state after one pass of the body of the sweep, and the events the
    pass logs. *)
Definition dos_step (mu broadening : option C) (mesh_used : Mesh)
    (with_Sigma with_dc : bool) (proj_type : option string) (dosocc : bool)
    (n_shells_used : nat) (st : dos_state) (ik : nat) : dos_state :=
  if (dos_body mu broadening mesh_used with_Sigma with_dc proj_type dosocc
        n_shells_used st ik [::]).1 is Ok st' then st' else st.

Definition dos_events (mesh_used : Mesh) (proj_type : option string)
    (n_shells_used : nat) (ik : nat) : seq event :=
  EvLatticeGf ik (Some mesh_used) ::
  (if proj_type != None then [seq EvProject ik ish | ish <- iota 0 n_shells_used]
   else [::]).

(** The lattice Green's function of [ik] as the sweep of
    [density_of_states] holds it: weighted, and masked when [dosocc]. *)
Definition dos_G_latt_w (mu broadening : option C) (mesh_used : Mesh)
    (with_Sigma with_dc : bool) (dosocc : bool) (ik : nat) : BlockGf :=
  let G_latt_w :=
    imul (lattice_gf self ik mu broadening (Some mesh_used) with_Sigma with_dc)
      (bz_weights self ik) in
  if dosocc then
    for_keys spn
      (fun bname gf => fun iom i j => gf iom i j * occik self bname ik i j)
      G_latt_w
  else G_latt_w.

(** *** occupations *)

(** The body of the loop of [occupations]: [for ik in range(self.n_k)].
    [occik[bname]] is a Python list that holds one array per k-point;
    [occik[bname][ik][0, :, :] = gf.density().real] fills the array at
    [ik]. *)
Definition occ_body (mu : C) (with_Sigma with_dc : bool)
    (occik_acc : block -> seq mat) (ik : nat) : M (block -> seq mat) :=
  tell (EvLatticeGf ik None) ;;
  let G_latt := lattice_gf self ik (Some mu) None None with_Sigma with_dc in
  ret (for_keys spn
         (fun bname o =>
            set_nth (fun _ _ => 0) o ik
              (fun i j => 'Re (density (G_latt bname) i j)))
         occik_acc).

(** The lists start with one zero array per k-point.  The loop runs over
    the whole range on every worker: the slice of the worker is not
    looked at. *)
Definition occ_sweep (mu : C) (with_Sigma with_dc : bool) (slice : seq nat)
    : M (block -> seq mat) :=
  let occik :=
    for_keys spn (fun sp _ => nseq (n_k self) (fun _ _ => 0 : C))
      (fun _ => [::]) in
  let ikarray := iota 0 (n_k self) in
  for_each (iota 0 (n_k self)) (occ_body mu with_Sigma with_dc) occik.

(** The call; the archive entry written at the end is left out.
    [mpi.all_reduce(occik[sp])] adds Python lists: it concatenates the
    lists of the workers in the order of their ranks. *)
Definition occupations (parts : seq (seq nat)) (rank : nat) (mu : option C)
    (with_Sigma with_dc : bool) : M (block -> seq mat) :=
  let mesh_used := if with_Sigma then Some (Sigma_imp_mesh self) else mesh self in
  py_assert (if mesh_used is Some m then isinstance_MeshImFreq m else false)
    "SumkDFT.mesh must be real if with_Sigma is True or mesh is not given" ;;
  let mu := if mu is Some x then x else chemical_potential self in
  let sweep := occ_sweep mu with_Sigma with_dc in
  let* own := sweep (nth [::] parts rank) in
  let* workers := locals sweep parts in
  tell (EvAllReduce "occik") ;;
  let occik_red :=
    for_keys spn (fun sp _ => flatten [seq w sp | w <- workers]) own in
  tell EvBarrier ;;
  ret occik_red.

(** *** partial_charges *)

(** The body of the loop over the k-points of the worker's slice. *)
Definition pc_body (mu : option C) (with_Sigma with_dc : bool)
    (G_loc : nat -> BlockGf) (ik : nat) : M (nat -> BlockGf) :=
  tell (EvLatticeGf ik None) ;;
  let G_latt_iw := lattice_gf self ik mu None None with_Sigma with_dc in
  let G_latt_iw := imul G_latt_iw (bz_weights self ik) in
  tell_all [seq EvProject ik ish | ish <- iota 0 (n_shells self)] ;;
  ret (for_range (n_shells self)
         (fun ish G_loc_ish =>
            let tmp := G_loc_ish in
            (foldl
               (fun (st : BlockGf * BlockGf) ir =>
                  let: (G_loc_ish, tmp) := st in
                  let tmp :=
                    for_keys spn
                      (fun bname gf =>
                         downfold ik ish bname (G_latt_iw bname) gf shells_all
                           (Some ir))
                      tmp in
                  (iadd G_loc_ish tmp, tmp))
               (G_loc_ish, tmp) (iota 0 (n_parproj self ish))).1)
         G_loc).

Definition pc_sweep (mu : option C) (with_Sigma with_dc : bool)
    (slice : seq nat) : M (nat -> BlockGf) :=
  for_each slice (pc_body mu with_Sigma with_dc) (fun _ => zero).

Definition partial_charges (parts : seq (seq nat)) (rank : nat)
    (mu : option C) (with_Sigma with_dc : bool) : M (block -> nat -> mat) :=
  py_assert (py_str_in (dft_code self) "wien2k")
    "This routine has only been implemented for wien2k inputs" ;;
  let* r :=
    read_input_from_hdf (hdf_file self) (parproj_data self)
      [:: "dens_mat_below"; "n_parproj"; "proj_mat_all"; "rot_mat_all";
          "rot_mat_all_time_inv"]%string in
  check_values_read r.2 ;;
  let sweep := pc_sweep mu with_Sigma with_dc in
  let* own := sweep (nth [::] parts rank) in
  let* workers := locals sweep parts in
  tell (EvAllReduce "G_loc") ;;
  let G_loc :=
    for_range (n_shells self)
      (fun ish _ => all_reduce_BlockGf [seq w ish | w <- workers]) own in
  tell EvBarrier ;;
  let* G_loc :=
    (if symm_op self != 0%N then
       tell EvSymmetrize ;; ret (symmpar_symmetrize G_loc)
     else ret G_loc) in
  let* G_loc :=
    (if use_rotations self then
       tell_all [seq EvRotate ish | ish <- iota 0 (n_shells self)] ;;
       ret (rotate_all (n_shells self) shells_all G_loc)
     else ret G_loc) in
  ret (fun bname ish i j =>
         if (ish < n_shells self)%N && (bname \in spn)
         then dens_mat_below self bname ish i j + density (G_loc ish bname) i j
         else 0).

(** *** gen_Akw *)

(** The local variables that the set-up of the projection binds:
    [n_shells], [shell_list], [dims], [shells_type]. *)
Record akw_locals : Type := {
  akw_n_shells : nat;
  akw_shell_list : seq Z;
  akw_dims : nat -> nat;
  akw_shells_type : shells_kind
}.

(** [if (ish > n_shells) or (ish < 0): raise IOError(...)] for every index
    of a given shell list; [n_shells0] is unassigned when the projection
    is neither 'wann' nor 'wien2k'. *)
Fixpoint check_shell_list (n_shells0 : option nat) (shell_list : seq Z)
    : M unit :=
  if shell_list is ish :: rest then
    if n_shells0 is Some n then
      if (Z.gtb ish (Z.of_nat n)) || (Z.ltb ish 0) then
        raise (IOError
          "indices in shell_list input do not correspond to existing self.shells indices")
      else check_shell_list n_shells0 rest
    else raise (UnboundLocalError "n_shells")
  else ret tt.

(** The set-up under [if (proj_type):].  The report of the user's list
    reads [self.shells[ish]], the first values of [dims] and [gf_struct]
    are read by position. *)
Definition akw_setup (proj_type : option string) (shell_list : option (seq Z))
    : M (option akw_locals) :=
  if py_truthy proj_type then
    let bound : option (nat * (nat -> nat) * shells_kind) :=
      if proj_type == Some "wann"%string then
        Some (n_corr_shells self, corr_shells_dim self, shells_corr)
      else if proj_type == Some "wien2k"%string then
        Some (n_shells self, shells_dim self, shells_all)
      else None in
    let n_shells0 := if bound is Some b then Some b.1.1 else None in
    let* sl :=
      (if shell_list is Some sl then
         check_shell_list n_shells0 sl ;;
         (if all (fun ish => Z.ltb ish (Z.of_nat (n_shells self))) sl
          then ret tt
          else raise (IndexError "list index out of range")) ;;
         ret (size sl, sl)
       else
         if n_shells0 is Some n then ret (n, [seq Z.of_nat ish | ish <- iota 0 n])
         else raise (UnboundLocalError "n_shells")) in
    let: (n_shells_used, sl) := sl in
    if n_shells_used == 0%N then
      ret (Some {| akw_n_shells := 0; akw_shell_list := sl;
                   akw_dims := fun _ => 0%N; akw_shells_type := shells_corr |})
    else if bound is Some b then
      if (n_shells_used <= b.1.1)%N then
        ret (Some {| akw_n_shells := n_shells_used; akw_shell_list := sl;
                     akw_dims := b.1.2; akw_shells_type := b.2 |})
      else raise (IndexError "list index out of range")
    else raise (UnboundLocalError "dims")
  else ret None.

(** The worker-local accumulators of the sweep of [gen_Akw]. *)
Record akw_state : Type := {
  akw_Akw : block -> nat -> nat -> C;
  akw_pAkw_orb : nat -> block -> nat -> nat -> mat;
  akw_G_loc : nat -> BlockGf
}.

(** [a[ish][bname][ik] = f(a[ish][bname][ik])]. *)
Definition upd_pAkw_orb (a : nat -> block -> nat -> nat -> mat)
    (ish : nat) (bname : block) (ik : nat) (f : (nat -> mat) -> nat -> mat)
    : nat -> block -> nat -> nat -> mat :=
  fun ish' bname' ik' =>
    if (ish' == ish) && (bname' == bname) && (ik' == ik)
    then f (a ish' bname' ik') else a ish' bname' ik'.

(** [sp], the variable of the loop [for sp in spn] of the set-up, as it is
    left when that loop ends. *)
Definition sp_left_over : block := last EmptyString spn.

(** The body of the loop over the k-points of the worker's slice. *)
Definition akw_body (mu broadening : option C) (mesh_used : Mesh)
    (plot_shift : C) (window : seq nat) (with_Sigma with_dc : bool)
    (proj_type : option string) (loc : option akw_locals)
    (st : akw_state) (ik : nat) : M akw_state :=
  tell (EvLatticeGf ik (Some mesh_used)) ;;
  let G_latt_w :=
    lattice_gf self ik mu broadening (Some mesh_used) with_Sigma with_dc in
  let Akw :=
    for_keys spn
      (fun bname a => fun ik' =>
         if ik' == ik then
           fun iom =>
             - imag_trace (n_orbitals self ik bname)
                 (G_latt_w bname (nth 0%N window iom)) / pi
             + ik%:R * plot_shift
         else a ik')
      (akw_Akw st) in
  if proj_type != None then
    if loc is Some loc then
      let n_shells_used := akw_n_shells loc in
      tell_all [seq EvProject ik ish | ish <- iota 0 n_shells_used] ;;
      let G_loc :=
        for_range n_shells_used
          (fun ish G_loc_ish =>
             let G_loc_ish := zero in
             let tmp := G_loc_ish in
             let tmp := zero in
             let tmp := proj_type_G_loc G_latt_w tmp ik ish proj_type in
             iadd G_loc_ish tmp)
          (akw_G_loc st) in
      let* G_loc :=
        (if use_rotations self then
           tell_all [seq EvRotate ish | ish <- iota 0 n_shells_used] ;;
           ret (for_range n_shells_used
                  (fun ish G_loc_ish =>
                     let jsh := Z.to_nat (nth Z0 (akw_shell_list loc) ish) in
                     for_keys spn
                       (fun bname gf => rotloc jsh gf (akw_shells_type loc))
                       G_loc_ish)
                  G_loc)
         else ret G_loc) in
      let pAkw_orb :=
        foldl
          (fun a ish =>
             foldl
               (fun a bname =>
                  let a :=
                    upd_pAkw_orb a ish bname ik
                      (fun _ => fun iom i j =>
                         - 'Im (G_loc ish bname (nth 0%N window iom) i j) / pi)
                  in
                  upd_pAkw_orb a ish sp_left_over ik
                    (fun old => fun iom i j => old iom i j + ik%:R * plot_shift))
               a spn)
          (akw_pAkw_orb st) (iota 0 n_shells_used) in
      ret {| akw_Akw := Akw; akw_pAkw_orb := pAkw_orb; akw_G_loc := G_loc |}
    else raise (UnboundLocalError "n_shells")
  else
    ret {| akw_Akw := Akw; akw_pAkw_orb := akw_pAkw_orb st;
           akw_G_loc := akw_G_loc st |}.

Definition akw_init : akw_state :=
  {| akw_Akw := fun _ _ _ => 0;
     akw_pAkw_orb := fun _ _ _ _ _ _ => 0;
     akw_G_loc := fun _ => zero |}.

Definition akw_sweep (mu broadening : option C) (mesh_used : Mesh)
    (plot_shift : C) (window : seq nat) (with_Sigma with_dc : bool)
    (proj_type : option string) (loc : option akw_locals) (slice : seq nat)
    : M akw_state :=
  for_each slice
    (akw_body mu broadening mesh_used plot_shift window with_Sigma with_dc
       proj_type loc)
    akw_init.

Definition akw_result : Type :=
  (block -> nat -> nat -> C) * (nat -> block -> nat -> nat -> C)
  * (nat -> block -> nat -> nat -> mat).

Definition gen_Akw (parts : seq (seq nat)) (rank : nat)
    (mu broadening : option C) (mesh_used : Mesh) (plot_shift : C)
    (plot_range : option (float * float)) (shell_list : option (seq Z))
    (with_Sigma with_dc : bool) (proj_type : option string) : M akw_result :=
  let* mv := plot_bounds mesh_used in
  let om_minplot := if plot_range is Some pr then pr.1 else mv.2.1 in
  let om_maxplot := if plot_range is Some pr then pr.2 else mv.2.2 in
  let window := window_of mv.1 om_minplot om_maxplot in
  let* loc := akw_setup proj_type shell_list in
  let sweep :=
    akw_sweep mu broadening mesh_used plot_shift window with_Sigma with_dc
      proj_type loc in
  let* own := sweep (nth [::] parts rank) in
  tell EvBarrier ;;
  let* workers := locals sweep parts in
  tell (EvAllReduce "Akw") ;;
  let Akw :=
    for_keys spn
      (fun sp _ => fun ik iom => \sum_(w <- workers) akw_Akw w sp ik iom)
      (akw_Akw own) in
  let* projected :=
    (if py_truthy proj_type then
       if loc is Some loc then
         tell (EvAllReduce "pAkw_orb") ;;
         let pAkw_orb :=
           for_range (akw_n_shells loc)
             (fun ish a =>
                for_keys spn
                  (fun sp _ => fun ik iom i j =>
                     \sum_(w <- workers) akw_pAkw_orb w ish sp ik iom i j)
                  a)
             (akw_pAkw_orb own) in
         ret ((fun ish sp ik iom =>
                 if (ish < akw_n_shells loc)%N && (sp \in spn)
                 then tr (akw_dims loc ish) (pAkw_orb ish sp ik iom) else 0),
              pAkw_orb)
       else raise (UnboundLocalError "n_shells")
     else ret ((fun _ _ _ _ => 0), (fun _ _ _ _ _ _ => 0))) in
  tell EvBarrier ;;
  ret (Akw, projected.1, projected.2).

(** *** spaghettis and spectral_contours *)

(** The calls; the text files written at the end are left out. *)
Definition spaghettis (parts : seq (seq nat)) (rank : nat)
    (mu broadening : option C) (mesh_arg : option Mesh) (plot_shift : C)
    (plot_range : option (float * float)) (shell_list : option (seq Z))
    (with_Sigma with_dc : bool) (proj_type : option string) : M akw_result :=
  (if proj_type is Some p then
     py_assert (p \in [:: "wann"; "wien2k"]%string)
       "'proj_type' must be either 'wann', 'wien2k'" ;;
     if p != "wann"%string then
       py_assert (p == dft_code self)
         "proj_type must be from the corresponding dft inputs."
     else ret tt
   else ret tt) ;;
  let* r :=
    read_input_from_hdf (hdf_file self) (bands_data self)
      [:: "n_k"; "n_orbitals"; "proj_mat"; "hopping"]%string in
  check_values_read r.2 ;;
  (if proj_type == Some "wien2k"%string then load_parproj (Some "band"%string)
   else ret tt) ;;
  let mu := if mu is Some x then x else chemical_potential self in
  let* mb := select_mesh with_Sigma mesh_arg broadening in
  let* mv := plot_bounds mb.1 in
  gen_Akw parts rank (Some mu) mb.2 mb.1 plot_shift plot_range shell_list
    with_Sigma with_dc proj_type.

Definition spectral_contours (parts : seq (seq nat)) (rank : nat)
    (mu broadening : option C) (mesh_arg : option Mesh)
    (plot_range : option (float * float)) (FS : bool)
    (with_Sigma with_dc : bool) (proj_type : option string) : M akw_result :=
  (if proj_type is Some p then
     py_assert (py_str_in p "wann") "'proj_type' must be 'wann' if not None"
   else ret tt) ;;
  let* r :=
    read_input_from_hdf (hdf_file self) (cont_data self)
      [:: "n_k"; "bmat"; "BZ_n_k"; "BZ_iknr"; "BZ_vkl"; "n_orbitals";
          "proj_mat"; "hopping"]%string in
  check_values_read r.2 ;;
  let mu := if mu is Some x then x else chemical_potential self in
  let* mb := select_mesh with_Sigma mesh_arg broadening in
  let* mv := plot_bounds mb.1 in
  let mesh_val := mv.1 in
  let* plot_range :=
    (if FS then
       if mesh_val is w0 :: w1 :: _ then
         let dw := PrimFloat.abs (PrimFloat.sub w1 w0) in
         ret (Some (PrimFloat.mul (PrimFloat.opp (float_of_nat 2)) dw,
                    PrimFloat.mul (float_of_nat 2) dw))
       else raise (IndexError "index 1 is out of bounds")
     else ret plot_range) in
  gen_Akw parts rank (Some mu) mb.2 mb.1 0 plot_range None
    with_Sigma with_dc proj_type.

(** The projection of the lattice Green's function [G] of [ik] on shell
    [ish] by the partial projector [ir]. *)
Definition partial_projection (G : BlockGf) (ik ish ir : nat) (bname : block)
    : Gf :=
  downfold ik ish bname (G bname) (zero bname) shells_all (Some ir).

(** The contribution of the k-point [ik] to [occik[bname][ik]]. *)
Definition occ_term (mu : C) (with_Sigma with_dc : bool) (ik : nat)
    (bname : block) : mat :=
  fun i j =>
    'Re (density (lattice_gf self ik (Some mu) None None with_Sigma with_dc bname)
           i j).

(** The local Green's function of the shell at position [ish] that the
    sweep of [gen_Akw] holds for the k-point [ik] after the projection. *)
Definition akw_G_loc_k (mu broadening : option C) (mesh_used : Mesh)
    (with_Sigma with_dc : bool) (proj_type : option string) (ik ish : nat)
    : BlockGf :=
  iadd zero
    (proj_type_G_loc
       (lattice_gf self ik mu broadening (Some mesh_used) with_Sigma with_dc)
       zero ik ish proj_type).

(** The frequency window of [gen_Akw] on the mesh [m]: the indices of the
    mesh points, as [numpy.linspace] places them in binary64, that lie
    strictly between the bounds of the plot, compared as floats. *)
Definition akw_window (m : Mesh) (plot_range : option (float * float)) : seq nat :=
  if (plot_bounds m [::]).1 is Ok mv then
    window_of mv.1 (if plot_range is Some pr then pr.1 else mv.2.1)
      (if plot_range is Some pr then pr.2 else mv.2.2)
  else [::].

(** The lattice Green's function of a k-point as the DOS is taken from it:
    as the provider returned it, or, in the occupied variant ([dosocc]),
    masked by the band occupations [occik[bname][ik]]. *)
Definition dos_lattice_matrix (dosocc : bool) (ik : nat) (bname : block)
    (a : mat) : mat :=
  if dosocc then fun i j => a i j * occik self bname ik i j else a.

(** [dims], the dimensions of the shells of the projection, as the set-up
    of [density_of_states] binds them under [proj_type]. *)
Definition dos_dims (proj_type : option string) : nat -> nat :=
  if proj_type == Some "wann"%string then corr_shells_dim self
  else if proj_type == Some "vasp"%string then
    fun _ => proj_mat_csc_shape2 self
  else if proj_type == Some "wien2k"%string then shells_dim self
  else fun _ => 0%N.

(** The plot range that [spectral_contours] hands to [gen_Akw] on the mesh
    [m]: in the Fermi-surface mode ([FS]) the range [-2*dw, 2*dw], with
    [dw = abs(mesh_val[1] - mesh_val[0])], whatever the range of the
    caller; the range of the caller otherwise. *)
Definition contours_plot_range (m : Mesh) (FS : bool)
    (plot_range : option (float * float)) : option (float * float) :=
  if FS then
    if (plot_bounds m [::]).1 is Ok mv then
      if mv.1 is w0 :: w1 :: _ then
        let dw := PrimFloat.abs (PrimFloat.sub w1 w0) in
        Some (PrimFloat.mul (PrimFloat.opp (float_of_nat 2)) dw,
              PrimFloat.mul (float_of_nat 2) dw)
      else None
    else None
  else plot_range.

(** [n_shells], the number of shells of the projection, as the set-up of
    [density_of_states] binds it under [proj_type]. *)
Definition dos_n_shells (proj_type : option string) : nat :=
  if proj_type == Some "wann"%string then n_corr_shells self
  else if proj_type == Some "vasp"%string then 1%N
  else if proj_type == Some "wien2k"%string then n_shells self
  else 1%N.



(** The Green's function of the block [bname] of the shell at position
    [ish] off which the sweep of [gen_Akw] reads the projected spectral
    function of the k-point [ik]: the projected Green's function of that
    k-point alone, rotated with the matrix of the shell [shell_list[ish]]
    when the object uses rotations. *)
Definition akw_G_rot_k (mu broadening : option C) (mesh_used : Mesh)
    (with_Sigma with_dc : bool) (proj_type : option string)
    (loc : akw_locals) (ik ish : nat) (bname : block) : Gf :=
  let gf :=
    akw_G_loc_k mu broadening mesh_used with_Sigma with_dc proj_type ik ish
      bname in
  if use_rotations self then
    let jsh := Z.to_nat (nth Z0 (akw_shell_list loc) ish) in
    rotloc jsh gf (akw_shells_type loc)
  else gf.

(** A call of the provider of the lattice Green's function. *)
Definition is_provider_call (e : event) : bool :=
  if e is EvLatticeGf _ _ then true else false.

(** The items of [things_to_read] that a read of the subgroup [subgrp] of
    the archive of the object reports as not read. *)
Definition values_not_read_of (subgrp : string) (things_to_read : seq string)
    : seq string :=
  (returned (false, [::])
     (result (read_input_from_hdf (hdf_file self) subgrp things_to_read))).2.

(** *** print_hamiltonian *)

(** A line of a text file of [print_hamiltonian]: the row
    ['%s    %s\n' % (ik, x)] or the empty line ['\n']. *)
Inductive ham_line : Type :=
| HamRow (ik : nat) (x : C)
| HamBlank.

(** [print_hamiltonian], as the files it leaves: the name and the lines
    of each.  [self.SP], [self.n_orbitals[ik, isp]] and
    [self.hopping[ik, isp]], which the other methods do not read by spin
    index, are handed to the model as [SP], [n_orbitals_isp] and
    [hopping]. *)
Definition print_hamiltonian (SP : nat) (n_orbitals_isp : nat -> nat -> nat)
    (hopping : nat -> nat -> mat) : seq (string * seq ham_line) :=
  if (SP == 1%N) && (SO self == 0%N) then
    let f1 := [::] in
    let f2 := [::] in
    let: (f1, f2) :=
      foldl
        (fun (fs : seq ham_line * seq ham_line) ik =>
           let: (f1, f2) := fs in
           let f1 :=
             foldl (fun f i => rcons f (HamRow ik ('Re (hopping ik 0%N i i))))
               f1 (iota 0 (n_orbitals_isp ik 0%N)) in
           let f2 :=
             foldl (fun f i => rcons f (HamRow ik ('Re (hopping ik 1%N i i))))
               f2 (iota 0 (n_orbitals_isp ik 1%N)) in
           (rcons f1 HamBlank, rcons f2 HamBlank))
        (f1, f2) (iota 0 (n_k self)) in
    [:: ("hamup.dat"%string, f1); ("hamdn.dat"%string, f2)]
  else
    let f := [::] in
    let f :=
      foldl
        (fun f ik =>
           let f :=
             foldl (fun f i => rcons f (HamRow ik ('Re (hopping ik 0%N i i))))
               f (iota 0 (n_orbitals_isp ik 0%N)) in
           rcons f HamBlank)
        f (iota 0 (n_k self)) in
    [:: ("ham.dat"%string, f)].

(** Reading a file of [print_hamiltonian] back: the values of the rows
    that carry the k-index [ik], in the order of the file, and the number
    of empty lines. *)
Definition ham_values_of (ik : nat) (f : seq ham_line) : seq C :=
  pmap (fun ln => if ln is HamRow k x then
                    if k == ik then Some x else None
                  else None) f.

Definition ham_blank_lines (f : seq ham_line) : nat :=
  count (fun ln => if ln is HamBlank then true else false) f.

(** The band energies of the k-point [ik] for the spin index [isp]:
    [hopping[ik, isp, i, i].real] for [i] in
    [range(n_orbitals[ik, isp])]. *)
Definition band_energies (n_orbitals_isp : nat -> nat -> nat)
    (hopping : nat -> nat -> mat) (ik isp : nat) : seq C :=
  [seq 'Re (hopping ik isp i i) | i <- iota 0 (n_orbitals_isp ik isp)].

(** ** Properties *)

(** *** The monad *)

Lemma bind_Ok {A B} (m : M A) (k : A -> M B) l b l' :
  bind m k l = (Ok b, l') ->
  exists a l1, m l = (Ok a, l1) /\ k a l1 = (Ok b, l').
Proof.
rewrite /bind; case: (m l) => [[a|e] l1] //= H.
by exists a, l1.
Qed.

Lemma for_each_pure {S} (body : S -> nat -> M S) (f : S -> nat -> S)
    (ev : nat -> seq event) :
  (forall s x l, body s x l = (Ok (f s x), l ++ ev x)) ->
  forall xs s l,
    for_each xs body s l = (Ok (foldl f s xs), l ++ flatten (map ev xs)).
Proof.
move=> Hb; elim=> [|x xs IH] s l /=; first by rewrite /ret cats0.
by rewrite /bind Hb IH catA.
Qed.

Lemma locals_pure {S} (sweep : seq nat -> M S) (v : seq nat -> S)
    (ev : seq nat -> seq event) :
  (forall s, sweep s [::] = (Ok (v s), ev s)) ->
  forall parts l, locals sweep parts l = (Ok (map v parts), l).
Proof.
move=> Hs; elim=> [|s parts IH] l //=.
by rewrite Hs /bind IH.
Qed.

(** A sum over the slices of a disjoint cover is the sum over the range. *)
Lemma sum_over_partition (parts : seq (seq nat)) (n : nat) (F : nat -> C) :
  perm_eq (flatten parts) (iota 0 n) ->
  \sum_(s <- parts) \sum_(k <- s) F k = \sum_(0 <= k < n) F k.
Proof.
move=> Hp; rewrite -big_flatten /= (perm_big _ Hp) /=.
by rewrite /index_iota subn0.
Qed.

(** *** The sweep of density_of_states *)

Section DosSweep.

Variables (mu broadening : option C) (mesh_used : Mesh).
Variables (with_Sigma with_dc : bool) (proj_type : option string).
Variables (dosocc : bool) (n_sh : nat).

Let body :=
  dos_body mu broadening mesh_used with_Sigma with_dc proj_type dosocc n_sh.
Let step :=
  dos_step mu broadening mesh_used with_Sigma with_dc proj_type dosocc n_sh.
Let G_w := dos_G_latt_w mu broadening mesh_used with_Sigma with_dc dosocc.

Lemma dos_bodyE st ik l :
  body st ik l = (Ok (step st ik), l ++ dos_events mesh_used proj_type n_sh ik).
Proof.
rewrite /body /step /dos_step /dos_body /dos_events /bind /tell /tell_all /ret.
by case: (proj_type != None); rewrite /= -cats1 -?catA.
Qed.

Lemma dos_sweepE slice l :
  dos_sweep mu broadening mesh_used with_Sigma with_dc proj_type dosocc n_sh
    slice l
  = (Ok (foldl step dos_init slice),
     l ++ flatten (map (dos_events mesh_used proj_type n_sh) slice)).
Proof. exact: (for_each_pure dos_bodyE). Qed.

Lemma dos_step_DOS st ik bname iom :
  dos_DOS (step st ik) bname iom =
  if bname \in spn
  then dos_DOS st bname iom
       - imag_trace (n_orbitals self ik bname) (G_w ik bname iom) / pi
  else dos_DOS st bname iom.
Proof.
rewrite /step /dos_step /dos_body /bind /tell /tell_all /ret.
by case: (proj_type != None); rewrite /= /for_keys; case: ifP.
Qed.

Lemma dos_fold_DOS slice st bname iom :
  bname \in spn ->
  dos_DOS (foldl step st slice) bname iom =
  dos_DOS st bname iom
  + \sum_(ik <- slice)
      - (imag_trace (n_orbitals self ik bname) (G_w ik bname iom) / pi).
Proof.
move=> Hb; elim: slice st => [|ik slice IH] st /=.
  by rewrite big_nil addr0.
by rewrite IH dos_step_DOS Hb big_cons addrA.
Qed.

End DosSweep.

(** *** The total DOS *)

Lemma select_mesh_log with_Sigma mesh_arg broadening l :
  select_mesh with_Sigma mesh_arg broadening l
  = (result (select_mesh with_Sigma mesh_arg broadening), l).
Proof.
rewrite /result /select_mesh /bind /py_assert /ret /raise.
case: with_Sigma; first by case: ifP.
case: mesh_arg => [m|]; first by case: ifP.
by case: (mesh self) => [m|] //; case: ifP.
Qed.

Lemma imag_trace_weighted d (a : mat) (x : C) :
  x \is Num.real ->
  imag_trace d (fun i j => a i j * x) = x * 'Im (tr d a).
Proof.
move=> Hx; rewrite /imag_trace /tr raddf_sum /= mulr_sumr.
by apply: eq_bigr => i _; rewrite ImMr // mulrC.
Qed.

Lemma imag_trace_masked d (a occ : mat) (x : C) :
  x \is Num.real ->
  imag_trace d (fun i j => a i j * x * occ i j)
  = x * 'Im (tr d (fun i j => a i j * occ i j)).
Proof.
move=> Hx; rewrite /imag_trace /tr raddf_sum /= mulr_sumr.
by apply: eq_bigr => i _; rewrite mulrAC ImMr // mulrC.
Qed.

(** The reduced DOS is the sum, over the workers and over the k-points of
    each worker's slice, of the k-point's term. *)
Lemma dos_DOS_reduced parts rank mu broadening mesh_arg with_Sigma with_dc
    proj_type dosocc mesh_used broadening_used DOS DOSproj DOSproj_orb
    bname iom :
  result (select_mesh with_Sigma mesh_arg broadening)
    = Ok (mesh_used, broadening_used) ->
  result (density_of_states parts rank mu broadening mesh_arg with_Sigma
            with_dc proj_type dosocc)
    = Ok (DOS, DOSproj, DOSproj_orb) ->
  bname \in spn ->
  DOS bname iom =
  \sum_(slice <- parts) \sum_(ik <- slice)
    - (imag_trace (n_orbitals self ik bname)
         (dos_G_latt_w mu broadening_used mesh_used with_Sigma with_dc dosocc
            ik bname iom) / pi).
Proof.
move=> Hmesh; rewrite /result /density_of_states.
case E: (bind _ _ _) => [r l] /= Hr; move: E; rewrite {}Hr.
move=> H; have [u [l1 [_ {}H]]] := bind_Ok H.
have [mb [l2 [Hmb {}H]]] := bind_Ok H.
move: Hmb; rewrite select_mesh_log Hmesh => -[Emb _]; rewrite -{}Emb /= in H.
have [mv [l2' [_ {}H]]] := bind_Ok H.
have [{}u [l3 [_ {}H]]] := bind_Ok H.
have [[[n_sh dims] shells_type] [l4 [_ {}H]]] := bind_Ok H.
have [own [l5 [_ {}H]]] := bind_Ok H.
have [{}u [l6 [_ {}H]]] := bind_Ok H.
have [workers [l7 [Hw {}H]]] := bind_Ok H.
have [{}u [l8 [_ {}H]]] := bind_Ok H.
move: Hw; rewrite (locals_pure (fun s => dos_sweepE _ _ _ _ _ _ _ _ s [::])).
case=> Ew _ Hb.
have ->: DOS bname iom = \sum_(w <- workers) dos_DOS w bname iom.
  case: (proj_type != None) H => H.
    have [{}u [l9 [_ {}H]]] := bind_Ok H.
    have [G_loc [l10 [_ {}H]]] := bind_Ok H.
    by case: H => <- _ _ _; rewrite /for_keys Hb.
  by case: H => <- _ _ _; rewrite /for_keys Hb.
rewrite -Ew big_map; apply: eq_bigr => slice _.
by rewrite dos_fold_DOS // add0r.
Qed.

(** C4.  For every spin block and every frequency, the DOS that
    [density_of_states] returns is the sum over all k-points of the
    Brillouin-zone weight times minus one over pi times the imaginary part
    of the trace of the k-point's lattice Green's function (masked by the
    band occupations in the occupied variant, [dosocc]), on every worker
    and for every partition of the k-range into disjoint covering slices,
    over exact arithmetic. *)
Theorem dos_total_weighted_trace_sum parts rank mu broadening mesh_arg
    with_Sigma with_dc proj_type dosocc mesh_used broadening_used
    DOS DOSproj DOSproj_orb bname iom :
  perm_eq (flatten parts) (iota 0 (n_k self)) ->
  (forall ik, bz_weights self ik \is Num.real) ->
  result (select_mesh with_Sigma mesh_arg broadening)
    = Ok (mesh_used, broadening_used) ->
  result (density_of_states parts rank mu broadening mesh_arg with_Sigma
            with_dc proj_type dosocc)
    = Ok (DOS, DOSproj, DOSproj_orb) ->
  bname \in spn ->
  DOS bname iom =
  \sum_(0 <= ik < n_k self)
    bz_weights self ik *
    (- (1 / pi) *
     'Im (tr (n_orbitals self ik bname)
            (dos_lattice_matrix dosocc ik bname
               (lattice_gf self ik mu broadening_used (Some mesh_used)
                  with_Sigma with_dc bname iom)))).
Proof.
move=> Hperm Hreal Hmesh Hres Hb.
rewrite (dos_DOS_reduced iom Hmesh Hres Hb) (sum_over_partition _ Hperm).
apply: eq_bigr => ik _.
have ->: imag_trace (n_orbitals self ik bname)
           (dos_G_latt_w mu broadening_used mesh_used with_Sigma with_dc
              dosocc ik bname iom)
       = bz_weights self ik
         * 'Im (tr (n_orbitals self ik bname)
                  (dos_lattice_matrix dosocc ik bname
                     (lattice_gf self ik mu broadening_used (Some mesh_used)
                        with_Sigma with_dc bname iom))).
  rewrite /dos_G_latt_w /dos_lattice_matrix /imul.
  case: (dosocc) => /=.
    by rewrite /for_keys Hb imag_trace_masked.
  by rewrite imag_trace_weighted.
by rewrite mul1r mulNr mulrN -mulrA [pi^-1 * _]mulrC.
Qed.

(** *** The partial projectors of a shell *)

Lemma wien2k_loop G_latt ik ish rs (st : BlockGf * BlockGf) bname iom i j :
  bname \in spn ->
  (foldl
     (fun (st : BlockGf * BlockGf) ir =>
        let: (G_proj, tmp) := st in
        let tmp := zero in
        let tmp :=
          for_keys spn
            (fun bname gf =>
               downfold ik ish bname (G_latt bname) gf shells_all (Some ir))
            tmp in
        (iadd G_proj tmp, tmp))
     st rs).1 bname iom i j
  = st.1 bname iom i j
    + \sum_(ir <- rs) partial_projection G_latt ik ish ir bname iom i j.
Proof.
move=> Hb; elim: rs st => [|ir rs IH] [G tmp] /=; first by rewrite big_nil addr0.
by rewrite IH big_cons addrA /= /iadd /for_keys Hb.
Qed.

Lemma partial_charges_loop G_latt ik ish rs (st : BlockGf * BlockGf)
    bname iom i j :
  bname \in spn ->
  (foldl
     (fun (st : BlockGf * BlockGf) ir =>
        let: (G_loc_ish, tmp) := st in
        let tmp :=
          for_keys spn
            (fun bname gf =>
               downfold ik ish bname (G_latt bname) gf shells_all (Some ir))
            tmp in
        (iadd G_loc_ish tmp, tmp))
     st rs).1 bname iom i j
  = st.1 bname iom i j
    + \sum_(ir <- rs) partial_projection G_latt ik ish ir bname iom i j.
Proof.
move=> Hb; elim: rs st => [|ir rs IH] [G tmp] /=; first by rewrite big_nil addr0.
by rewrite IH big_cons addrA /= /iadd /for_keys Hb.
Qed.

(** What the dispatcher returns for 'wien2k' on any template. *)
Lemma proj_type_G_loc_wien2k G_latt G_inp ik ish bname iom i j :
  bname \in spn ->
  proj_type_G_loc G_latt G_inp ik ish (Some "wien2k"%string) bname iom i j
  = G_inp bname iom i j
    + \sum_(0 <= ir < n_parproj self ish)
        partial_projection G_latt ik ish ir bname iom i j.
Proof.
move=> Hb; rewrite /proj_type_G_loc /=.
by rewrite (wien2k_loop _ _ _ _ _ _ _ _ Hb) /index_iota subn0.
Qed.

(** C3.  For the 'wien2k' scheme, what the dispatcher returns on the zeroed
    scratch Green's function that [density_of_states] hands it is, for
    every block, the sum over all [n_parproj[ish]] partial projectors of
    the shell of the projections of the k-point's lattice Green's
    function; and one pass of the loop of [partial_charges] adds exactly
    that sum, taken on the weighted lattice Green's function, to
    [G_loc[ish]].  No partial projector is left out. *)
Theorem partial_projectors_all_summed G_latt G_loc mu with_Sigma with_dc
    ik ish bname iom i j l :
  bname \in spn -> (ish < n_shells self)%N ->
  proj_type_G_loc G_latt zero ik ish (Some "wien2k"%string) bname iom i j
  = \sum_(0 <= ir < n_parproj self ish)
      partial_projection G_latt ik ish ir bname iom i j
  /\ exists G_loc',
       (pc_body mu with_Sigma with_dc G_loc ik l).1 = Ok G_loc' /\
       G_loc' ish bname iom i j
       = G_loc ish bname iom i j
         + \sum_(0 <= ir < n_parproj self ish)
             partial_projection
               (imul (lattice_gf self ik mu None None with_Sigma with_dc)
                  (bz_weights self ik))
               ik ish ir bname iom i j.
Proof.
move=> Hb Hish; split; first by rewrite proj_type_G_loc_wien2k // add0r.
rewrite /pc_body /bind /tell /tell_all /ret /=.
eexists; split; first by [].
by rewrite /for_range Hish (partial_charges_loop _ _ _ _ _ _ _ _ Hb)
           /index_iota subn0.
Qed.

(** *** The rotation into the local frame *)

Lemma sum_delta d (f : nat -> C) i :
  (i < d)%N -> \sum_(0 <= j < d) f j * (j == i)%:R = f i.
Proof.
move=> Hi; rewrite (bigD1_seq i) /= ?iota_uniq ?mem_index_iota //.
rewrite eqxx mulr1 big1 ?addr0 // => j /negbTE ->.
by rewrite mulr0.
Qed.

Lemma imag_traceE d (a : mat) : imag_trace d a = 'Im (tr d a).
Proof. by rewrite /imag_trace /tr raddf_sum. Qed.

Lemma tr_similarity d (U a : mat) :
  unitary d U ->
  \sum_(0 <= x < d) \sum_(0 <= i < d) \sum_(0 <= j < d)
     (U i x)^* * a i j * U j x
  = tr d a.
Proof.
move=> HU; rewrite exchange_big /=; apply: eq_big_nat => i /andP [_ Hi].
rewrite exchange_big /= -[RHS](sum_delta (a i) Hi).
apply: eq_big_nat => j /andP [_ Hj].
rewrite -(HU j i Hj Hi) mulr_sumr; apply: eq_bigr => x _.
by rewrite [_^* * _]mulrC -mulrA [_^* * _]mulrC.
Qed.

Lemma tr_similarity_time_inv d (U a : mat) :
  unitary d U ->
  \sum_(0 <= x < d) \sum_(0 <= i < d) \sum_(0 <= j < d)
     U i x * a j i * (U j x)^*
  = tr d a.
Proof.
move=> HU; rewrite exchange_big /=; apply: eq_big_nat => i /andP [_ Hi].
rewrite exchange_big /= -[RHS](sum_delta (a^~ i) Hi).
apply: eq_big_nat => j /andP [_ Hj].
rewrite eq_sym -(HU i j Hi Hj) mulr_sumr; apply: eq_bigr => x _.
by rewrite [U i x * _]mulrC -mulrA.
Qed.

(** C8.  The rotation of a shell's Green's function into the local frame
    by a unitary matrix keeps its trace at every frequency, with or without
    time reversal; so the rotation step of the corrections leaves the
    shell-projected DOS, which is computed from that trace, as it is on the
    reduced and symmetrized [G_loc]. *)
Theorem rotation_preserves_trace n_shells_used shells_type
    (G_loc : nat -> BlockGf) ish bname iom :
  unitary (shell_dim shells_type ish) (rot_matrix shells_type ish) ->
  tr (shell_dim shells_type ish) (rotloc ish (G_loc ish bname) shells_type iom)
  = tr (shell_dim shells_type ish) (G_loc ish bname iom)
  /\ DOSproj_of (shell_dim shells_type)
       (rotate_all n_shells_used shells_type G_loc) ish bname iom
     = DOSproj_of (shell_dim shells_type) G_loc ish bname iom.
Proof.
move=> HU.
have Htr gf : tr (shell_dim shells_type ish) (rotloc ish gf shells_type iom)
            = tr (shell_dim shells_type ish) (gf iom).
  rewrite /rotloc; case: ifP => _; rewrite {1}/tr.
    by rewrite (tr_similarity_time_inv _ HU).
  by rewrite (tr_similarity _ HU).
split=> //.
rewrite /DOSproj_of /rotate_all /for_range /for_keys !imag_traceE.
by case: ifP => // _; case: ifP => // _; rewrite Htr.
Qed.

(** *** The sweep of occupations *)

Lemma occ_bodyE mu with_Sigma with_dc acc ik l :
  occ_body mu with_Sigma with_dc acc ik l
  = (Ok (for_keys spn
           (fun bname o =>
              set_nth (fun _ _ => 0) o ik
                (occ_term mu with_Sigma with_dc ik bname))
           acc),
     l ++ [:: EvLatticeGf ik None]).
Proof. by rewrite /occ_body /bind /tell /ret cats1. Qed.

Lemma occ_fold mu with_Sigma with_dc ks acc bname :
  bname \in spn ->
  foldl
    (fun acc ik =>
       for_keys spn
         (fun bname o =>
            set_nth (fun _ _ => 0) o ik
              (occ_term mu with_Sigma with_dc ik bname))
         acc)
    acc ks bname
  = foldl
      (fun o ik =>
         set_nth (fun _ _ => 0) o ik (occ_term mu with_Sigma with_dc ik bname))
      (acc bname) ks.
Proof.
move=> Hb; elim: ks acc => [|k ks IH] acc //=.
by rewrite IH /for_keys Hb.
Qed.

Lemma set_nth_size_cat {T : Type} (d : T) pre x s y :
  set_nth d (pre ++ x :: s) (size pre) y = pre ++ y :: s.
Proof. by elim: pre => [|a pre IH] //=; rewrite IH. Qed.

(** Filling a list of [k] default entries, one index after the other. *)
Lemma foldl_set_nth {T : Type} (d : T) (f : nat -> T) k pre :
  foldl (fun o ik => set_nth d o ik (f ik)) (pre ++ nseq k d)
    (iota (size pre) k)
  = pre ++ [seq f ik | ik <- iota (size pre) k].
Proof.
elim: k pre => [|k IH] pre //=.
rewrite set_nth_size_cat -cat_rcons.
by rewrite -[(size pre).+1](size_rcons pre (f (size pre))) IH cat_rcons.
Qed.

(** What every worker holds after its loop: the contribution of every
    k-point of the range, whatever its slice. *)
Lemma occ_sweepE mu with_Sigma with_dc slice l :
  exists occ_loc l',
    occ_sweep mu with_Sigma with_dc slice l = (Ok occ_loc, l')
    /\ forall bname, bname \in spn ->
         occ_loc bname
         = [seq occ_term mu with_Sigma with_dc ik bname
           | ik <- iota 0 (n_k self)].
Proof.
rewrite /occ_sweep (for_each_pure (occ_bodyE mu with_Sigma with_dc)).
eexists; eexists; split; first reflexivity.
move=> bname Hb; rewrite occ_fold // /for_keys Hb.
exact: (foldl_set_nth (fun _ _ => 0) _ (n_k self) [::]).
Qed.

(** In the result of [occupations] the contribution of every k-point
    appears once per worker of the run: the reduced list is the list of
    the contributions of the range, repeated for every worker. *)
Lemma occupations_counts_every_worker parts rank mu with_Sigma with_dc occ
    sp :
  result (occupations parts rank mu with_Sigma with_dc) = Ok occ ->
  sp \in spn ->
  occ sp
  = flatten
      (nseq (size parts)
         [seq occ_term (if mu is Some x then x else chemical_potential self)
                with_Sigma with_dc ik sp
         | ik <- iota 0 (n_k self)]).
Proof.
rewrite /result /occupations.
case E: (bind _ _ _) => [r l] /= Hr; move: E; rewrite {}Hr.
move=> H; have [u [l1 [_ {}H]]] := bind_Ok H.
have [own [l2 [_ {}H]]] := bind_Ok H.
have [workers [l3 [Hw {}H]]] := bind_Ok H.
have [{}u [l4 [_ {}H]]] := bind_Ok H.
have [{}u [l5 [_ {}H]]] := bind_Ok H.
case: H => <- _ Hsp; rewrite /for_keys Hsp.
elim: parts workers l2 l3 Hw {own} => [|s parts IH] workers l2 l3 /=.
  by case=> <- _.
have [occ_loc [l0 [-> Hloc]]] :=
  occ_sweepE (if mu is Some x then x else chemical_potential self)
    with_Sigma with_dc s [::].
move=> Hw; have [ws [l6 [Hws]]] := bind_Ok Hw; case=> <- _ /=.
by rewrite (Hloc _ Hsp) (IH _ _ _ Hws).
Qed.

(** *** Logs *)

Lemma logs_ret p {A} (a : A) : logs p (ret a).
Proof. by move=> l; exists [::]; rewrite //= cats0. Qed.

Lemma logs_raise p {A} e : logs p (@raise A e).
Proof. by move=> l; exists [::]; rewrite //= cats0. Qed.

Lemma logs_tell (p : event -> bool) e : p e -> logs p (tell e).
Proof. by move=> He l; exists [:: e]; rewrite /= ?cats1 ?He. Qed.

Lemma logs_tell_all (p : event -> bool) es : all p es -> logs p (tell_all es).
Proof. by move=> He l; exists es. Qed.

Lemma logs_assert p b msg : logs p (py_assert b msg).
Proof. by rewrite /py_assert; case: b; [apply: logs_ret | apply: logs_raise]. Qed.

Lemma logs_bind_res p {A B} (m : M A) (k : A -> M B) :
  logs p m ->
  (forall a l l', m l = (Ok a, l') -> logs p (k a)) ->
  logs p (bind m k).
Proof.
move=> Hm Hk l; rewrite /bind; have [es1 E1 H1] := Hm l.
case E: (m l) E1 => [[a|e] l'] /= E1; last by exists es1.
have [es2 E2 H2] := Hk a l l' E l'.
by exists (es1 ++ es2); rewrite ?all_cat ?H1 // E2 E1 catA.
Qed.

Lemma logs_bind p {A B} (m : M A) (k : A -> M B) :
  logs p m -> (forall a, logs p (k a)) -> logs p (bind m k).
Proof. by move=> Hm Hk; apply: logs_bind_res => // a _ _ _; apply: Hk. Qed.

Lemma logs_for_each p {S} (body : S -> nat -> M S) xs s :
  (forall s x, logs p (body s x)) -> logs p (for_each xs body s).
Proof.
move=> Hb; elim: xs s => [|x xs IH] s /=; first exact: logs_ret.
by apply: logs_bind => // s'; apply: IH.
Qed.

Lemma logs_locals p {S} (sweep : seq nat -> M S) parts :
  logs p (locals sweep parts).
Proof.
elim: parts => [|s parts IH] /=; first exact: logs_ret.
case: (sweep s [::]) => [[v|e] _]; last exact: logs_raise.
by apply: logs_bind => // vs; apply: logs_ret.
Qed.

Lemma logs_read_input (p : event -> bool) ar subgrp things :
  p (EvReadInput subgrp things) -> logs p (read_input_from_hdf ar subgrp things).
Proof.
move=> Hp; rewrite /read_input_from_hdf; apply: logs_bind; first exact: logs_tell.
by move=> _; case: (subgroup _ _) => [present|]; apply: logs_ret.
Qed.

Lemma logs_check_values_read p vs : logs p (check_values_read vs).
Proof.
by rewrite /check_values_read; case: ifP => _; [apply: logs_raise | apply: logs_ret].
Qed.

Lemma logs_load_parproj (p : event -> bool) data_type :
  (forall g t, p (EvReadInput g t)) -> logs p (load_parproj data_type).
Proof.
move=> Hp; rewrite /load_parproj; apply: logs_bind.
  by case: ifP => _; apply: logs_read_input.
move=> r; apply: logs_bind; first exact: logs_check_values_read.
move=> _; apply: logs_bind; first exact: logs_read_input.
by move=> r'; apply: logs_check_values_read.
Qed.

Lemma logs_select_mesh p with_Sigma mesh_arg broadening :
  logs p (select_mesh with_Sigma mesh_arg broadening).
Proof.
by move=> l; exists [::]; rewrite // select_mesh_log cats0.
Qed.

Lemma logs_plot_bounds p m : logs p (plot_bounds m).
Proof.
rewrite /plot_bounds /mesh_val_of; apply: logs_bind.
  by case: m => *; [apply: logs_ret | apply: logs_raise].
by case=> [|w0 ws]; [apply: logs_raise | apply: logs_ret].
Qed.

(** *** The frequency mesh of a call *)

Ltac logs_auto :=
  repeat first
    [ exact: logs_ret | exact: logs_raise | exact: logs_assert
    | exact: logs_select_mesh | exact: logs_plot_bounds
    | exact: logs_check_values_read | exact: logs_locals
    | by apply: logs_tell | by apply: logs_tell_all
    | by apply: logs_read_input | by apply: logs_load_parproj
    | apply: logs_bind => [|?]
    | match goal with
      | |- logs _ (if ?b then _ else _) => case: b
      | |- logs _ (match ?x with _ => _ end) => case: x => *
      | |- logs _ (let: (_, _) := ?x in _) => case: x => *
      end ].

Lemma select_mesh_with_Sigma mesh_arg broadening l mb l' :
  select_mesh true mesh_arg broadening l = (Ok mb, l') ->
  mb.1 = Sigma_imp_mesh self.
Proof.
rewrite /select_mesh /bind /py_assert /ret /raise.
by case: ifP => // _ [<-].
Qed.

Lemma all_map_false (p : event -> bool) {T} (f : T -> event) (s : seq T) :
  (forall x, p (f x)) -> all p [seq f x | x <- s].
Proof. by move=> H; elim: s => //= x s ->; rewrite H. Qed.

Lemma logs_dos_sweep (p : event -> bool) mu broadening mesh_used with_Sigma
    with_dc proj_type dosocc n slice :
  (forall ik, p (EvLatticeGf ik (Some mesh_used))) ->
  (forall ik ish, p (EvProject ik ish)) ->
  logs p (dos_sweep mu broadening mesh_used with_Sigma with_dc proj_type
            dosocc n slice).
Proof.
move=> H1 H2; apply: logs_for_each => st ik; rewrite /dos_body.
apply: logs_bind; first exact: logs_tell.
move=> _; case: ifP => _; last exact: logs_ret.
apply: logs_bind; last by move=> _; apply: logs_ret.
by apply: logs_tell_all; apply: all_map_false.
Qed.

Lemma logs_dos_corrections (p : event -> bool) proj_type n shells_type G_loc :
  p EvSymmetrize -> (forall ish, p (EvRotate ish)) ->
  logs p (dos_corrections proj_type n shells_type G_loc).
Proof.
move=> H1 H2; rewrite /dos_corrections.
have Hrot: all p [seq EvRotate ish | ish <- iota 0 n] by apply: all_map_false.
by logs_auto.
Qed.

Lemma logs_density_of_states_on_mesh parts rank mu broadening mesh_arg with_dc
    proj_type dosocc :
  logs (on_mesh (Sigma_imp_mesh self))
    (density_of_states parts rank mu broadening mesh_arg true with_dc
       proj_type dosocc).
Proof.
rewrite /density_of_states.
apply: logs_bind; first by logs_auto.
move=> _; apply: logs_bind_res; first exact: logs_select_mesh.
move=> mb l l' /select_mesh_with_Sigma Emb.
apply: logs_bind; first exact: logs_plot_bounds.
move=> mv; apply: logs_bind; first by logs_auto.
move=> _; apply: logs_bind; first by rewrite /dos_setup; logs_auto.
move=> [[n dims] shells_type].
apply: logs_bind.
  by apply: logs_dos_sweep => // ik; rewrite /on_mesh Emb eqxx.
move=> own; apply: logs_bind; first exact: logs_tell.
move=> _; apply: logs_bind; first exact: logs_locals.
move=> workers; apply: logs_bind; first exact: logs_tell.
move=> _; case: ifP => _; last exact: logs_ret.
apply: logs_bind; first exact: logs_tell.
move=> _; apply: logs_bind; first exact: logs_dos_corrections.
by move=> G; apply: logs_ret.
Qed.

Lemma logs_check_shell_list p n_shells0 shell_list :
  logs p (check_shell_list n_shells0 shell_list).
Proof.
elim: shell_list => [|ish rest IH] /=; first exact: logs_ret.
case: n_shells0 IH => [n|] IH; last exact: logs_raise.
by case: ifP => _ //; apply: logs_raise.
Qed.

Lemma logs_akw_setup p proj_type shell_list :
  logs p (akw_setup proj_type shell_list).
Proof.
rewrite /akw_setup; case: ifP => _; last exact: logs_ret.
apply: logs_bind.
  case: shell_list => [sl|].
    apply: logs_bind; first exact: logs_check_shell_list.
    move=> _; apply: logs_bind; last by move=> _; apply: logs_ret.
    by case: ifP => _; [apply: logs_ret | apply: logs_raise].
  by case: (if proj_type == _ then _ else _) => [b|];
     [apply: logs_ret | apply: logs_raise].
case=> n sl; case: ifP => _; first exact: logs_ret.
case: (if proj_type == _ then _ else _) => [b|]; last exact: logs_raise.
by case: ifP => _; [apply: logs_ret | apply: logs_raise].
Qed.

Lemma logs_weaken (p q : event -> bool) {A} (m : M A) :
  (forall e, p e -> q e) -> logs p m -> logs q m.
Proof.
move=> Hpq Hm l; have [es E Hes] := Hm l; exists es => //.
by elim: es Hes {E} => //= e es IH /andP [/Hpq -> /IH].
Qed.

Lemma logs_gen_Akw parts rank mu broadening mesh_used
    plot_shift plot_range shell_list with_Sigma with_dc proj_type :
  logs (akw_event mesh_used)
    (gen_Akw parts rank mu broadening mesh_used plot_shift plot_range
       shell_list with_Sigma with_dc proj_type).
Proof.
rewrite /gen_Akw.
apply: logs_bind; first exact: logs_plot_bounds.
move=> mv; apply: logs_bind; first exact: logs_akw_setup.
move=> loc; apply: logs_bind.
  apply: logs_for_each => st ik; rewrite /akw_body.
  apply: logs_bind; first by apply: logs_tell; rewrite /= eqxx.
  move=> _; case: ifP => _; last exact: logs_ret.
  case: loc => [loc|]; last exact: logs_raise.
  apply: logs_bind; first by apply: logs_tell_all; apply: all_map_false.
  move=> _; apply: logs_bind; last by move=> ?; apply: logs_ret.
  case: ifP => _; last exact: logs_ret.
  apply: logs_bind; last by move=> ?; apply: logs_ret.
  by apply: logs_tell_all; apply: all_map_false.
move=> own; apply: logs_bind; first exact: logs_tell.
move=> _; apply: logs_bind; first exact: logs_locals.
move=> workers; apply: logs_bind; first exact: logs_tell.
move=> _; apply: logs_bind; last first.
  by move=> ?; apply: logs_bind; [apply: logs_tell | move=> _; apply: logs_ret].
case: ifP => _; last exact: logs_ret.
case: loc => [loc|]; last exact: logs_raise.
by apply: logs_bind; [apply: logs_tell | move=> _; apply: logs_ret].
Qed.

Lemma akw_event_on_mesh m m' :
  m = m' -> forall e, akw_event m e -> on_mesh m' e.
Proof. by move=> <-; case. Qed.

Lemma logs_spaghettis_on_mesh parts rank mu broadening mesh_arg plot_shift
    plot_range shell_list with_dc proj_type :
  logs (on_mesh (Sigma_imp_mesh self))
    (spaghettis parts rank mu broadening mesh_arg plot_shift plot_range
       shell_list true with_dc proj_type).
Proof.
rewrite /spaghettis.
apply: logs_bind; first by logs_auto.
move=> _; apply: logs_bind; first exact: logs_read_input.
move=> r; apply: logs_bind; first exact: logs_check_values_read.
move=> _; apply: logs_bind; first by case: ifP => _; logs_auto.
move=> _; apply: logs_bind_res; first exact: logs_select_mesh.
move=> mb l l' /select_mesh_with_Sigma Emb.
apply: logs_bind; first exact: logs_plot_bounds.
by move=> mv; apply: logs_weaken (logs_gen_Akw _ _ _ _ _ _ _ _ _ _ _);
   apply: akw_event_on_mesh Emb.
Qed.

Lemma logs_spectral_contours_on_mesh parts rank mu broadening mesh_arg
    plot_range FS with_dc proj_type :
  logs (on_mesh (Sigma_imp_mesh self))
    (spectral_contours parts rank mu broadening mesh_arg plot_range FS true
       with_dc proj_type).
Proof.
rewrite /spectral_contours.
apply: logs_bind; first by logs_auto.
move=> _; apply: logs_bind; first exact: logs_read_input.
move=> r; apply: logs_bind; first exact: logs_check_values_read.
move=> _; apply: logs_bind_res; first exact: logs_select_mesh.
move=> mb l l' /select_mesh_with_Sigma Emb.
apply: logs_bind; first exact: logs_plot_bounds.
move=> mv; apply: logs_bind.
  case: FS; last exact: logs_ret.
  by case: (mv.1) => [|w0 [|w1 ws]]; [apply: logs_raise..|apply: logs_ret].
by move=> pr; apply: logs_weaken (logs_gen_Akw _ _ _ _ _ _ _ _ _ _ _);
   apply: akw_event_on_mesh Emb.
Qed.

(** C10.  In a call of [density_of_states], [spaghettis] or
    [spectral_contours] with [with_Sigma = True], every provider call is
    made on the mesh of the stored self-energy, and the call, its result
    and its log, is the same whatever mesh the caller supplies; a real
    mesh supplied with [with_Sigma = False] is the one selected. *)
Theorem with_Sigma_uses_self_energy_mesh parts rank mu broadening m1 m2
    plot_shift plot_range shell_list FS with_dc proj_type dosocc l
    w_min w_max n_w :
  (logs (on_mesh (Sigma_imp_mesh self))
     (density_of_states parts rank mu broadening m1 true with_dc proj_type
        dosocc)
   /\ logs (on_mesh (Sigma_imp_mesh self))
        (spaghettis parts rank mu broadening m1 plot_shift plot_range
           shell_list true with_dc proj_type)
   /\ logs (on_mesh (Sigma_imp_mesh self))
        (spectral_contours parts rank mu broadening m1 plot_range FS true
           with_dc proj_type))
  /\ (density_of_states parts rank mu broadening m1 true with_dc proj_type
        dosocc l
      = density_of_states parts rank mu broadening m2 true with_dc proj_type
          dosocc l
      /\ spaghettis parts rank mu broadening m1 plot_shift plot_range
           shell_list true with_dc proj_type l
         = spaghettis parts rank mu broadening m2 plot_shift plot_range
             shell_list true with_dc proj_type l
      /\ spectral_contours parts rank mu broadening m1 plot_range FS true
           with_dc proj_type l
         = spectral_contours parts rank mu broadening m2 plot_range FS true
             with_dc proj_type l)
  /\ select_mesh false (Some (MeshReFreq w_min w_max n_w)) broadening l
     = (Ok (MeshReFreq w_min w_max n_w,
            if broadening is None then Some broadening_default else broadening),
        l).
Proof.
split; first split; [|split|].
- exact: logs_density_of_states_on_mesh.
- exact: logs_spaghettis_on_mesh.
- exact: logs_spectral_contours_on_mesh.
split; last by [].
by split; [|split].
Qed.

(** *** The order of the corrections *)













(** *** Further facts about the checks *)

(** The identity is unitary. *)
Lemma unitary_identity d : unitary d (fun i j => (i == j)%:R).
Proof.
move=> i j Hi Hj.
rewrite (eq_bigr (fun a => ((j == a)%:R)^* * (a == i)%:R)).
  by move=> a _; rewrite mulrC [i == a]eq_sym.
have /= -> := sum_delta (fun a => ((j == a)%:R)^* : C) Hi.
by rewrite conjC_nat eq_sym.
Qed.

(** The shell indices that the check of [gen_Akw] lets pass are those from
    0 to [n_shells], [n_shells] included. *)
Lemma check_shell_list_accepts n shell_list l :
  check_shell_list (Some n) shell_list l
  = if all (fun ish => Z.leb 0 ish && Z.leb ish (Z.of_nat n)) shell_list
    then (Ok tt, l)
    else (Raise (IOError
            "indices in shell_list input do not correspond to existing self.shells indices"),
          l).
Proof.
elim: shell_list => [|ish rest IH] //=.
rewrite Z.gtb_ltb; have -> : Z.ltb ish 0 = ~~ Z.leb 0 ish.
  exact: Z.ltb_antisym.
have -> : Z.ltb (Z.of_nat n) ish = ~~ Z.leb ish (Z.of_nat n).
  exact: Z.ltb_antisym.
by case: (Z.leb 0 ish); case: (Z.leb ish (Z.of_nat n)).
Qed.

(** The scheme tag of [density_of_states] and of [spaghettis]: a tag
    outside the enumeration of the entry point, or a backend scheme other
    than the backend of the data, raises the assertion and logs nothing;
    'wann' passes for every backend. *)
Lemma density_of_states_rejects_tag parts rank mu broadening mesh_arg
    with_Sigma with_dc p dosocc l :
  ~~ ((p \in [:: "wann"; "vasp"; "wien2k"]%string)
      && ((p == "wann"%string) || (p == dft_code self))) ->
  exists msg,
    density_of_states parts rank mu broadening mesh_arg with_Sigma with_dc
      (Some p) dosocc l
    = (Raise (AssertionError msg), l).
Proof.
rewrite /density_of_states /bind /py_assert.
case: (p \in _) => /=; last by exists "'proj_type' must be either 'wann', 'vasp', 'wien2k'"%string.
case: (p == "wann"%string) => //=; case: (p == dft_code self) => //= _.
by exists "proj_type must be from the corresponding dft inputs."%string.
Qed.

Lemma spaghettis_rejects_tag parts rank mu broadening mesh_arg plot_shift
    plot_range shell_list with_Sigma with_dc p l :
  ~~ ((p \in [:: "wann"; "wien2k"]%string)
      && ((p == "wann"%string) || (p == dft_code self))) ->
  exists msg,
    spaghettis parts rank mu broadening mesh_arg plot_shift plot_range
      shell_list with_Sigma with_dc (Some p) l
    = (Raise (AssertionError msg), l).
Proof.
rewrite /spaghettis /bind /py_assert.
case: (p \in _) => /=; last by exists "'proj_type' must be either 'wann', 'wien2k'"%string.
case: (p == "wann"%string) => //=; case: (p == dft_code self) => //= _.
by exists "proj_type must be from the corresponding dft inputs."%string.
Qed.

(** [spectral_contours] refuses exactly the tags that are not substrings
    of 'wann'. *)
Lemma spectral_contours_rejects_tag parts rank mu broadening mesh_arg
    plot_range FS with_Sigma with_dc p l :
  ~~ py_str_in p "wann" ->
  spectral_contours parts rank mu broadening mesh_arg plot_range FS
    with_Sigma with_dc (Some p) l
  = (Raise (AssertionError "'proj_type' must be 'wann' if not None"), l).
Proof. by rewrite /spectral_contours /bind /py_assert => /negbTE ->. Qed.

(** A read that reports absent items makes the statement after it raise,
    with [self.values_not_read] as the items of the exception. *)
Lemma check_values_read_raises not_read l :
  (0 < size not_read)%N ->
  check_values_read not_read l
  = (Raise (ValueError
       "ERROR: One or more necessary SumK input properties have not been found in the given h5 archive:"
       (values_not_read self)), l).
Proof. by rewrite /check_values_read => ->. Qed.

(** *** What the entry points never do *)

Lemma select_mesh_real with_Sigma mesh_arg broadening l mb l' :
  select_mesh with_Sigma mesh_arg broadening l = (Ok mb, l') ->
  isinstance_MeshReFreq mb.1.
Proof.
rewrite /select_mesh /bind /py_assert /ret /raise.
case: with_Sigma; first by case: ifP => // H [<-].
case: mesh_arg => [m|]; first by case: ifP => // H [<-].
by case: (mesh self) => [m|] //; case: ifP => // H [<-].
Qed.

Lemma akw_event_on_real_mesh m :
  isinstance_MeshReFreq m -> forall e, akw_event m e -> on_real_mesh e.
Proof. by move=> Hm [] //= ik m' /eqP ->. Qed.

(** X1.  Whatever the arguments, every lattice Green's function that
    [density_of_states], [spaghettis] and [spectral_contours] ask the
    provider for is asked on a real-frequency mesh: a Matsubara mesh, from
    the self-energy, from the caller or from the object, stops the call at
    the assertion before the sweep. *)
Theorem provider_called_on_real_mesh_only parts rank mu broadening mesh_arg
    plot_shift plot_range shell_list FS with_Sigma with_dc proj_type dosocc :
  logs on_real_mesh
    (density_of_states parts rank mu broadening mesh_arg with_Sigma with_dc
       proj_type dosocc)
  /\ logs on_real_mesh
       (spaghettis parts rank mu broadening mesh_arg plot_shift plot_range
          shell_list with_Sigma with_dc proj_type)
  /\ logs on_real_mesh
       (spectral_contours parts rank mu broadening mesh_arg plot_range FS
          with_Sigma with_dc proj_type).
Proof.
split; [|split].
- rewrite /density_of_states.
  apply: logs_bind; first by logs_auto.
  move=> _; apply: logs_bind_res; first exact: logs_select_mesh.
  move=> mb l l' /select_mesh_real Hmb.
  apply: logs_bind; first exact: logs_plot_bounds.
  move=> mv; apply: logs_bind; first by logs_auto.
  move=> _; apply: logs_bind; first by rewrite /dos_setup; logs_auto.
  move=> [[n dims] shells_type].
  apply: logs_bind; first exact: logs_dos_sweep.
  move=> own; apply: logs_bind; first exact: logs_tell.
  move=> _; apply: logs_bind; first exact: logs_locals.
  move=> workers; apply: logs_bind; first exact: logs_tell.
  move=> _; case: ifP => _; last exact: logs_ret.
  apply: logs_bind; first exact: logs_tell.
  move=> _; apply: logs_bind; first exact: logs_dos_corrections.
  by move=> G; apply: logs_ret.
- rewrite /spaghettis.
  apply: logs_bind; first by logs_auto.
  move=> _; apply: logs_bind; first exact: logs_read_input.
  move=> r; apply: logs_bind; first exact: logs_check_values_read.
  move=> _; apply: logs_bind; first by case: ifP => _; logs_auto.
  move=> _; apply: logs_bind_res; first exact: logs_select_mesh.
  move=> mb l l' /select_mesh_real Hmb.
  apply: logs_bind; first exact: logs_plot_bounds.
  by move=> mv; apply: logs_weaken (logs_gen_Akw _ _ _ _ _ _ _ _ _ _ _);
     apply: akw_event_on_real_mesh.
rewrite /spectral_contours.
apply: logs_bind; first by logs_auto.
move=> _; apply: logs_bind; first exact: logs_read_input.
move=> r; apply: logs_bind; first exact: logs_check_values_read.
move=> _; apply: logs_bind_res; first exact: logs_select_mesh.
move=> mb l l' /select_mesh_real Hmb.
apply: logs_bind; first exact: logs_plot_bounds.
move=> mv; apply: logs_bind.
  case: FS; last exact: logs_ret.
  by case: (mv.1) => [|w0 [|w1 ws]]; [apply: logs_raise..|apply: logs_ret].
by move=> pr; apply: logs_weaken (logs_gen_Akw _ _ _ _ _ _ _ _ _ _ _);
   apply: akw_event_on_real_mesh.
Qed.

Lemma dos_corrections_vasp n shells_type G_loc l :
  dos_corrections (Some "vasp"%string) n shells_type G_loc l = (Ok G_loc, l).
Proof. by []. Qed.

(** X2.  [density_of_states] with the 'vasp' projection never corrects the
    local Green's function: no symmetrization and no rotation is applied,
    whatever the symmetry and rotation settings of the object. *)
Theorem vasp_projection_is_never_corrected parts rank mu broadening mesh_arg
    with_Sigma with_dc dosocc :
  logs (fun e => ~~ is_correction e)
    (density_of_states parts rank mu broadening mesh_arg with_Sigma with_dc
       (Some "vasp"%string) dosocc).
Proof.
rewrite /density_of_states.
apply: logs_bind; first by logs_auto.
move=> _; apply: logs_bind; first exact: logs_select_mesh.
move=> mb; apply: logs_bind; first exact: logs_plot_bounds.
move=> mv; apply: logs_bind; first by logs_auto.
move=> _; apply: logs_bind; first by rewrite /dos_setup; logs_auto.
move=> [[n dims] shells_type].
apply: logs_bind; first exact: logs_dos_sweep.
move=> own; apply: logs_bind; first exact: logs_tell.
move=> _; apply: logs_bind; first exact: logs_locals.
move=> workers; apply: logs_bind; first exact: logs_tell.
move=> _ /=; apply: logs_bind; first exact: logs_tell.
move=> _; apply: logs_bind; last by move=> G; apply: logs_ret.
by move=> l; exists [::]; rewrite // dos_corrections_vasp cats0.
Qed.

Lemma logs_akw_sweep_None (p : event -> bool) mu broadening mesh_used
    plot_shift window with_Sigma with_dc loc slice :
  (forall ik, p (EvLatticeGf ik (Some mesh_used))) ->
  logs p (akw_sweep mu broadening mesh_used plot_shift window with_Sigma
            with_dc None loc slice).
Proof.
move=> Hp; apply: logs_for_each => st ik; rewrite /akw_body /=.
by apply: logs_bind; [apply: logs_tell | move=> _; apply: logs_ret].
Qed.

Lemma logs_gen_Akw_None parts rank mu broadening mesh_used plot_shift
    plot_range shell_list with_Sigma with_dc :
  logs (fun e => ~~ is_projection_work e)
    (gen_Akw parts rank mu broadening mesh_used plot_shift plot_range
       shell_list with_Sigma with_dc None).
Proof.
rewrite /gen_Akw.
apply: logs_bind; first exact: logs_plot_bounds.
move=> mv; apply: logs_bind; first exact: logs_akw_setup.
move=> loc; apply: logs_bind; first exact: logs_akw_sweep_None.
move=> own; apply: logs_bind; first exact: logs_tell.
move=> _; apply: logs_bind; first exact: logs_locals.
move=> workers; apply: logs_bind; first exact: logs_tell.
move=> _ /=; apply: logs_bind; first exact: logs_ret.
by move=> ?; apply: logs_bind; [apply: logs_tell | move=> _; apply: logs_ret].
Qed.

(** X3.  Without a projection scheme ([proj_type = None]) the three entry
    points do no work on projected quantities: no projection, no reduction
    of [G_loc] or [pAkw_orb], no symmetrization and no rotation, whatever
    the settings of the object. *)
Theorem no_scheme_no_projection_work parts rank mu broadening mesh_arg
    plot_shift plot_range shell_list FS with_Sigma with_dc dosocc :
  logs (fun e => ~~ is_projection_work e)
    (density_of_states parts rank mu broadening mesh_arg with_Sigma with_dc
       None dosocc)
  /\ logs (fun e => ~~ is_projection_work e)
       (spaghettis parts rank mu broadening mesh_arg plot_shift plot_range
          shell_list with_Sigma with_dc None)
  /\ logs (fun e => ~~ is_projection_work e)
       (spectral_contours parts rank mu broadening mesh_arg plot_range FS
          with_Sigma with_dc None).
Proof.
split; [|split].
- rewrite /density_of_states.
  apply: logs_bind; first exact: logs_ret.
  move=> _; apply: logs_bind; first exact: logs_select_mesh.
  move=> mb; apply: logs_bind; first exact: logs_plot_bounds.
  move=> mv; apply: logs_bind; first by logs_auto.
  move=> _; apply: logs_bind; first exact: logs_ret.
  move=> [[n dims] shells_type].
  apply: logs_bind.
    apply: logs_for_each => st ik; rewrite /dos_body /=.
    by apply: logs_bind; [apply: logs_tell | move=> _; apply: logs_ret].
  move=> own; apply: logs_bind; first exact: logs_tell.
  move=> _; apply: logs_bind; first exact: logs_locals.
  move=> workers; apply: logs_bind; first exact: logs_tell.
  by move=> _ /=; apply: logs_ret.
- rewrite /spaghettis.
  apply: logs_bind; first exact: logs_ret.
  move=> _; apply: logs_bind; first exact: logs_read_input.
  move=> r; apply: logs_bind; first exact: logs_check_values_read.
  move=> _; apply: logs_bind; first exact: logs_ret.
  move=> _; apply: logs_bind; first exact: logs_select_mesh.
  move=> mb; apply: logs_bind; first exact: logs_plot_bounds.
  by move=> mv; apply: logs_gen_Akw_None.
rewrite /spectral_contours.
apply: logs_bind; first exact: logs_ret.
move=> _; apply: logs_bind; first exact: logs_read_input.
move=> r; apply: logs_bind; first exact: logs_check_values_read.
move=> _; apply: logs_bind; first exact: logs_select_mesh.
move=> mb; apply: logs_bind; first exact: logs_plot_bounds.
move=> mv; apply: logs_bind.
  case: FS; last exact: logs_ret.
  by case: (mv.1) => [|w0 [|w1 ws]]; [apply: logs_raise..|apply: logs_ret].
by move=> pr; apply: logs_gen_Akw_None.
Qed.

(** *** The projected DOS and its orbital resolution *)

Lemma dos_setup_dims proj_type l n dims shells_type l' :
  dos_setup proj_type l = (Ok (n, dims, shells_type), l') ->
  dims = dos_dims proj_type.
Proof.
rewrite /dos_setup /dos_dims.
case: (proj_type == Some "wann"%string); first by case.
case: (proj_type == Some "vasp"%string); first by case.
case: (proj_type == Some "wien2k"%string); last by case.
by move=> H; have [u [l1 [_]]] := bind_Ok H; case.
Qed.

(** What [density_of_states] returns as [DOSproj] and [DOSproj_orb]: both
    are read off one and the same Green's function of the shells. *)
Lemma density_of_states_projected parts rank mu broadening mesh_arg
    with_Sigma with_dc proj_type dosocc DOS DOSproj DOSproj_orb :
  result (density_of_states parts rank mu broadening mesh_arg with_Sigma
            with_dc proj_type dosocc)
    = Ok (DOS, DOSproj, DOSproj_orb) ->
  (DOSproj = (fun _ _ _ => 0) /\ DOSproj_orb = (fun _ _ _ _ _ => 0))
  \/ exists n G_loc,
       DOSproj
       = (fun ish bname iom =>
            if (ish < n)%N && (bname \in spn)
            then DOSproj_of (dos_dims proj_type) G_loc ish bname iom else 0)
       /\ DOSproj_orb
          = (fun ish bname iom =>
               if (ish < n)%N && (bname \in spn)
               then DOSproj_orb_of G_loc ish bname iom else fun _ _ => 0).
Proof.
rewrite /result /density_of_states.
case E: (bind _ _ _) => [r l] /= Hr; move: E; rewrite {}Hr.
move=> H; have [u [l1 [_ {}H]]] := bind_Ok H.
have [mb [l2 [_ {}H]]] := bind_Ok H.
have [mv [l2' [_ {}H]]] := bind_Ok H.
have [{}u [l3 [_ {}H]]] := bind_Ok H.
have [[[n_sh dims] shells_type] [l4 [Hsu {}H]]] := bind_Ok H.
have [own [l5 [_ {}H]]] := bind_Ok H.
have [{}u [l6 [_ {}H]]] := bind_Ok H.
have [workers [l7 [_ {}H]]] := bind_Ok H.
have [{}u [l8 [_ {}H]]] := bind_Ok H.
case: (proj_type != None) H => H; last by left; case: H => _ <- <-.
have [{}u [l9 [_ {}H]]] := bind_Ok H.
have [G_loc [l10 [_ {}H]]] := bind_Ok H.
right; exists n_sh, G_loc; rewrite -(dos_setup_dims Hsu).
by case: H => _ <- <-.
Qed.

Lemma DOSproj_orb_diag G_loc ish bname iom i :
  DOSproj_orb_of G_loc ish bname iom i i
  = - 'Im (G_loc ish bname iom i i) / pi.
Proof.
rewrite /DOSproj_orb_of add0r ImE; congr (_ / _).
by rewrite -mulNr -mulrN opprB.
Qed.

(** X4.  In what [density_of_states] returns, the projected DOS of a shell
    is the trace of its orbital-resolved projected DOS, for every shell,
    spin block and frequency, under every projection. *)
Theorem DOSproj_is_trace_of_DOSproj_orb parts rank mu broadening mesh_arg
    with_Sigma with_dc proj_type dosocc DOS DOSproj DOSproj_orb
    ish bname iom :
  result (density_of_states parts rank mu broadening mesh_arg with_Sigma
            with_dc proj_type dosocc)
    = Ok (DOS, DOSproj, DOSproj_orb) ->
  tr (dos_dims proj_type ish) (DOSproj_orb ish bname iom)
  = DOSproj ish bname iom.
Proof.
move/density_of_states_projected => [[-> ->]|[n [G_loc [-> ->]]]].
  by rewrite /tr big1.
case: ifP => _; last by rewrite /tr big1.
rewrite /tr /DOSproj_of /imag_trace -sumrN mulr_suml.
by apply: eq_bigr => i _; rewrite DOSproj_orb_diag.
Qed.

(** X5.  When the constant pi is real, the orbital-resolved projected DOS
    that [density_of_states] returns is a Hermitian matrix at every
    frequency. *)
Theorem DOSproj_orb_is_Hermitian parts rank mu broadening mesh_arg
    with_Sigma with_dc proj_type dosocc DOS DOSproj DOSproj_orb
    ish bname iom i j :
  pi \is Num.real ->
  result (density_of_states parts rank mu broadening mesh_arg with_Sigma
            with_dc proj_type dosocc)
    = Ok (DOS, DOSproj, DOSproj_orb) ->
  (DOSproj_orb ish bname iom j i)^* = DOSproj_orb ish bname iom i j.
Proof.
move=> Hpi /density_of_states_projected [[_ ->]|[n [G_loc [_ ->]]]].
  by rewrite rmorph0.
case: ifP => _; last by rewrite rmorph0.
rewrite /DOSproj_orb_of !add0r !rmorphM /= !fmorphV /= rmorphB /= conjCK.
rewrite conjCi (CrealP Hpi) conjC_nat; congr (_ / _ / _).
by rewrite mulNr -mulrN opprB.
Qed.

(** *** The k-resolved spectral function *)

Lemma plot_bounds_log m l :
  plot_bounds m l = (result (plot_bounds m), l).
Proof.
rewrite /result /plot_bounds /mesh_val_of /bind /ret /raise.
by case: m => [w_min w_max [|n]|beta n_iw].
Qed.

Lemma for_each_Ok {S} (body : S -> nat -> M S) x xs s l s' l' :
  for_each (x :: xs) body s l = (Ok s', l') ->
  exists s1 l1, body s x l = (Ok s1, l1) /\ for_each xs body s1 l1 = (Ok s', l').
Proof. exact: bind_Ok. Qed.

(** What the workers hold after their sweeps, summed over the workers. *)
Lemma locals_sum {S} (sweep : seq nat -> M S) (F : S -> C) (f : seq nat -> C)
    parts l ws l' :
  (forall s st l1, sweep s [::] = (Ok st, l1) -> F st = f s) ->
  locals sweep parts l = (Ok ws, l') ->
  \sum_(w <- ws) F w = \sum_(s <- parts) f s.
Proof.
move=> Hf; elim: parts ws l l' => [|s parts IH] ws l l' /=.
  by case=> <- _; rewrite !big_nil.
case E: (sweep s [::]) => [[v|e] l1] //= H.
have [vs [l2 [Hvs]]] := bind_Ok H; case=> <- _.
by rewrite !big_cons (Hf _ _ _ E) (IH _ _ _ Hvs).
Qed.

(** A term that only the worker whose slice holds [ik] contributes is
    counted once in a sum over the slices of a disjoint cover. *)
Lemma sum_over_owner (parts : seq (seq nat)) (n ik : nat) (x : C) :
  perm_eq (flatten parts) (iota 0 n) -> (ik < n)%N ->
  \sum_(s <- parts) (if ik \in s then x else 0) = x.
Proof.
move=> Hp Hik.
have Hu : uniq (flatten parts) by rewrite (perm_uniq Hp) iota_uniq.
have Hin : ik \in flatten parts by rewrite (perm_mem Hp) mem_iota add0n.
elim: parts Hu Hin {Hp} => [|s parts IH] //=.
rewrite cat_uniq mem_cat big_cons => /and3P[_ /hasPn Hd Hu].
case: ifP => [Hs _|_ /= Hin]; last by rewrite add0r IH.
rewrite big1_seq ?addr0 // => s' /andP[_ Hs'].
case: ifP => // Hiks'.
have /Hd /= : ik \in flatten parts by apply/flattenP; exists s'.
by rewrite Hs.
Qed.

(** The total spectral function of the k-point that a pass of the sweep of
    [gen_Akw] writes, and of the k-points it leaves alone. *)
Lemma akw_body_Akw mu broadening mesh_used plot_shift window with_Sigma
    with_dc proj_type loc st ik l st' l' bname ik' iom :
  akw_body mu broadening mesh_used plot_shift window with_Sigma with_dc
    proj_type loc st ik l = (Ok st', l') ->
  akw_Akw st' bname ik' iom
  = if (bname \in spn) && (ik' == ik) then
      - imag_trace (n_orbitals self ik bname)
          (lattice_gf self ik mu broadening (Some mesh_used) with_Sigma
             with_dc bname (nth 0%N window iom)) / pi
      + ik%:R * plot_shift
    else akw_Akw st bname ik' iom.
Proof.
rewrite /akw_body /bind /tell /tell_all /ret /raise.
have E : forall a,
    for_keys spn
      (fun bname a => fun ik' =>
         if ik' == ik then
           fun iom =>
             - imag_trace (n_orbitals self ik bname)
                 (lattice_gf self ik mu broadening (Some mesh_used)
                    with_Sigma with_dc bname (nth 0%N window iom)) / pi
             + ik%:R * plot_shift
         else a ik') a bname ik' iom
    = if (bname \in spn) && (ik' == ik) then
        - imag_trace (n_orbitals self ik bname)
            (lattice_gf self ik mu broadening (Some mesh_used) with_Sigma
               with_dc bname (nth 0%N window iom)) / pi
        + ik%:R * plot_shift
      else a bname ik' iom.
  by move=> a; rewrite /for_keys; case: (bname \in spn) => //=; case: eqP.
case: (proj_type != None); last by case=> <- _ /=; rewrite E.
case: loc => [loc|] //; case: (use_rotations self) => /=.
  by case=> <- _ /=; rewrite E.
by case=> <- _ /=; rewrite E.
Qed.

Lemma akw_sweep_Akw mu broadening mesh_used plot_shift window with_Sigma
    with_dc proj_type loc slice st l st' l' bname ik iom :
  for_each slice
    (akw_body mu broadening mesh_used plot_shift window with_Sigma with_dc
       proj_type loc) st l = (Ok st', l') ->
  akw_Akw st' bname ik iom
  = if (bname \in spn) && (ik \in slice) then
      - imag_trace (n_orbitals self ik bname)
          (lattice_gf self ik mu broadening (Some mesh_used) with_Sigma
             with_dc bname (nth 0%N window iom)) / pi
      + ik%:R * plot_shift
    else akw_Akw st bname ik iom.
Proof.
elim: slice st l => [|k ks IH] st l.
  by case=> <- _; rewrite andbF.
move=> H; have [s1 [l1 [Hb {}H]]] := for_each_Ok H.
rewrite (IH _ _ H).
rewrite (akw_body_Akw bname ik iom Hb) in_cons.
case: (bname \in spn) => //=.
by case: (ik \in ks); rewrite ?orbT ?orbF //; case: eqP => // ->.
Qed.

(** The total spectral function that [gen_Akw] returns, from whatever log
    the call starts. *)
Lemma gen_Akw_Akw parts rank mu broadening mesh_used plot_shift plot_range
    shell_list with_Sigma with_dc proj_type l Akw pAkw pAkw_orb l'
    bname ik iom :
  perm_eq (flatten parts) (iota 0 (n_k self)) ->
  gen_Akw parts rank mu broadening mesh_used plot_shift plot_range
    shell_list with_Sigma with_dc proj_type l
    = (Ok (Akw, pAkw, pAkw_orb), l') ->
  bname \in spn -> (ik < n_k self)%N ->
  Akw bname ik iom
  = - imag_trace (n_orbitals self ik bname)
        (lattice_gf self ik mu broadening (Some mesh_used) with_Sigma with_dc
           bname (nth 0%N (akw_window mesh_used plot_range) iom)) / pi
    + ik%:R * plot_shift.
Proof.
move=> Hperm; rewrite /gen_Akw.
move=> H; have [mv [l1 [Hmv {}H]]] := bind_Ok H.
have [loc [l2 [_ {}H]]] := bind_Ok H.
have [own [l3 [_ {}H]]] := bind_Ok H.
have [u [l4 [_ {}H]]] := bind_Ok H.
have [workers [l5 [Hw {}H]]] := bind_Ok H.
have [{}u [l6 [_ {}H]]] := bind_Ok H.
have [projected [l7 [_ {}H]]] := bind_Ok H.
have [{}u [l8 [_ {}H]]] := bind_Ok H.
case: H => <- _ _ _ Hb Hik; rewrite /for_keys Hb.
have -> : akw_window mesh_used plot_range
          = window_of mv.1 (if plot_range is Some pr then pr.1 else mv.2.1)
              (if plot_range is Some pr then pr.2 else mv.2.2).
  by move: Hmv; rewrite /akw_window plot_bounds_log /result => -[-> _].
set window := window_of _ _ _ in Hw *.
set F := - _ / pi + _.
rewrite (locals_sum (F := fun w => akw_Akw w bname ik iom)
           (f := fun s => if ik \in s then F else 0) _ Hw).
  by move=> s st l0 Hs; rewrite (akw_sweep_Akw bname ik iom Hs) Hb.
exact: (sum_over_owner F Hperm Hik).
Qed.

(** X6.  For every partition of the k-range into disjoint covering slices,
    the total spectral function that [gen_Akw] returns holds, for every
    k-point, spin block and frequency of the window, minus one over pi
    times the imaginary part of the trace of the lattice Green's function
    of that k-point, plus the stacking offset [ik * plot_shift]: every
    k-point is counted exactly once, whatever the number of workers and
    the projection.  The column [iom] is the mesh point
    [nth 0 (akw_window mesh_used plot_range) iom]: the window is the one
    that the comparisons of the code select in binary64. *)
Theorem Akw_counts_every_k_point_once parts rank mu broadening mesh_used
    plot_shift plot_range shell_list with_Sigma with_dc proj_type
    Akw pAkw pAkw_orb bname ik iom :
  perm_eq (flatten parts) (iota 0 (n_k self)) ->
  result (gen_Akw parts rank mu broadening mesh_used plot_shift plot_range
            shell_list with_Sigma with_dc proj_type)
    = Ok (Akw, pAkw, pAkw_orb) ->
  bname \in spn -> (ik < n_k self)%N ->
  (iom < size (akw_window mesh_used plot_range))%N ->
  Akw bname ik iom
  = - imag_trace (n_orbitals self ik bname)
        (lattice_gf self ik mu broadening (Some mesh_used) with_Sigma with_dc
           bname (nth 0%N (akw_window mesh_used plot_range) iom)) / pi
    + ik%:R * plot_shift.
Proof.
move=> Hperm; rewrite /result.
case E: (gen_Akw _ _ _ _ _ _ _ _ _ _ _ _) => [r l] /= Hr Hb Hik _.
by rewrite Hr in E; exact: (gen_Akw_Akw iom Hperm E Hb Hik).
Qed.

(** *** occupations *)

(** X7.  In a run of a single worker [occupations] returns, for every spin
    block, a list of one array per k-point that holds, for every k-point,
    the real part of the density of the lattice Green's function of that
    k-point, taken at the chemical potential of the call. *)
Theorem occupations_serial_run parts rank mu with_Sigma with_dc occ
    sp ik i j :
  size parts = 1%N ->
  result (occupations parts rank mu with_Sigma with_dc) = Ok occ ->
  sp \in spn -> (ik < n_k self)%N ->
  size (occ sp) = n_k self
  /\ nth (fun _ _ => 0) (occ sp) ik i j
     = 'Re (density
              (lattice_gf self ik
                 (Some (if mu is Some x then x else chemical_potential self))
                 None None with_Sigma with_dc sp) i j).
Proof.
move=> Hone Hocc Hsp Hik.
rewrite (occupations_counts_every_worker Hocc Hsp) Hone /= cats0.
rewrite size_map size_iota; split=> //.
by rewrite (nth_map 0%N) ?size_iota // nth_iota.
Qed.

Lemma mesh_kinds_exclusive m :
  isinstance_MeshImFreq m -> isinstance_MeshReFreq m = false.
Proof. by case: m. Qed.

(** X8.  On one and the same object, [occupations] and
    [density_of_states] cannot both succeed with the self-energy
    ([with_Sigma = True]): the former wants the mesh of the self-energy to
    be a Matsubara mesh, the latter wants it to be a real-frequency mesh. *)
Theorem occupations_and_dos_disagree_on_the_mesh parts rank mu with_dc
    parts' rank' mu' broadening mesh_arg with_dc' proj_type dosocc :
  succeeded (result (occupations parts rank mu true with_dc)) ->
  ~~ succeeded
       (result (density_of_states parts' rank' mu' broadening mesh_arg true
                  with_dc' proj_type dosocc)).
Proof.
have Himag : succeeded (result (occupations parts rank mu true with_dc)) ->
             isinstance_MeshImFreq (Sigma_imp_mesh self).
  by rewrite /result /occupations /bind /py_assert; case: ifP.
move/Himag/mesh_kinds_exclusive => Hre.
rewrite /result; case E: (density_of_states _ _ _ _ _ _ _ _ _ _) => [[r|e] l] //=.
move: E; rewrite /density_of_states => H.
have [u [l1 [_ {}H]]] := bind_Ok H.
have [mb [l2 [Hmb _]]] := bind_Ok H.
by move: (select_mesh_real Hmb); rewrite (select_mesh_with_Sigma Hmb) Hre.
Qed.

(** *** The checks of the arguments *)

(** X9.  A scheme tag that the entry point does not list, or a backend
    scheme other than the backend of the data, makes [density_of_states]
    and [spaghettis] raise an assertion at once: nothing is read and the
    provider is not called.  [density_of_states] lists 'wann', 'vasp' and
    'wien2k', [spaghettis] lists 'wann' and 'wien2k'; 'wann' passes for
    every backend. *)
Theorem wrong_scheme_tag_fails_first parts rank mu broadening mesh_arg
    plot_shift plot_range shell_list with_Sigma with_dc dosocc p l :
  (~~ ((p \in [:: "wann"; "vasp"; "wien2k"]%string)
       && ((p == "wann"%string) || (p == dft_code self))) ->
   exists msg,
     density_of_states parts rank mu broadening mesh_arg with_Sigma with_dc
       (Some p) dosocc l
     = (Raise (AssertionError msg), l))
  /\ (~~ ((p \in [:: "wann"; "wien2k"]%string)
          && ((p == "wann"%string) || (p == dft_code self))) ->
      exists msg,
        spaghettis parts rank mu broadening mesh_arg plot_shift plot_range
          shell_list with_Sigma with_dc (Some p) l
        = (Raise (AssertionError msg), l)).
Proof.
split; first exact: density_of_states_rejects_tag.
exact: spaghettis_rejects_tag.
Qed.

(** X10.  [gen_Akw] with a projection and a shell list that holds a
    negative index, or an index above the number of shells of the
    projection, raises [IOError] before the sweep: the provider is not
    called and nothing is logged. *)
Theorem shell_list_out_of_range_fails_before_sweep parts rank mu broadening
    mesh_used plot_shift plot_range sl with_Sigma with_dc proj_type n mv l :
  result (plot_bounds mesh_used) = Ok mv ->
  (proj_type = Some "wann"%string /\ n = n_corr_shells self)
  \/ (proj_type = Some "wien2k"%string /\ n = n_shells self) ->
  has (fun ish => Z.ltb ish 0 || Z.gtb ish (Z.of_nat n)) sl ->
  exists msg,
    gen_Akw parts rank mu broadening mesh_used plot_shift plot_range
      (Some sl) with_Sigma with_dc proj_type l
    = (Raise (IOError msg), l).
Proof.
move=> Hmv Hpt Hbad; eexists.
have Hchk : check_shell_list (Some n) sl l
            = (Raise (IOError
                 "indices in shell_list input do not correspond to existing self.shells indices"),
               l).
  elim: sl Hbad => [|ish rest IH] //=; rewrite [Z.ltb ish 0 || _]orbC.
  by case: (Z.gtb ish _ || Z.ltb ish 0).
rewrite /gen_Akw {1}/bind plot_bounds_log Hmv /akw_setup.
by case: Hpt Hchk => -[-> ->] Hchk /=; rewrite {1}/bind {1}/bind {1}/bind Hchk.
Qed.

(** X11.  What [spaghettis] returns as the total spectral function, for
    every partition of the k-range into disjoint covering slices: the
    lattice Green's function is asked at the chemical potential of the
    object when the caller gives none, on the mesh and with the broadening
    that the mesh selection yields, and every k-point carries its stacking
    offset [ik * plot_shift] once.  The column [iom] is the mesh point
    that the window of the plot range, selected in binary64, has at
    position [iom]. *)
Theorem spaghettis_total_spectral_function parts rank mu broadening mesh_arg
    plot_shift plot_range shell_list with_Sigma with_dc proj_type
    mesh_used broadening_used Akw pAkw pAkw_orb bname ik iom :
  perm_eq (flatten parts) (iota 0 (n_k self)) ->
  result (select_mesh with_Sigma mesh_arg broadening)
    = Ok (mesh_used, broadening_used) ->
  result (spaghettis parts rank mu broadening mesh_arg plot_shift plot_range
            shell_list with_Sigma with_dc proj_type)
    = Ok (Akw, pAkw, pAkw_orb) ->
  bname \in spn -> (ik < n_k self)%N ->
  (iom < size (akw_window mesh_used plot_range))%N ->
  Akw bname ik iom
  = - imag_trace (n_orbitals self ik bname)
        (lattice_gf self ik
           (Some (if mu is Some x then x else chemical_potential self))
           broadening_used (Some mesh_used) with_Sigma with_dc bname
           (nth 0%N (akw_window mesh_used plot_range) iom)) / pi
    + ik%:R * plot_shift.
Proof.
move=> Hperm Hmesh; rewrite /result /spaghettis.
case E: (bind _ _ _) => [r l] /= Hr; move: E; rewrite {}Hr.
move=> H; have [u [l1 [_ {}H]]] := bind_Ok H.
have [rd [l2 [_ {}H]]] := bind_Ok H.
have [{}u [l3 [_ {}H]]] := bind_Ok H.
have [{}u [l4 [_ {}H]]] := bind_Ok H.
have [mb [l5 [Hmb {}H]]] := bind_Ok H.
move: Hmb; rewrite select_mesh_log Hmesh => -[Emb _]; rewrite -{}Emb /= in H.
have [mv [l6 [_ {}H]]] := bind_Ok H.
by move=> Hb Hik _; exact: (gen_Akw_Akw iom Hperm H Hb Hik).
Qed.

(** X12.  What [spectral_contours] returns as the total spectral function,
    for every partition of the k-range into disjoint covering slices:
    minus one over pi times the imaginary part of the trace of the lattice
    Green's function of the k-point, with no stacking offset, on the
    window of the plot range; in the Fermi-surface mode that range is
    [-2*dw, 2*dw] for the spacing [dw] of the first two mesh points and the
    range of the caller is not looked at.  The window is selected in
    binary64: where a bound sits on a mesh point, the rounding of the mesh
    point decides whether it is kept. *)
Theorem spectral_contours_total_spectral_function parts rank mu broadening
    mesh_arg plot_range FS with_Sigma with_dc proj_type
    mesh_used broadening_used Akw pAkw pAkw_orb bname ik iom :
  perm_eq (flatten parts) (iota 0 (n_k self)) ->
  result (select_mesh with_Sigma mesh_arg broadening)
    = Ok (mesh_used, broadening_used) ->
  result (spectral_contours parts rank mu broadening mesh_arg plot_range FS
            with_Sigma with_dc proj_type)
    = Ok (Akw, pAkw, pAkw_orb) ->
  bname \in spn -> (ik < n_k self)%N ->
  (iom < size (akw_window mesh_used
                 (contours_plot_range mesh_used FS plot_range)))%N ->
  Akw bname ik iom
  = - imag_trace (n_orbitals self ik bname)
        (lattice_gf self ik
           (Some (if mu is Some x then x else chemical_potential self))
           broadening_used (Some mesh_used) with_Sigma with_dc bname
           (nth 0%N
              (akw_window mesh_used
                 (contours_plot_range mesh_used FS plot_range)) iom)) / pi.
Proof.
move=> Hperm Hmesh; rewrite /result /spectral_contours.
case E: (bind _ _ _) => [r l] /= Hr; move: E; rewrite {}Hr.
move=> H; have [u [l1 [_ {}H]]] := bind_Ok H.
have [rd [l2 [_ {}H]]] := bind_Ok H.
have [{}u [l3 [_ {}H]]] := bind_Ok H.
have [mb [l4 [Hmb {}H]]] := bind_Ok H.
move: Hmb; rewrite select_mesh_log Hmesh => -[Emb _]; rewrite -{}Emb /= in H.
have [mv [l5 [Hmv {}H]]] := bind_Ok H.
have [pr [l6 [Hpr {}H]]] := bind_Ok H.
have Epr : pr = contours_plot_range mesh_used FS plot_range.
  move: Hmv Hpr; rewrite /contours_plot_range plot_bounds_log /result.
  case=> -> _; case: (FS); last by case.
  by case: (mv.1) => [|w0 [|w1 ws]] //; case.
move=> Hb Hik _; rewrite -Epr.
by rewrite (gen_Akw_Akw iom Hperm H Hb Hik) mulr0 addr0.
Qed.

(** *** The projected DOS as a sum over the k-points *)

Lemma dos_setup_n_shells proj_type l n dims shells_type l' :
  dos_setup proj_type l = (Ok (n, dims, shells_type), l') ->
  n = dos_n_shells proj_type.
Proof.
rewrite /dos_setup /dos_n_shells.
case: (proj_type == Some "wann"%string); first by case.
case: (proj_type == Some "vasp"%string); first by case.
case: (proj_type == Some "wien2k"%string); last by case.
by move=> H; have [u [l1 [_]]] := bind_Ok H; case.
Qed.

Lemma dos_corrections_none proj_type n shells_type G_loc l :
  proj_type = Some "vasp"%string
  \/ (symm_op self = 0%N /\ use_rotations self = false) ->
  dos_corrections proj_type n shells_type G_loc l = (Ok G_loc, l).
Proof.
case=> [->|[Hs Hr]]; first exact: dos_corrections_vasp.
rewrite /dos_corrections Hs Hr /=.
by case: (_ && _).
Qed.

Section DosProjected.

Variables (mu broadening : option C) (mesh_used : Mesh).
Variables (with_Sigma with_dc : bool) (proj_type : option string).
Variables (dosocc : bool) (n_sh : nat).

Let step :=
  dos_step mu broadening mesh_used with_Sigma with_dc proj_type dosocc n_sh.
Let G_w := dos_G_latt_w mu broadening mesh_used with_Sigma with_dc dosocc.

Lemma dos_step_G_loc st ik ish bname iom i j :
  proj_type != None -> (ish < n_sh)%N ->
  dos_G_loc (step st ik) ish bname iom i j
  = dos_G_loc st ish bname iom i j
    + proj_type_G_loc (G_w ik) zero ik ish proj_type bname iom i j.
Proof.
rewrite /step /dos_step /dos_body /bind /tell /tell_all /ret.
by move=> -> /=; rewrite /for_range => ->.
Qed.

Lemma dos_fold_G_loc slice st ish bname iom i j :
  proj_type != None -> (ish < n_sh)%N ->
  dos_G_loc (foldl step st slice) ish bname iom i j
  = dos_G_loc st ish bname iom i j
    + \sum_(ik <- slice)
        proj_type_G_loc (G_w ik) zero ik ish proj_type bname iom i j.
Proof.
move=> Hp Hi; elim: slice st => [|ik slice IH] st /=.
  by rewrite big_nil addr0.
by rewrite IH dos_step_G_loc // big_cons addrA.
Qed.

End DosProjected.

Lemma imag_trace_sum d (T : Type) (s : seq T) (a : T -> mat) :
  imag_trace d (fun i j => \sum_(x <- s) a x i j)
  = \sum_(x <- s) imag_trace d (a x).
Proof.
rewrite /imag_trace exchange_big /=.
by apply: eq_bigr => i _; rewrite raddf_sum.
Qed.

(** X13.  For every partition of the k-range into disjoint covering
    slices, and when no correction applies to the local Green's function
    (the 'vasp' projection, or an object without symmetrization and
    without rotations), the projected DOS that [density_of_states] returns
    for a shell is the sum over all k-points of minus one over pi times the
    imaginary part of the trace of the projection of the weighted lattice
    Green's function of the k-point: every k-point is counted exactly
    once, whatever the number of workers. *)
Theorem projected_DOS_counts_every_k_point_once parts rank mu broadening
    mesh_arg with_Sigma with_dc proj_type dosocc mesh_used broadening_used
    DOS DOSproj DOSproj_orb ish bname iom :
  perm_eq (flatten parts) (iota 0 (n_k self)) ->
  proj_type = Some "vasp"%string
  \/ (symm_op self = 0%N /\ use_rotations self = false) ->
  result (select_mesh with_Sigma mesh_arg broadening)
    = Ok (mesh_used, broadening_used) ->
  result (density_of_states parts rank mu broadening mesh_arg with_Sigma
            with_dc proj_type dosocc)
    = Ok (DOS, DOSproj, DOSproj_orb) ->
  proj_type != None -> (ish < dos_n_shells proj_type)%N -> bname \in spn ->
  DOSproj ish bname iom
  = \sum_(0 <= ik < n_k self)
      - (imag_trace (dos_dims proj_type ish)
           (proj_type_G_loc
              (dos_G_latt_w mu broadening_used mesh_used with_Sigma with_dc
                 dosocc ik)
              zero ik ish proj_type bname iom) / pi).
Proof.
move=> Hperm Hnone Hmesh; rewrite /result /density_of_states.
case E: (bind _ _ _) => [r l] /= Hr; move: E; rewrite {}Hr.
move=> H; have [u [l1 [_ {}H]]] := bind_Ok H.
have [mb [l2 [Hmb {}H]]] := bind_Ok H.
move: Hmb; rewrite select_mesh_log Hmesh => -[Emb _]; rewrite -{}Emb /= in H.
have [mv [l2' [_ {}H]]] := bind_Ok H.
have [{}u [l3 [_ {}H]]] := bind_Ok H.
have [[[n_sh dims] shells_type] [l4 [Hsu {}H]]] := bind_Ok H.
have [own [l5 [_ {}H]]] := bind_Ok H.
have [{}u [l6 [_ {}H]]] := bind_Ok H.
have [workers [l7 [Hw {}H]]] := bind_Ok H.
have [{}u [l8 [_ {}H]]] := bind_Ok H.
move: Hw; rewrite (locals_pure (fun s => dos_sweepE _ _ _ _ _ _ _ _ s [::])).
case=> Ew _ Hp; rewrite Hp in H.
have [{}u [l9 [_ {}H]]] := bind_Ok H.
have [G_loc [l10 [Hc {}H]]] := bind_Ok H.
move: Hc; rewrite dos_corrections_none // => -[EG _]; rewrite -{}EG in H.
case: H => _ <- _ _.
rewrite -(dos_setup_n_shells Hsu) -(dos_setup_dims Hsu) => Hish Hb.
rewrite Hish Hb /= /DOSproj_of /for_range Hish /all_reduce_BlockGf.
rewrite -Ew -map_comp imag_trace_sum big_map -sumrN mulr_suml.
rewrite -(sum_over_partition _ Hperm); apply: eq_bigr => slice _.
rewrite sumrN -mulr_suml -imag_trace_sum mulNr; congr (- (_ / _)).
rewrite /imag_trace; apply: eq_bigr => i _ /=.
by rewrite dos_fold_G_loc // /dos_init /= /zero add0r.
Qed.

(** *** The shell list of gen_Akw *)

Lemma for_each_ext {S} (b1 b2 : S -> nat -> M S) xs s l :
  (forall s x l, b1 s x l = b2 s x l) ->
  for_each xs b1 s l = for_each xs b2 s l.
Proof.
move=> Hb; elim: xs s l => [|x xs IH] s l //=.
by rewrite /bind Hb; case: (b2 s x l) => [[s'|e] l'].
Qed.

Lemma locals_ext {S} (sw1 sw2 : seq nat -> M S) parts l :
  (forall s, sw1 s [::] = sw2 s [::]) ->
  locals sw1 parts l = locals sw2 parts l.
Proof.
move=> Hs; elim: parts l => [|s parts IH] l //=.
by rewrite Hs; case: (sw2 s [::]) => [[v|e] l'] //; rewrite /bind IH.
Qed.

Lemma bind_ext {A B} (m1 m2 : M A) (k1 k2 : A -> M B) l :
  m1 l = m2 l -> (forall a l', k1 a l' = k2 a l') ->
  bind m1 k1 l = bind m2 k2 l.
Proof. by rewrite /bind => -> Hk; case: (m2 l) => [[a|e] l']. Qed.

Lemma check_shell_list_log n_shells0 shell_list l u l' :
  check_shell_list n_shells0 shell_list l = (Ok u, l') -> l' = l.
Proof.
elim: shell_list => [|ish rest IH] /=; first by case.
by case: n_shells0 IH => [n|] // IH; case: (_ || _).
Qed.

(** What the set-up of [gen_Akw] binds for a shell list depends on the
    list through its length only, but for the list itself, which it
    keeps. *)
Lemma akw_setup_same_length proj_type sl1 sl2 l a1 l1 a2 l2 :
  size sl1 = size sl2 ->
  akw_setup proj_type (Some sl1) l = (Ok (Some a1), l1) ->
  akw_setup proj_type (Some sl2) l = (Ok (Some a2), l2) ->
  [/\ l1 = l2, akw_n_shells a1 = akw_n_shells a2,
      akw_dims a1 = akw_dims a2 & akw_shells_type a1 = akw_shells_type a2].
Proof.
move=> Hsz; rewrite /akw_setup; case: (py_truthy proj_type) => //.
move=> H1 H2.
have [[n1 s1] [la [Hs1 {}H1]]] := bind_Ok H1.
have [[n2 s2] [lb [Hs2 {}H2]]] := bind_Ok H2.
have [u1 [la1 [/check_shell_list_log Ela {}Hs1]]] := bind_Ok Hs1.
have [u2 [lb1 [/check_shell_list_log Elb {}Hs2]]] := bind_Ok Hs2.
have [{}u1 [la2 [Hc1 {}Hs1]]] := bind_Ok Hs1.
have [{}u2 [lb2 [Hc2 {}Hs2]]] := bind_Ok Hs2.
have {Hc1}Ela2 : la2 = l by move: Hc1; case: ifP => // _ [_ <-].
have {Hc2}Elb2 : lb2 = l by move: Hc2; case: ifP => // _ [_ <-].
case: Hs1 H1 => <- _ <-; case: Hs2 H2 => <- _ <-.
rewrite Ela2 Elb2 -Hsz.
case: (size sl1 == 0%N); first by move=> [<- <-] [<- <-].
case: (proj_type == Some "wann"%string) => /=.
  by case: (_ <= _)%N => // -[<- <-] [<- <-].
case: (proj_type == Some "wien2k"%string) => //=.
by case: (_ <= _)%N => // -[<- <-] [<- <-].
Qed.

Lemma akw_setup_is_Some proj_type shell_list l loc l' :
  akw_setup proj_type shell_list l = (Ok loc, l') ->
  isSome loc = py_truthy proj_type /\ (py_truthy proj_type = false -> l' = l).
Proof.
rewrite /akw_setup; case: (py_truthy proj_type); last by case=> <- <-.
move=> H; have [[n s] [l1 [_ {}H]]] := bind_Ok H; split=> //.
move: H => /=; case: (n == 0%N); first by case=> <-.
case: (proj_type == Some "wann"%string) => /=.
  by case: (_ <= _)%N => // -[<-].
case: (proj_type == Some "wien2k"%string) => //=.
by case: (_ <= _)%N => // -[<-].
Qed.

Lemma akw_body_same_shape mu broadening mesh_used plot_shift window
    with_Sigma with_dc proj_type a1 a2 st ik l :
  use_rotations self = false ->
  akw_n_shells a1 = akw_n_shells a2 -> akw_dims a1 = akw_dims a2 ->
  akw_shells_type a1 = akw_shells_type a2 ->
  akw_body mu broadening mesh_used plot_shift window with_Sigma with_dc
    proj_type (Some a1) st ik l
  = akw_body mu broadening mesh_used plot_shift window with_Sigma with_dc
      proj_type (Some a2) st ik l.
Proof.
case: a1 a2 => [n1 s1 d1 t1] [n2 s2 d2 t2] /= Hrot -> _ _.
by rewrite /akw_body Hrot.
Qed.

Lemma akw_sweep_same_shape mu broadening mesh_used plot_shift window
    with_Sigma with_dc proj_type a1 a2 slice l :
  use_rotations self = false ->
  akw_n_shells a1 = akw_n_shells a2 -> akw_dims a1 = akw_dims a2 ->
  akw_shells_type a1 = akw_shells_type a2 ->
  akw_sweep mu broadening mesh_used plot_shift window with_Sigma with_dc
    proj_type (Some a1) slice l
  = akw_sweep mu broadening mesh_used plot_shift window with_Sigma with_dc
      proj_type (Some a2) slice l.
Proof.
move=> Hrot En Ed Et; apply: for_each_ext => st ik l'.
exact: akw_body_same_shape.
Qed.

(** X14.  Without rotations, [gen_Akw] looks at the shell list through its
    length only: two lists of the same length with which the call returns
    give the same spectral functions, because the shell that is projected
    at position [ish] of the list is the shell [ish] of the object, not the
    shell that the list names there. *)
Theorem shell_list_counts_by_length_only parts rank mu broadening mesh_used
    plot_shift plot_range sl1 sl2 with_Sigma with_dc proj_type r1 r2 :
  use_rotations self = false ->
  size sl1 = size sl2 ->
  result (gen_Akw parts rank mu broadening mesh_used plot_shift plot_range
            (Some sl1) with_Sigma with_dc proj_type) = Ok r1 ->
  result (gen_Akw parts rank mu broadening mesh_used plot_shift plot_range
            (Some sl2) with_Sigma with_dc proj_type) = Ok r2 ->
  r1 = r2.
Proof.
move=> Hrot Hsz; rewrite /result /gen_Akw.
case E1: (bind _ _ _) => [o1 l1] /= Hr1; move: E1; rewrite {}Hr1 => H1.
case E2: (bind _ _ _) => [o2 l2] /= Hr2; move: E2; rewrite {}Hr2 => H2.
have [mv [la [Hmv {}H1]]] := bind_Ok H1.
have [mv' [lb [Hmv' {}H2]]] := bind_Ok H2.
move: Hmv' H2; rewrite Hmv => -[<- <-] H2.
have [loc1 [la1 [Hloc1 {}H1]]] := bind_Ok H1.
have [loc2 [lb1 [Hloc2 {}H2]]] := bind_Ok H2.
case: loc1 loc2 Hloc1 Hloc2 H1 H2 => [a1|] [a2|] Hloc1 Hloc2.
- have [El En Ed Et] := akw_setup_same_length Hsz Hloc1 Hloc2.
  move=> H1 H2; rewrite -El in H2.
  suff E : forall X1 X2 : outcome akw_result * seq event,
      X1 = (Ok r1, l1) -> X2 = (Ok r2, l2) -> X1 = X2 -> r1 = r2.
    apply: (E _ _ H1 H2); cbv zeta.
    apply: bind_ext => [|own lc]; first exact: akw_sweep_same_shape.
    apply: bind_ext => [//|u ld].
    apply: bind_ext => [|workers le].
      by apply: locals_ext => s; exact: akw_sweep_same_shape.
    apply: bind_ext => [//|{}u lf].
    by rewrite /= En Ed.
  by move=> X1 X2 -> -> [].
- have [E1 _] := akw_setup_is_Some Hloc1.
  by have [E2 _] := akw_setup_is_Some Hloc2; rewrite -E1 in E2.
- have [E1 _] := akw_setup_is_Some Hloc1.
  by have [E2 _] := akw_setup_is_Some Hloc2; rewrite -E1 in E2.
- have [/esym Ept /(_ Ept) ->] := akw_setup_is_Some Hloc1.
  have [_ /(_ Ept) ->] := akw_setup_is_Some Hloc2.
  by move=> -> [].
Qed.

(** *** An archive that lacks an input *)

Lemma read_check_missing {B} subgrp things (k : M B) l :
  values_not_read_of subgrp things != [::] ->
  (let* r := read_input_from_hdf (hdf_file self) subgrp things in
   check_values_read r.2 ;; k) l
  = (Raise (ValueError
       "ERROR: One or more necessary SumK input properties have not been found in the given h5 archive:"
       (values_not_read self)),
     rcons l (EvReadInput subgrp things)).
Proof.
rewrite /values_not_read_of /result /read_input_from_hdf /bind /tell /ret.
rewrite /check_values_read /mpi_is_master_node_object /raise.
case: (subgroup _ _) => [present|] /=.
  by case: [seq _ <- _ | _] => [|x s] //=; rewrite cats1.
by case: things => [|x s] //=; rewrite cats1.
Qed.

Lemma bind_raises {A B} (m : M A) (k : A -> M B) l :
  (forall a l1, exists e, (k a l1).1 = Raise e) ->
  exists e, (bind m k l).1 = Raise e.
Proof.
by move=> Hk; rewrite /bind; case: (m l) => [[a|e] l1] //; exists e.
Qed.

Lemma logs_read_check_missing (p : event -> bool) {B} subgrp things
    (k : M B) :
  values_not_read_of subgrp things != [::] ->
  p (EvReadInput subgrp things) ->
  logs p (let* r := read_input_from_hdf (hdf_file self) subgrp things in
          check_values_read r.2 ;; k).
Proof.
move=> Hm Hp l; exists [:: EvReadInput subgrp things]; last by rewrite /= Hp.
by rewrite read_check_missing // cats1.
Qed.

(** X15.  When the archive lacks one of the inputs that [spaghettis],
    [spectral_contours] or [partial_charges] reads first, the call raises
    and the provider of the lattice Green's function is never called:
    nothing is computed on an incomplete archive. *)
Theorem incomplete_archive_fails_before_sweep parts rank mu broadening
    mesh_arg plot_shift plot_range shell_list FS with_Sigma with_dc
    proj_type :
  (values_not_read_of (bands_data self)
     [:: "n_k"; "n_orbitals"; "proj_mat"; "hopping"]%string != [::] ->
   (forall l, exists e,
      (spaghettis parts rank mu broadening mesh_arg plot_shift plot_range
         shell_list with_Sigma with_dc proj_type l).1 = Raise e)
   /\ logs (fun e => ~~ is_provider_call e)
        (spaghettis parts rank mu broadening mesh_arg plot_shift plot_range
           shell_list with_Sigma with_dc proj_type))
  /\ (values_not_read_of (cont_data self)
        [:: "n_k"; "bmat"; "BZ_n_k"; "BZ_iknr"; "BZ_vkl"; "n_orbitals";
            "proj_mat"; "hopping"]%string != [::] ->
      (forall l, exists e,
         (spectral_contours parts rank mu broadening mesh_arg plot_range FS
            with_Sigma with_dc proj_type l).1 = Raise e)
      /\ logs (fun e => ~~ is_provider_call e)
           (spectral_contours parts rank mu broadening mesh_arg plot_range
              FS with_Sigma with_dc proj_type))
  /\ (values_not_read_of (parproj_data self)
        [:: "dens_mat_below"; "n_parproj"; "proj_mat_all"; "rot_mat_all";
            "rot_mat_all_time_inv"]%string != [::] ->
      (forall l, exists e,
         (partial_charges parts rank mu with_Sigma with_dc l).1 = Raise e)
      /\ logs (fun e => ~~ is_provider_call e)
           (partial_charges parts rank mu with_Sigma with_dc)).
Proof.
split; [|split]; move=> Hm; split.
- move=> l; rewrite /spaghettis; apply: bind_raises => u l1.
  by rewrite read_check_missing //; eexists.
- rewrite /spaghettis; apply: logs_bind; last first.
    by move=> _; apply: logs_read_check_missing.
  case: proj_type => [p|]; last exact: logs_ret.
  apply: logs_bind; first exact: logs_assert.
  by move=> _; case: ifP => _; [apply: logs_assert | apply: logs_ret].
- move=> l; rewrite /spectral_contours; apply: bind_raises => u l1.
  by rewrite read_check_missing //; eexists.
- rewrite /spectral_contours; apply: logs_bind; last first.
    by move=> _; apply: logs_read_check_missing.
  by case: proj_type => [p|]; [apply: logs_assert | apply: logs_ret].
- move=> l; rewrite /partial_charges; apply: bind_raises => u l1.
  by rewrite read_check_missing //; eexists.
rewrite /partial_charges; apply: logs_bind; first exact: logs_assert.
by move=> _; apply: logs_read_check_missing.
Qed.

(** *** The files of print_hamiltonian *)

Section Hamiltonian.

Variables (n_orbitals_isp : nat -> nat -> nat) (hopping : nat -> nat -> mat).

Let rows (isp ik : nat) : seq ham_line :=
  [seq HamRow ik x | x <- band_energies n_orbitals_isp hopping ik isp]
  ++ [:: HamBlank].

Lemma ham_write_rows ik isp f :
  rcons
    (foldl (fun f i => rcons f (HamRow ik ('Re (hopping ik isp i i))))
       f (iota 0 (n_orbitals_isp ik isp)))
    HamBlank
  = f ++ rows isp ik.
Proof.
rewrite /rows /band_energies -map_comp -cats1 catA; congr (_ ++ _).
elim: (iota _ _) f => [|i s IH] f /=; first by rewrite cats0.
by rewrite IH -cats1 -catA.
Qed.

Lemma ham_loop_one ks f :
  foldl
    (fun f ik =>
       let f :=
         foldl (fun f i => rcons f (HamRow ik ('Re (hopping ik 0%N i i))))
           f (iota 0 (n_orbitals_isp ik 0%N)) in
       rcons f HamBlank)
    f ks
  = f ++ flatten [seq rows 0 ik | ik <- ks].
Proof.
elim: ks f => [|k ks IH] f /=; first by rewrite cats0.
by rewrite ham_write_rows IH catA.
Qed.

Lemma ham_loop_two ks f1 f2 :
  foldl
    (fun (fs : seq ham_line * seq ham_line) ik =>
       let: (f1, f2) := fs in
       let f1 :=
         foldl (fun f i => rcons f (HamRow ik ('Re (hopping ik 0%N i i))))
           f1 (iota 0 (n_orbitals_isp ik 0%N)) in
       let f2 :=
         foldl (fun f i => rcons f (HamRow ik ('Re (hopping ik 1%N i i))))
           f2 (iota 0 (n_orbitals_isp ik 1%N)) in
       (rcons f1 HamBlank, rcons f2 HamBlank))
    (f1, f2) ks
  = (f1 ++ flatten [seq rows 0 ik | ik <- ks],
     f2 ++ flatten [seq rows 1 ik | ik <- ks]).
Proof.
elim: ks f1 f2 => [|k ks IH] f1 f2 /=; first by rewrite !cats0.
by rewrite !ham_write_rows IH !catA.
Qed.

Lemma ham_values_rows isp ik k :
  ham_values_of ik (rows isp k)
  = if k == ik then band_energies n_orbitals_isp hopping k isp else [::].
Proof.
rewrite /ham_values_of /rows pmap_cat /= cats0.
elim: (band_energies _ _ _ _) => [|x s IH] /=; first by case: ifP.
by rewrite IH; case: ifP.
Qed.

Lemma ham_values_flatten isp ik ks :
  uniq ks ->
  ham_values_of ik (flatten [seq rows isp k | k <- ks])
  = if ik \in ks then band_energies n_orbitals_isp hopping ik isp else [::].
Proof.
elim: ks => [|k ks IH] //= /andP[Hk Hu].
rewrite /ham_values_of pmap_cat -!/(ham_values_of _ _) ham_values_rows IH //.
rewrite in_cons [ik == k]eq_sym; case: eqP => [<-|_] /=.
  by rewrite (negbTE Hk) cats0.
by [].
Qed.

Lemma ham_blank_rows isp k : ham_blank_lines (rows isp k) = 1%N.
Proof.
rewrite /ham_blank_lines /rows count_cat /= addn0 -[RHS]add0n.
by congr (_ + _)%N; elim: (band_energies _ _ _ _).
Qed.

Lemma ham_blank_flatten isp ks :
  ham_blank_lines (flatten [seq rows isp k | k <- ks]) = size ks.
Proof.
elim: ks => [|k ks IH] //.
have -> : flatten [seq rows isp k | k <- k :: ks]
          = rows isp k ++ flatten [seq rows isp k | k <- ks] by [].
by rewrite /ham_blank_lines count_cat -!/(ham_blank_lines _) ham_blank_rows IH.
Qed.

(** X17.  The files that [print_hamiltonian] leaves can be read back.  A
    spin-polarized object without spin-orbit coupling ([SP == 1] and
    [SO == 0]) gets 'hamup.dat' and 'hamdn.dat', for the spin indices 0 and
    1; every other object gets 'ham.dat' alone, for the spin index 0.  In
    each file the rows that carry the index of a k-point hold, in band
    order, the real parts of the diagonal of the Hamiltonian of that
    k-point, and the file holds one empty line per k-point. *)
Theorem print_hamiltonian_read_back SP :
  let files := print_hamiltonian SP n_orbitals_isp hopping in
  let read_back f isp :=
    (forall ik, (ik < n_k self)%N ->
       ham_values_of ik f = band_energies n_orbitals_isp hopping ik isp)
    /\ ham_blank_lines f = n_k self in
  if (SP == 1%N) && (SO self == 0%N) then
    exists f1 f2,
      [/\ files = [:: ("hamup.dat"%string, f1); ("hamdn.dat"%string, f2)],
          read_back f1 0%N & read_back f2 1%N]
  else
    exists f, files = [:: ("ham.dat"%string, f)] /\ read_back f 0%N.
Proof.
rewrite /print_hamiltonian /=; case: (_ && _) => /=.
  rewrite ham_loop_two /=; eexists; eexists; split; first by [].
    split=> [ik Hik|]; last by rewrite ham_blank_flatten size_iota.
    by rewrite ham_values_flatten ?iota_uniq // mem_iota add0n Hik.
  split=> [ik Hik|]; last by rewrite ham_blank_flatten size_iota.
  by rewrite ham_values_flatten ?iota_uniq // mem_iota add0n Hik.
rewrite ham_loop_one /=; eexists; split; first by [].
split=> [ik Hik|]; last by rewrite ham_blank_flatten size_iota.
by rewrite ham_values_flatten ?iota_uniq // mem_iota add0n Hik.
Qed.

End Hamiltonian.

(** *** The projected spectral function and its stacking offset *)

Section ProjectedOffset.

Variables (ik : nat) (shift : C) (sp : block).
Variable val : nat -> block -> nat -> mat.

(** One pass of the loop [for bname, gf in G_loc[ish]] of [gen_Akw], with
    [sp] the block that receives the offset. *)
Let step (ish : nat) (a : nat -> block -> nat -> nat -> mat) (bname : block) :=
  upd_pAkw_orb
    (upd_pAkw_orb a ish bname ik (fun _ => val ish bname))
    ish sp ik (fun old => fun iom i j => old iom i j + shift).

Lemma offset_step_other ish a bs ish' b' ik' :
  (ish' != ish) || (ik' != ik) || ((b' \notin bs) && (b' != sp)) ->
  foldl (step ish) a bs ish' b' ik' = a ish' b' ik'.
Proof.
elim: bs a => [|b bs IH] a //= H.
have H' : (ish' != ish) || (ik' != ik) || ((b' \notin bs) && (b' != sp)).
  case/orP: H => [->//|/andP[]]; rewrite in_cons negb_or => /andP[_ -> ->].
  by rewrite orbT.
rewrite (IH _ H') /step /upd_pAkw_orb.
case/orP: H => [/orP[/negbTE->|/negbTE->]|/andP[]]; rewrite ?andbF //.
rewrite in_cons negb_or => /andP[/negbTE-> _] /negbTE->.
by rewrite !andbF.
Qed.

Lemma offset_step_prefix ish a p b iom i j :
  sp \notin p -> b \in p ->
  foldl (step ish) a p ish b ik iom i j = val ish b iom i j.
Proof.
elim: p a => [|b0 p IH] a //=; rewrite !in_cons negb_or => /andP[Hsp Hp].
case Hb: (b \in p); first by rewrite orbT => _; exact: IH.
rewrite orbF => /eqP Eb; rewrite Eb in Hb *.
rewrite offset_step_other ?Hb ?[b0 == sp]eq_sym ?Hsp ?orbT //.
by rewrite /step /upd_pAkw_orb !eqxx /= [b0 == sp]eq_sym (negbTE Hsp).
Qed.

Lemma offset_inner ish a p b iom i j :
  sp \notin p -> b \in rcons p sp ->
  foldl (step ish) a (rcons p sp) ish b ik iom i j
  = val ish b iom i j + (if b == sp then shift else 0).
Proof.
move=> Hsp; rewrite mem_rcons in_cons -cats1 foldl_cat /=.
rewrite /step /upd_pAkw_orb !eqxx /= -/(step ish).
case: eqP => [-> _|_ /= Hb] //.
by rewrite offset_step_prefix // addr0.
Qed.

Lemma offset_outer_other bs shells a ish' b' ik' :
  (ish' \notin shells) || (ik' != ik) ->
  foldl (fun a ish => foldl (step ish) a bs) a shells ish' b' ik'
  = a ish' b' ik'.
Proof.
elim: shells a => [|i0 shells IH] a //= H.
have H' : (ish' \notin shells) || (ik' != ik).
  by case/orP: H => [|->]; rewrite ?orbT // in_cons negb_or => /andP[_ ->].
rewrite (IH _ H'); apply: offset_step_other.
by case/orP: H => [|->]; rewrite ?orbT // in_cons negb_or => /andP[-> _].
Qed.

Lemma offset_outer p shells a ish b iom i j :
  sp \notin p -> b \in rcons p sp -> ish \in shells ->
  foldl (fun a ish => foldl (step ish) a (rcons p sp)) a shells
    ish b ik iom i j
  = val ish b iom i j + (if b == sp then shift else 0).
Proof.
move=> Hsp Hb; elim: shells a => [|i0 shells IH] a //=.
rewrite in_cons; case Hi: (ish \in shells); first by rewrite orbT => _; exact: IH.
rewrite orbF => /eqP <-.
by rewrite offset_outer_other ?Hi // offset_inner.
Qed.

End ProjectedOffset.

Lemma spn_last bname :
  uniq spn -> bname \in spn ->
  exists2 p, spn = rcons p sp_left_over & sp_left_over \notin p.
Proof.
rewrite /sp_left_over; case: spn => [|b0 s] // Hu _.
exists (belast b0 s); first by rewrite -lastI.
by have := Hu; rewrite {1}lastI rcons_uniq => /andP[H _]; exact: H.
Qed.

(** The projected spectral function of the k-point that a pass of the
    sweep of [gen_Akw] writes, and of the k-points it leaves alone. *)
Lemma akw_body_pAkw_rot mu broadening mesh_used plot_shift window with_Sigma
    with_dc proj_type loc st ik l st' l' ish bname ik' iom i j :
  uniq spn -> proj_type != None ->
  (ish < akw_n_shells loc)%N -> bname \in spn ->
  akw_body mu broadening mesh_used plot_shift window with_Sigma with_dc
    proj_type (Some loc) st ik l = (Ok st', l') ->
  akw_pAkw_orb st' ish bname ik' iom i j
  = if ik' == ik then
      - 'Im (akw_G_rot_k mu broadening mesh_used with_Sigma with_dc proj_type
               loc ik ish bname (nth 0%N window iom) i j) / pi
      + (if bname == sp_left_over then ik%:R * plot_shift else 0)
    else akw_pAkw_orb st ish bname ik' iom i j.
Proof.
move=> Hu Hpt Hish Hb.
have [p Ep Hp] := spn_last Hu Hb.
have Hb' : bname \in rcons p sp_left_over by rewrite -Ep.
have Hi' : ish \in iota 0 (akw_n_shells loc) by rewrite mem_iota add0n.
rewrite /akw_body /akw_G_rot_k Hpt /bind /tell /tell_all /ret.
case: (use_rotations self) => -[<- _] /=.
  case: eqP => [->|/eqP Hk]; last first.
    by rewrite offset_outer_other // Hk orbT.
  rewrite [X in foldl (fun a ish0 => foldl _ a X)]Ep.
  rewrite (offset_outer _ _ _ _ _ _ _ Hp Hb' Hi').
  by rewrite /for_range Hish /for_keys Hb /akw_G_loc_k.
case: eqP => [->|/eqP Hk]; last first.
  by rewrite offset_outer_other // Hk orbT.
rewrite {1}Ep (offset_outer _ _ _ _ _ _ _ Hp Hb' Hi').
by rewrite /for_range Hish /akw_G_loc_k.
Qed.

Lemma akw_sweep_pAkw_rot mu broadening mesh_used plot_shift window with_Sigma
    with_dc proj_type loc slice st l st' l' ish bname ik iom i j :
  uniq spn -> proj_type != None ->
  (ish < akw_n_shells loc)%N -> bname \in spn ->
  for_each slice
    (akw_body mu broadening mesh_used plot_shift window with_Sigma with_dc
       proj_type (Some loc)) st l = (Ok st', l') ->
  akw_pAkw_orb st' ish bname ik iom i j
  = if ik \in slice then
      - 'Im (akw_G_rot_k mu broadening mesh_used with_Sigma with_dc proj_type
               loc ik ish bname (nth 0%N window iom) i j) / pi
      + (if bname == sp_left_over then ik%:R * plot_shift else 0)
    else akw_pAkw_orb st ish bname ik iom i j.
Proof.
move=> Hu Hpt Hish Hb; elim: slice st l => [|k ks IH] st l.
  by case=> <- _.
move=> H; have [s1 [l1 [Hbody {}H]]] := for_each_Ok H.
rewrite (IH _ _ H) in_cons.
rewrite (akw_body_pAkw_rot ik iom i j Hu Hpt Hish Hb Hbody).
by case: (ik \in ks); rewrite ?orbT ?orbF //; case: eqP => // ->.
Qed.

Lemma check_shell_list_result n_shells0 shell_list l :
  check_shell_list n_shells0 shell_list l
  = (result (check_shell_list n_shells0 shell_list), l).
Proof.
rewrite /result; elim: shell_list => [|ish rest IH] //=.
by case: n_shells0 IH => [n|] // IH; case: (_ || _).
Qed.

Lemma akw_setup_log proj_type shell_list l :
  akw_setup proj_type shell_list l
  = (result (akw_setup proj_type shell_list), l).
Proof.
rewrite /result /akw_setup; case: (py_truthy proj_type) => //.
case: shell_list => [sl|]; rewrite /bind.
  rewrite !(check_shell_list_result _ sl) /=.
  case: (result _) => [u|e] //=.
  case: (all _ sl) => //=.
  case: (size sl == 0%N) => //.
  case: (proj_type == Some "wann"%string) => /=.
    by case: (_ <= _)%N.
  case: (proj_type == Some "wien2k"%string) => //=.
  by case: (_ <= _)%N.
case: (proj_type == Some "wann"%string) => /=.
  by case: (_ == 0%N) => //; case: (_ <= _)%N.
case: (proj_type == Some "wien2k"%string) => //=.
by case: (_ == 0%N) => //; case: (_ <= _)%N.
Qed.

(** The orbital-resolved projected spectral function that [gen_Akw]
    returns, from whatever log the call starts: it is read off the
    Green's function of the single k-point, rotated or not. *)
Lemma gen_Akw_pAkw_rot parts rank mu broadening
    mesh_used plot_shift plot_range shell_list with_Sigma with_dc proj_type
    loc l Akw pAkw pAkw_orb l' ish bname ik iom i j :
  perm_eq (flatten parts) (iota 0 (n_k self)) ->
  uniq spn ->
  result (akw_setup proj_type shell_list) = Ok (Some loc) ->
  gen_Akw parts rank mu broadening mesh_used plot_shift plot_range
    shell_list with_Sigma with_dc proj_type l
    = (Ok (Akw, pAkw, pAkw_orb), l') ->
  (ish < akw_n_shells loc)%N -> bname \in spn -> (ik < n_k self)%N ->
  pAkw_orb ish bname ik iom i j
  = - 'Im (akw_G_rot_k mu broadening mesh_used with_Sigma with_dc proj_type
             loc ik ish bname
             (nth 0%N (akw_window mesh_used plot_range) iom) i j) / pi
    + (if bname == sp_left_over then ik%:R * plot_shift else 0).
Proof.
move=> Hperm Hu Hloc; rewrite /gen_Akw.
move=> H; have [mv [l1 [Hmv {}H]]] := bind_Ok H.
have [loc' [l2 [Hloc' {}H]]] := bind_Ok H.
have [Etr _] := akw_setup_is_Some Hloc'.
move: Hloc'; rewrite akw_setup_log Hloc => -[Eloc _].
rewrite -{}Eloc /= in H Etr.
have Hpt : proj_type != None by move: Etr; case: (proj_type).
have [own [l3 [_ {}H]]] := bind_Ok H.
have [u [l4 [_ {}H]]] := bind_Ok H.
have [workers [l5 [Hw {}H]]] := bind_Ok H.
have [{}u [l6 [_ {}H]]] := bind_Ok H.
have [projected [l7 [Hproj {}H]]] := bind_Ok H.
have [{}u [l8 [_ {}H]]] := bind_Ok H.
case: H => _ _ <- _ Hish Hb Hik.
have -> : akw_window mesh_used plot_range
          = window_of mv.1 (if plot_range is Some pr then pr.1 else mv.2.1)
              (if plot_range is Some pr then pr.2 else mv.2.2).
  by move: Hmv; rewrite /akw_window plot_bounds_log /result => -[-> _].
set window := window_of _ _ _ in Hw *.
move: Hproj; rewrite -Etr => Hproj.
have [{}u [l9 [_ {}Hproj]]] := bind_Ok Hproj.
case: Hproj => <- _ /=; rewrite /for_range Hish /for_keys Hb.
set F := - _ / pi + _.
rewrite (locals_sum (F := fun w => akw_pAkw_orb w ish bname ik iom i j)
           (f := fun s => if ik \in s then F else 0) _ Hw).
  move=> s st l0 Hs.
  by rewrite (akw_sweep_pAkw_rot ik iom i j Hu Hpt Hish Hb Hs).
exact: (sum_over_owner F Hperm Hik).
Qed.

(** The same without rotations. *)
Lemma gen_Akw_pAkw_orb parts rank mu broadening
    mesh_used plot_shift plot_range shell_list with_Sigma with_dc proj_type
    loc l Akw pAkw pAkw_orb l' ish bname ik iom i j :
  perm_eq (flatten parts) (iota 0 (n_k self)) ->
  use_rotations self = false -> uniq spn ->
  result (akw_setup proj_type shell_list) = Ok (Some loc) ->
  gen_Akw parts rank mu broadening mesh_used plot_shift plot_range
    shell_list with_Sigma with_dc proj_type l
    = (Ok (Akw, pAkw, pAkw_orb), l') ->
  (ish < akw_n_shells loc)%N -> bname \in spn -> (ik < n_k self)%N ->
  pAkw_orb ish bname ik iom i j
  = - 'Im (akw_G_loc_k mu broadening mesh_used with_Sigma with_dc proj_type
             ik ish bname (nth 0%N (akw_window mesh_used plot_range) iom)
             i j) / pi
    + (if bname == sp_left_over then ik%:R * plot_shift else 0).
Proof.
move=> Hperm Hrot Hu Hloc H Hish Hb Hik.
rewrite (gen_Akw_pAkw_rot iom i j Hperm Hu Hloc H Hish Hb Hik).
by rewrite /akw_G_rot_k Hrot.
Qed.

(** X18.  Where the stacking offset of the projected spectral function
    lands.  For every partition of the k-range into disjoint covering
    slices, without rotations and with distinct spin blocks, the
    orbital-resolved projected spectral function that [gen_Akw] returns
    for a shell, a spin block and a k-point is minus one over pi times the
    imaginary part of the projected Green's function of that k-point, and
    the offset [ik * plot_shift] is added to it for the last spin block
    only: the other blocks carry no offset.  The column [iom] is the mesh
    point that the window of the plot range, selected in binary64, has at
    position [iom]. *)
Theorem projected_offset_lands_on_last_block parts rank mu broadening
    mesh_used plot_shift plot_range shell_list with_Sigma with_dc proj_type
    loc Akw pAkw pAkw_orb ish bname ik iom i j :
  perm_eq (flatten parts) (iota 0 (n_k self)) ->
  use_rotations self = false -> uniq spn ->
  result (akw_setup proj_type shell_list) = Ok (Some loc) ->
  result (gen_Akw parts rank mu broadening mesh_used plot_shift plot_range
            shell_list with_Sigma with_dc proj_type)
    = Ok (Akw, pAkw, pAkw_orb) ->
  (ish < akw_n_shells loc)%N -> bname \in spn -> (ik < n_k self)%N ->
  pAkw_orb ish bname ik iom i j
  = - 'Im (akw_G_loc_k mu broadening mesh_used with_Sigma with_dc proj_type
             ik ish bname (nth 0%N (akw_window mesh_used plot_range) iom)
             i j) / pi
    + (if bname == sp_left_over then ik%:R * plot_shift else 0).
Proof.
move=> Hperm Hrot Hu Hloc; rewrite /result.
case E: (gen_Akw _ _ _ _ _ _ _ _ _ _ _ _) => [r l] /= Hr Hish Hb Hik.
rewrite Hr in E.
exact: (gen_Akw_pAkw_orb iom i j Hperm Hrot Hu Hloc E Hish Hb Hik).
Qed.

(** *** The Green's function that is corrected *)




Section PcSweep.

Variables (mu : option C) (with_Sigma with_dc : bool).

Let G_w ik :=
  imul (lattice_gf self ik mu None None with_Sigma with_dc)
    (bz_weights self ik).



End PcSweep.



End Methods.

(** ** The entry points on the example objects *)

(** C1.  [occupations] on two workers whose slices [[0]] and [[]] are a
    disjoint cover of the range of the single k-point: the reduced
    [occik['up']] is a list of two arrays, where the range has one
    k-point, and both arrays are the contribution of that k-point.  The
    contribution appears once per worker, not once: the loop runs over
    [range(self.n_k)] on every worker, and the reduction of the Python
    lists concatenates them. *)
Theorem occupations_two_workers :
  exists occ,
    result
      (occupations
         (example_object (example_archive [::]) "wien2k" example_imag_mesh
            1 1 1 0 false)
         [:: [:: 0%N]; [::]] 0 None true true)
    = Ok occ
    /\ n_k (example_object (example_archive [::]) "wien2k" example_imag_mesh
              1 1 1 0 false) = 1%N
    /\ occ "up"%string
       = [:: occ_term
               (example_object (example_archive [::]) "wien2k"
                  example_imag_mesh 1 1 1 0 false)
               0 true true 0 "up"%string;
             occ_term
               (example_object (example_archive [::]) "wien2k"
                  example_imag_mesh 1 1 1 0 false)
               0 true true 0 "up"%string].
Proof.
set self := example_object _ _ _ _ _ _ _ _.
have [occ Hocc] :
  exists occ, result (occupations self [:: [:: 0%N]; [::]] 0 None true true)
              = Ok occ by eexists.
exists occ; split=> //; split=> //.
exact: (occupations_counts_every_worker (sp := "up"%string) Hocc).
Qed.

(** C5.  [spectral_contours] tests the scheme tag with [in ('wann')],
    which is a substring test.  The tag 'ann' passes it, and the call
    fails later on an unassigned variable instead of the assertion; the
    empty tag passes it too, and the call enters the loop over the
    k-points and asks the provider for the first lattice Green's function
    before it fails. *)
Theorem spectral_contours_accepts_substrings :
  result
    (spectral_contours
       (example_object (example_archive [::]) "wien2k" example_real_mesh
          1 1 1 0 false)
       [:: [:: 0%N]] 0 None None None None false true true
       (Some "ann"%string))
  = Raise (UnboundLocalError "n_shells")
  /\ result
       (spectral_contours
          (example_object (example_archive [::]) "wien2k" example_real_mesh
             1 1 1 0 false)
          [:: [:: 0%N]] 0 None None None None false true true
          (Some ""%string))
     = Raise (UnboundLocalError "n_shells")
  /\ trace
       (spectral_contours
          (example_object (example_archive [::]) "wien2k" example_real_mesh
             1 1 1 0 false)
          [:: [:: 0%N]] 0 None None None None false true true
          (Some ""%string))
     = [:: EvReadInput "dft_contours_input"
             [:: "n_k"; "bmat"; "BZ_n_k"; "BZ_iknr"; "BZ_vkl"; "n_orbitals";
                 "proj_mat"; "hopping"]%string;
           EvLatticeGf 0 (Some example_real_mesh)].
Proof. by []. Qed.

(** C6.  [density_of_states] with [dosocc = True] on an archive whose
    subgroup of derived data lacks 'occik': the call raises the
    [ValueError] before any provider call, but the items it names are
    [self.values_not_read], the empty list left by the construction of the
    object, not the list ['occik'] that the read returned. *)
Theorem missing_occik_is_not_named :
  result
    (density_of_states
       (example_object (example_archive [:: "occik"%string]) "wien2k"
          example_real_mesh 1 1 1 0 false)
       [:: [:: 0%N]] 0 None None None true true None true)
  = Raise
      (ValueError
         "ERROR: One or more necessary SumK input properties have not been found in the given h5 archive:"
         [::])
  /\ trace
       (density_of_states
          (example_object (example_archive [:: "occik"%string]) "wien2k"
             example_real_mesh 1 1 1 0 false)
          [:: [:: 0%N]] 0 None None None true true None true)
     = [:: EvReadInput "dft_misc_input" [:: "occik"%string]]
  /\ (read_input_from_hdf (example_archive [:: "occik"%string])
        "dft_misc_input" [:: "occik"%string] [::]).1
     = Ok (true, [:: "occik"%string]).
Proof. by []. Qed.

(** C7.  [spaghettis] with the 'wann' projection on an object with one
    correlated shell, so that the valid shell indices are [0..0], and
    [shell_list = [1]]: the test [ish > n_shells] lets the index 1 pass, no
    [IOError] is raised, and the sweep runs. *)
Theorem shell_index_n_shells_accepted plot_shift :
  succeeded
    (result
       (spaghettis
          (example_object (example_archive [::]) "wien2k" example_real_mesh
             1 1 2 0 false)
          [:: [:: 0%N]] 0 None None None plot_shift None (Some [:: Z.of_nat 1])
          true true (Some "wann"%string)))
  /\ trace
       (spaghettis
          (example_object (example_archive [::]) "wien2k" example_real_mesh
             1 1 2 0 false)
          [:: [:: 0%N]] 0 None None None plot_shift None (Some [:: Z.of_nat 1])
          true true (Some "wann"%string))
     = [:: EvReadInput "dft_bands_input"
             [:: "n_k"; "n_orbitals"; "proj_mat"; "hopping"]%string;
           EvLatticeGf 0 (Some example_real_mesh); EvProject 0 0; EvBarrier;
           EvAllReduce "Akw"; EvAllReduce "pAkw_orb"; EvBarrier].
Proof. by []. Qed.

(** C9.  [gen_Akw] with the 'wann' projection on two spin blocks, two
    k-points and one worker: at the k-point 1 the total spectral function
    of either block carries the offset [1 * plot_shift], and so does the
    projected spectral function of the block 'down', the last one; the
    projected spectral function of the block 'up' carries no offset at all,
    because the offset is added to [pAkw_orb[ish][sp]], not to
    [pAkw_orb[ish][bname]]. *)
Theorem projected_offset_on_last_block_only (plot_shift : C) iom i j :
  let self :=
    example_object (example_archive [::]) "wien2k" example_real_mesh
      2 1 1 0 false in
  let w := nth 0%N (akw_window example_real_mesh None) iom in
  exists Akw pAkw pAkw_orb,
    result
      (gen_Akw self [:: [:: 0%N; 1%N]] 0 None None example_real_mesh
         plot_shift None None true true (Some "wann"%string))
    = Ok (Akw, pAkw, pAkw_orb)
    /\ (Akw "up"%string 1%N iom
        = - imag_trace 1
              (lattice_gf self 1 None None (Some example_real_mesh) true true
                 "up"%string w) / pi
          + 1%:R * plot_shift
        /\ Akw "down"%string 1%N iom
           = - imag_trace 1
                 (lattice_gf self 1 None None (Some example_real_mesh) true
                    true "down"%string w) / pi
             + 1%:R * plot_shift)
    /\ pAkw_orb 0%N "down"%string 1%N iom i j
       = - 'Im (akw_G_loc_k self None None example_real_mesh true true
                  (Some "wann"%string) 1 0 "down"%string w i j) / pi
         + 1%:R * plot_shift
    /\ pAkw_orb 0%N "up"%string 1%N iom i j
       = - 'Im (akw_G_loc_k self None None example_real_mesh true true
                  (Some "wann"%string) 1 0 "up"%string w i j) / pi.
Proof.
move=> self w.
pose loc := {| akw_n_shells := 1; akw_shell_list := [:: Z.of_nat 0];
               akw_dims := corr_shells_dim self;
               akw_shells_type := shells_corr |}.
have Hperm : perm_eq (flatten [:: [:: 0%N; 1%N]]) (iota 0 (n_k self)) by [].
have Hrot : use_rotations self = false by [].
have Hu : uniq (spn self) by [].
have Hup : "up"%string \in spn self by [].
have Hdown : "down"%string \in spn self by [].
have Hik : (1 < n_k self)%N by [].
have Hish : (0 < akw_n_shells loc)%N by [].
have Hloc : result (akw_setup self (Some "wann"%string) None) = Ok (Some loc)
  by [].
have Eup : ("up"%string == sp_left_over self) = false by [].
have Edown : ("down"%string == sp_left_over self) = true by [].
have Hs : succeeded
            (result
               (gen_Akw self [:: [:: 0%N; 1%N]] 0 None None example_real_mesh
                  plot_shift None None true true (Some "wann"%string)))
  by [].
move: Hs; rewrite /result.
case E: (gen_Akw _ _ _ _ _ _ _ _ _ _ _ _ _) => [[[[Akw pAkw] pAkw_orb]|e] l];
  last by move=> {E}.
move=> _; exists Akw, pAkw, pAkw_orb; split; first reflexivity.
rewrite !(gen_Akw_Akw iom Hperm E _ Hik) ?Hup ?Hdown; try reflexivity.
rewrite !(gen_Akw_pAkw_orb iom i j Hperm Hrot Hu Hloc E Hish _ Hik)
  ?Hup ?Hdown; try reflexivity.
rewrite Eup Edown addr0.
split; [split; reflexivity | split; reflexivity].
Qed.

End Engine.

(** ** Concrete runs over the algebraic numbers *)

(** A run over [algC]: the stand-in for pi is 355/113, the broadening is
    1/1000, the lattice Green's function is [-i] on the diagonal, the
    symmetry operators are the identity and the density of a Green's
    function is its first data point. *)
Local Abbreviation run_pi := (355%:R / 113%:R : algC).
Local Abbreviation run_broadening := (1 / 1000%:R : algC).
Local Abbreviation run_lattice_gf :=
  (fun (_ : SumkDFT algC) (_ : nat) (_ _ : option algC) (_ : option Mesh)
       (_ _ : bool) (_ : block) (_ i j : nat) => - 'i *+ (i == j) : algC).
Local Abbreviation run_symmetrize := (fun G : nat -> BlockGf algC => G).
Local Abbreviation run_density := (fun (gf : Gf algC) => gf 0%N).
Local Abbreviation run_object symm rotations :=
  (example_object algC (example_archive [::]) "wien2k" example_real_mesh
     2 1 1 symm rotations).


Local Abbreviation run_symmetrize_shift :=
  (fun (G : nat -> BlockGf algC) (ish : nat) (b : block) (iom i j : nat) =>
     G ish b iom i j + 1).
Local Abbreviation run_c2_dos :=
  (density_of_states run_pi run_broadening run_lattice_gf
     run_symmetrize_shift run_symmetrize_shift (run_object 1%N true)
     [:: [:: 1%N]; [:: 0%N]] 0 None None None true true
     (Some "wien2k"%string) false).
Local Abbreviation run_c2_dos_result :=
  (returned ((fun _ _ => 0), (fun _ _ _ => 0), (fun _ _ _ _ _ => 0))
     (result run_c2_dos)).
Local Abbreviation run_c2_charges :=
  (partial_charges run_lattice_gf run_symmetrize_shift run_density
     (run_object 1%N true) [:: [:: 1%N]; [:: 0%N]] 0 None true true).
Local Abbreviation run_c2_charges_result :=
  (returned (fun _ _ _ _ => 0) (result run_c2_charges)).
Local Abbreviation run_c2_akw :=
  (gen_Akw run_pi run_lattice_gf (run_object 1%N true)
     [:: [:: 1%N]; [:: 0%N]] 0 None None example_real_mesh 0 None None
     true true (Some "wien2k"%string)).
Local Abbreviation run_c2_akw_result :=
  (returned ((fun _ _ _ => 0), (fun _ _ _ _ => 0), (fun _ _ _ _ _ _ => 0))
     (result run_c2_akw)).
Local Abbreviation run_c2_akw_locals :=
  (if result (akw_setup (run_object 1%N true) (Some "wien2k"%string) None)
     is Ok (Some loc) then loc
   else {| akw_n_shells := 0; akw_shell_list := [::];
           akw_dims := fun _ => 0%N; akw_shells_type := shells_corr |}).


(** C3 on a run: the block 'up' of the first shell of the example object
    at the first k-point. *)
Lemma partial_projectors_all_summed_witness :
  ("up"%string \in spn (run_object 0%N false))
  /\ (0 < n_shells (run_object 0%N false))%N
  /\ (proj_type_G_loc (run_object 0%N false)
        (run_lattice_gf (run_object 0%N false) 0%N None None None true true)
        (@zero algC) 0 0 (Some "wien2k"%string) "up"%string 0%N 0%N 0%N
      = \sum_(0 <= ir < n_parproj (run_object 0%N false) 0)
          partial_projection (run_object 0%N false)
            (run_lattice_gf (run_object 0%N false) 0%N None None None true
               true)
            0 0 ir "up"%string 0%N 0%N 0%N
      /\ exists G_loc',
           (pc_body run_lattice_gf (run_object 0%N false) None true true
              (fun _ => @zero algC) 0 [::]).1 = Ok G_loc' /\
           G_loc' 0%N "up"%string 0%N 0%N 0%N
           = @zero algC "up"%string 0%N 0%N 0%N
             + \sum_(0 <= ir < n_parproj (run_object 0%N false) 0)
                 partial_projection (run_object 0%N false)
                   (imul
                      (run_lattice_gf (run_object 0%N false) 0%N None None
                         None true true)
                      (bz_weights (run_object 0%N false) 0))
                   0 0 ir "up"%string 0%N 0%N 0%N).
Proof.
split; first by [].
split; first by [].
have Hb : "up"%string \in spn (run_object 0%N false) by [].
have Hs : (0 < n_shells (run_object 0%N false))%N by [].
exact: (partial_projectors_all_summed run_lattice_gf
          (run_lattice_gf (run_object 0%N false) 0%N None None None true true)
          (fun _ => @zero algC) None true true 0 0%N 0%N 0%N [::] Hb Hs).
Defined.

(** C8 on a run: the first correlated shell of the example object, whose
    rotation matrix is the identity. *)
Lemma rotation_preserves_trace_witness :
  unitary (shell_dim (run_object 0%N true) shells_corr 0)
    (rot_matrix (run_object 0%N true) shells_corr 0)
  /\ (tr (shell_dim (run_object 0%N true) shells_corr 0)
        (rotloc (run_object 0%N true) 0
           (run_lattice_gf (run_object 0%N true) 0%N None None None true true
              "up"%string)
           shells_corr 0)
      = tr (shell_dim (run_object 0%N true) shells_corr 0)
          (run_lattice_gf (run_object 0%N true) 0%N None None None true true
             "up"%string 0%N)
      /\ DOSproj_of run_pi (shell_dim (run_object 0%N true) shells_corr)
           (rotate_all (run_object 0%N true) 1 shells_corr
              (fun _ => run_lattice_gf (run_object 0%N true) 0%N None None
                          None true true))
           0 "up"%string 0
         = DOSproj_of run_pi (shell_dim (run_object 0%N true) shells_corr)
             (fun _ => run_lattice_gf (run_object 0%N true) 0%N None None
                         None true true)
             0 "up"%string 0).
Proof.
have HU : unitary (shell_dim (run_object 0%N true) shells_corr 0)
            (rot_matrix (run_object 0%N true) shells_corr 0).
  exact: unitary_identity.
split; first exact: HU.
exact: (rotation_preserves_trace run_pi 1
          (fun _ => run_lattice_gf (run_object 0%N true) 0%N None None None
                      true true)
          "up"%string 0 HU).
Defined.

Local Abbreviation run_dos :=
  (density_of_states run_pi run_broadening run_lattice_gf run_symmetrize
     run_symmetrize (run_object 0%N false) [:: [:: 0%N]; [:: 1%N]] 0
     None None None true true None false).

Local Abbreviation run_dos_result :=
  (returned ((fun _ _ => 0), (fun _ _ _ => 0), (fun _ _ _ _ _ => 0))
     (result run_dos)).

(** C4 on a run: two workers, one k-point each, no projection. *)
Lemma dos_total_weighted_trace_sum_witness :
  perm_eq (flatten [:: [:: 0%N]; [:: 1%N]])
    (iota 0 (n_k (run_object 0%N false)))
  /\ (forall ik, bz_weights (run_object 0%N false) ik \is Num.real)
  /\ result (select_mesh run_broadening (run_object 0%N false) true None None)
     = Ok (example_real_mesh, None)
  /\ result run_dos
     = Ok (run_dos_result.1.1, run_dos_result.1.2, run_dos_result.2)
  /\ "up"%string \in spn (run_object 0%N false)
  /\ run_dos_result.1.1 "up"%string 0%N
     = \sum_(0 <= ik < n_k (run_object 0%N false))
         bz_weights (run_object 0%N false) ik
         * (- (1 / run_pi)
            * 'Im (tr (n_orbitals (run_object 0%N false) ik "up"%string)
                     (dos_lattice_matrix (run_object 0%N false) false ik
                        "up"%string
                        (run_lattice_gf (run_object 0%N false) ik None None
                           (Some example_real_mesh) true true "up"%string
                           0%N)))).
Proof.
have H1 : perm_eq (flatten [:: [:: 0%N]; [:: 1%N]])
            (iota 0 (n_k (run_object 0%N false))) by [].
have H2 : forall ik, bz_weights (run_object 0%N false) ik \is Num.real.
  by move=> ik; exact: real1.
have H3 : result
            (select_mesh run_broadening (run_object 0%N false) true None None)
          = Ok (example_real_mesh, None) by [].
have H4 : result run_dos
          = Ok (run_dos_result.1.1, run_dos_result.1.2, run_dos_result.2)
  by [].
have H5 : "up"%string \in spn (run_object 0%N false) by [].
do 5![split => //].
exact: (dos_total_weighted_trace_sum 0 H1 H2 H3 H4 H5).
Defined.

Local Abbreviation run_dos_wann :=
  (density_of_states run_pi run_broadening run_lattice_gf run_symmetrize
     run_symmetrize (run_object 0%N true) [:: [:: 0%N]; [:: 1%N]] 0
     None None None true true (Some "wann"%string) false).

Local Abbreviation run_dos_wann_result :=
  (returned ((fun _ _ => 0), (fun _ _ _ => 0), (fun _ _ _ _ _ => 0))
     (result run_dos_wann)).

(** X4 on a run: the 'wann' projection on two workers, with rotations. *)
Lemma DOSproj_is_trace_of_DOSproj_orb_witness :
  result run_dos_wann
  = Ok (run_dos_wann_result.1.1, run_dos_wann_result.1.2,
        run_dos_wann_result.2)
  /\ tr (dos_dims (run_object 0%N true) (Some "wann"%string) 0)
       (run_dos_wann_result.2 0%N "up"%string 0%N)
     = run_dos_wann_result.1.2 0%N "up"%string 0%N.
Proof.
have H : result run_dos_wann
         = Ok (run_dos_wann_result.1.1, run_dos_wann_result.1.2,
               run_dos_wann_result.2) by [].
split; first exact: H.
exact: (DOSproj_is_trace_of_DOSproj_orb 0 "up"%string 0 H).
Defined.

(** X5 on a run: the stand-in for pi is rational. *)
Lemma DOSproj_orb_is_Hermitian_witness :
  run_pi \is Num.real
  /\ result run_dos_wann
     = Ok (run_dos_wann_result.1.1, run_dos_wann_result.1.2,
           run_dos_wann_result.2)
  /\ (run_dos_wann_result.2 0%N "up"%string 0%N 0%N 0%N)^*
     = run_dos_wann_result.2 0%N "up"%string 0%N 0%N 0%N.
Proof.
have Hpi : run_pi \is Num.real by rewrite rpred_div ?realn.
have H : result run_dos_wann
         = Ok (run_dos_wann_result.1.1, run_dos_wann_result.1.2,
               run_dos_wann_result.2) by [].
split; first exact: Hpi.
split; first exact: H.
exact: (DOSproj_orb_is_Hermitian 0 "up"%string 0 0 0 Hpi H).
Defined.

Local Abbreviation run_fine_mesh := (MeshReFreq (-1) 1 201).
Local Abbreviation run_plot_range :=
  (Some (float_of_rat (- (3%:R / 10%:R)), float_of_rat (3%:R / 10%:R))).

Local Abbreviation run_akw :=
  (gen_Akw run_pi run_lattice_gf (run_object 0%N false)
     [:: [:: 1%N]; [:: 0%N]] 0 None None run_fine_mesh (1 : algC)
     run_plot_range None true true None).

Local Abbreviation run_akw_result :=
  (returned ((fun _ _ _ => 0), (fun _ _ _ _ => 0), (fun _ _ _ _ _ _ => 0))
     (result run_akw)).

(** X6 on a run: two workers, the second k-point on the first worker, on
    the mesh of 201 points from -1 to 1 with the plot range (-0.3, 0.3),
    whose bounds sit on mesh points: the window starts at the point 70,
    which binary64 puts at -0.29999999999999993. *)
Lemma Akw_counts_every_k_point_once_witness :
  perm_eq (flatten [:: [:: 1%N]; [:: 0%N]])
    (iota 0 (n_k (run_object 0%N false)))
  /\ result run_akw
     = Ok (run_akw_result.1.1, run_akw_result.1.2, run_akw_result.2)
  /\ "up"%string \in spn (run_object 0%N false)
  /\ (1 < n_k (run_object 0%N false))%N
  /\ (0 < size (akw_window run_fine_mesh run_plot_range))%N
  /\ akw_window run_fine_mesh run_plot_range = iota 70 60
  /\ run_akw_result.1.1 "up"%string 1%N 0%N
     = - imag_trace (n_orbitals (run_object 0%N false) 1 "up"%string)
           (run_lattice_gf (run_object 0%N false) 1%N None None
              (Some run_fine_mesh) true true "up"%string
              (nth 0%N (akw_window run_fine_mesh run_plot_range) 0)) / run_pi
       + 1%:R * 1.
Proof.
have H1 : perm_eq (flatten [:: [:: 1%N]; [:: 0%N]])
            (iota 0 (n_k (run_object 0%N false))) by [].
have H3 : "up"%string \in spn (run_object 0%N false) by [].
have H4 : (1 < n_k (run_object 0%N false))%N by [].
have H5 : (0 < size (akw_window run_fine_mesh run_plot_range))%N.
  vm_compute; reflexivity.
have H6 : akw_window run_fine_mesh run_plot_range = iota 70 60.
  vm_compute; reflexivity.
have H2 : result run_akw
          = Ok (run_akw_result.1.1, run_akw_result.1.2, run_akw_result.2).
  reflexivity.
split; [exact H1|split; [exact H2|split; [exact H3|split; [exact H4|]]]].
split; [exact H5|split; [exact H6|]].
exact (Akw_counts_every_k_point_once H1 H2 H3 H4 H5).
Defined.

Local Abbreviation run_imag_object :=
  (example_object algC (example_archive [::]) "wien2k" example_imag_mesh
     2 1 1 0%N false).

Local Abbreviation run_occ :=
  (occupations run_lattice_gf run_density run_imag_object
     [:: [:: 0%N; 1%N]] 0 None true true).

(** X7 on a run: one worker that holds both k-points. *)
Lemma occupations_serial_run_witness :
  size [:: [:: 0%N; 1%N]] = 1%N
  /\ result run_occ = Ok (returned (fun _ => [::]) (result run_occ))
  /\ "up"%string \in spn run_imag_object
  /\ (1 < n_k run_imag_object)%N
  /\ size (returned (fun _ => [::]) (result run_occ) "up"%string)
     = n_k run_imag_object
  /\ nth (fun _ _ => 0)
       (returned (fun _ => [::]) (result run_occ) "up"%string) 1%N 0%N 0%N
     = 'Re (run_density
              (run_lattice_gf run_imag_object 1%N
                 (Some (chemical_potential run_imag_object)) None None true
                 true "up"%string) 0%N 0%N).
Proof.
have H1 : size [:: [:: 0%N; 1%N]] = 1%N by [].
have H2 : result run_occ = Ok (returned (fun _ => [::]) (result run_occ))
  by [].
have H3 : "up"%string \in spn run_imag_object by [].
have H4 : (1 < n_k run_imag_object)%N by [].
split; first exact: H1.
split; first exact: H2.
split; first exact: H3.
split; first exact: H4.
exact: (occupations_serial_run 0 0 H1 H2 H3 H4).
Defined.

(** X8 on a run: an object whose self-energy lives on a Matsubara mesh. *)
Lemma occupations_and_dos_disagree_on_the_mesh_witness :
  succeeded (result run_occ)
  /\ ~~ succeeded
          (result
             (density_of_states run_pi run_broadening run_lattice_gf
                run_symmetrize run_symmetrize run_imag_object
                [:: [:: 0%N; 1%N]] 0 None None None true true None true)).
Proof.
have H : succeeded (result run_occ) by [].
split; first exact: H.
exact: (occupations_and_dos_disagree_on_the_mesh run_pi run_broadening
          run_symmetrize run_symmetrize [:: [:: 0%N; 1%N]] 0 None None None
          true None true H).
Defined.

(** X9 on a run: the tag 'elk' on data of the backend 'wien2k'. *)
Lemma wrong_scheme_tag_fails_first_witness :
  ~~ (("elk"%string \in [:: "wann"; "vasp"; "wien2k"]%string)
      && (("elk"%string == "wann"%string)
          || ("elk"%string == dft_code (run_object 0%N false))))
  /\ (exists msg,
        density_of_states run_pi run_broadening run_lattice_gf run_symmetrize
          run_symmetrize (run_object 0%N false) [:: [:: 0%N; 1%N]] 0 None
          None None true true (Some "elk"%string) false [::]
        = (Raise (AssertionError msg), [::]))
  /\ ~~ (("elk"%string \in [:: "wann"; "wien2k"]%string)
         && (("elk"%string == "wann"%string)
             || ("elk"%string == dft_code (run_object 0%N false))))
  /\ (exists msg,
        spaghettis run_pi run_broadening run_lattice_gf
          (run_object 0%N false) [:: [:: 0%N; 1%N]] 0 None None None 0 None
          None true true (Some "elk"%string) [::]
        = (Raise (AssertionError msg), [::])).
Proof.
have H1 : ~~ (("elk"%string \in [:: "wann"; "vasp"; "wien2k"]%string)
              && (("elk"%string == "wann"%string)
                  || ("elk"%string == dft_code (run_object 0%N false))))
  by [].
have H2 : ~~ (("elk"%string \in [:: "wann"; "wien2k"]%string)
              && (("elk"%string == "wann"%string)
                  || ("elk"%string == dft_code (run_object 0%N false))))
  by [].
have [T1 T2] :=
  @wrong_scheme_tag_fails_first _ run_pi run_broadening run_lattice_gf
    run_symmetrize run_symmetrize (run_object 0%N false) [:: [:: 0%N; 1%N]]
    0 None None None 0 None None true true false "elk"%string [::].
split; first exact: H1.
split; first exact: (T1 H1).
split; first exact: H2.
exact: (T2 H2).
Defined.

Local Abbreviation run_plot_bounds :=
  (returned ([::], (float_of_nat 0, float_of_nat 0))
     (result (plot_bounds example_real_mesh))).

(** X10 on a run: the index 2 on an object with one correlated shell. *)
Lemma shell_list_out_of_range_fails_before_sweep_witness :
  result (plot_bounds example_real_mesh) = Ok run_plot_bounds
  /\ ((Some "wann"%string = Some "wann"%string
       /\ 1%N = n_corr_shells (run_object 0%N false))
      \/ (Some "wann"%string = Some "wien2k"%string
          /\ 1%N = n_shells (run_object 0%N false)))
  /\ has (fun ish => Z.ltb ish 0 || Z.gtb ish (Z.of_nat 1)) [:: Z.of_nat 2]
  /\ exists msg,
       gen_Akw run_pi run_lattice_gf (run_object 0%N false)
         [:: [:: 0%N; 1%N]] 0 None None example_real_mesh 0 None
         (Some [:: Z.of_nat 2]) true true (Some "wann"%string) [::]
       = (Raise (IOError msg), [::]).
Proof.
have H2 : (Some "wann"%string = Some "wann"%string
           /\ 1%N = n_corr_shells (run_object 0%N false))
          \/ (Some "wann"%string = Some "wien2k"%string
              /\ 1%N = n_shells (run_object 0%N false)).
  by left.
have H3 : has (fun ish => Z.ltb ish 0 || Z.gtb ish (Z.of_nat 1))
            [:: Z.of_nat 2] by [].
have H1 : result (plot_bounds example_real_mesh) = Ok run_plot_bounds.
  vm_compute; reflexivity.
split; [exact H1|split; [exact H2|split; [exact H3|]]].
exact (shell_list_out_of_range_fails_before_sweep run_pi run_lattice_gf
         [:: [:: 0%N; 1%N]] 0 None None 0 None true true [::] H1 H2 H3).
Defined.

Local Abbreviation run_spaghettis :=
  (spaghettis run_pi run_broadening run_lattice_gf (run_object 0%N false)
     [:: [:: 1%N]; [:: 0%N]] 0 None None (Some run_fine_mesh) (1 : algC)
     run_plot_range None false true None).

Local Abbreviation run_spaghettis_result :=
  (returned ((fun _ _ _ => 0), (fun _ _ _ _ => 0), (fun _ _ _ _ _ _ => 0))
     (result run_spaghettis)).

(** X11 on a run: two workers, no chemical potential given, on the mesh
    of 201 points from -1 to 1 that the caller supplies, with the plot
    range (-0.3, 0.3): the first column is the mesh point 70. *)
Lemma spaghettis_total_spectral_function_witness :
  perm_eq (flatten [:: [:: 1%N]; [:: 0%N]])
    (iota 0 (n_k (run_object 0%N false)))
  /\ result (select_mesh run_broadening (run_object 0%N false) false
               (Some run_fine_mesh) None)
     = Ok (run_fine_mesh, Some run_broadening)
  /\ result run_spaghettis
     = Ok (run_spaghettis_result.1.1, run_spaghettis_result.1.2,
           run_spaghettis_result.2)
  /\ "up"%string \in spn (run_object 0%N false)
  /\ (1 < n_k (run_object 0%N false))%N
  /\ (0 < size (akw_window run_fine_mesh run_plot_range))%N
  /\ nth 0%N (akw_window run_fine_mesh run_plot_range) 0 = 70%N
  /\ run_spaghettis_result.1.1 "up"%string 1%N 0%N
     = - imag_trace (n_orbitals (run_object 0%N false) 1 "up"%string)
           (run_lattice_gf (run_object 0%N false) 1%N
              (Some (chemical_potential (run_object 0%N false)))
              (Some run_broadening) (Some run_fine_mesh) false true
              "up"%string
              (nth 0%N (akw_window run_fine_mesh run_plot_range) 0)) / run_pi
       + 1%:R * 1.
Proof.
have H1 : perm_eq (flatten [:: [:: 1%N]; [:: 0%N]])
            (iota 0 (n_k (run_object 0%N false))) by [].
have H2 : result
            (select_mesh run_broadening (run_object 0%N false) false
               (Some run_fine_mesh) None)
          = Ok (run_fine_mesh, Some run_broadening) by [].
have H4 : "up"%string \in spn (run_object 0%N false) by [].
have H5 : (1 < n_k (run_object 0%N false))%N by [].
have H6 : (0 < size (akw_window run_fine_mesh run_plot_range))%N.
  vm_compute; reflexivity.
have H7 : nth 0%N (akw_window run_fine_mesh run_plot_range) 0 = 70%N.
  vm_compute; reflexivity.
have H3 : result run_spaghettis
          = Ok (run_spaghettis_result.1.1, run_spaghettis_result.1.2,
                run_spaghettis_result.2).
  reflexivity.
split; [exact H1|split; [exact H2|split; [exact H3|]]].
split; [exact H4|split; [exact H5|split; [exact H6|split; [exact H7|]]]].
exact (spaghettis_total_spectral_function H1 H2 H3 H4 H5 H6).
Defined.

Local Abbreviation run_contours_mesh := (MeshReFreq (-1) 1 51).

Local Abbreviation run_contours :=
  (spectral_contours run_pi run_broadening run_lattice_gf
     (run_object 0%N false) [:: [:: 1%N]; [:: 0%N]] 0 None None
     (Some run_contours_mesh) None true false true None).

Local Abbreviation run_contours_result :=
  (returned ((fun _ _ _ => 0), (fun _ _ _ _ => 0), (fun _ _ _ _ _ _ => 0))
     (result run_contours)).

(** X12 on a run: two workers, in the Fermi-surface mode, on the mesh of 51
    points from -1 to 1 that the caller supplies.  The bounds -2*dw and
    2*dw sit on the mesh points 23 and 27: binary64 keeps the first and
    drops the second. *)
Lemma spectral_contours_total_spectral_function_witness :
  perm_eq (flatten [:: [:: 1%N]; [:: 0%N]])
    (iota 0 (n_k (run_object 0%N false)))
  /\ result (select_mesh run_broadening (run_object 0%N false) false
               (Some run_contours_mesh) None)
     = Ok (run_contours_mesh, Some run_broadening)
  /\ result run_contours
     = Ok (run_contours_result.1.1, run_contours_result.1.2,
           run_contours_result.2)
  /\ "up"%string \in spn (run_object 0%N false)
  /\ (1 < n_k (run_object 0%N false))%N
  /\ (0 < size (akw_window run_contours_mesh
                  (contours_plot_range run_contours_mesh true None)))%N
  /\ akw_window run_contours_mesh
       (contours_plot_range run_contours_mesh true None)
     = [:: 23%N; 24%N; 25%N; 26%N]
  /\ run_contours_result.1.1 "up"%string 1%N 0%N
     = - imag_trace (n_orbitals (run_object 0%N false) 1 "up"%string)
           (run_lattice_gf (run_object 0%N false) 1%N
              (Some (chemical_potential (run_object 0%N false)))
              (Some run_broadening) (Some run_contours_mesh) false true
              "up"%string
              (nth 0%N
                 (akw_window run_contours_mesh
                    (contours_plot_range run_contours_mesh true None)) 0))
         / run_pi.
Proof.
have H1 : perm_eq (flatten [:: [:: 1%N]; [:: 0%N]])
            (iota 0 (n_k (run_object 0%N false))) by [].
have H2 : result
            (select_mesh run_broadening (run_object 0%N false) false
               (Some run_contours_mesh) None)
          = Ok (run_contours_mesh, Some run_broadening) by [].
have H4 : "up"%string \in spn (run_object 0%N false) by [].
have H5 : (1 < n_k (run_object 0%N false))%N by [].
have H6 : (0 < size (akw_window run_contours_mesh
                       (contours_plot_range run_contours_mesh true None)))%N.
  vm_compute; reflexivity.
have H7 : akw_window run_contours_mesh
            (contours_plot_range run_contours_mesh true None)
          = [:: 23%N; 24%N; 25%N; 26%N].
  vm_compute; reflexivity.
have H3 : result run_contours
          = Ok (run_contours_result.1.1, run_contours_result.1.2,
                run_contours_result.2).
  reflexivity.
split; [exact H1|split; [exact H2|split; [exact H3|]]].
split; [exact H4|split; [exact H5|split; [exact H6|split; [exact H7|]]]].
exact (spectral_contours_total_spectral_function H1 H2 H3 H4 H5 H6).
Defined.

Local Abbreviation run_dos_wien2k :=
  (density_of_states run_pi run_broadening run_lattice_gf run_symmetrize
     run_symmetrize (run_object 0%N false) [:: [:: 1%N]; [:: 0%N]] 0
     None None None true true (Some "wien2k"%string) false).

Local Abbreviation run_dos_wien2k_result :=
  (returned ((fun _ _ => 0), (fun _ _ _ => 0), (fun _ _ _ _ _ => 0))
     (result run_dos_wien2k)).

(** X13 on a run: the 'wien2k' projection on two workers, on an object
    without symmetrization and without rotations. *)
Lemma projected_DOS_counts_every_k_point_once_witness :
  perm_eq (flatten [:: [:: 1%N]; [:: 0%N]])
    (iota 0 (n_k (run_object 0%N false)))
  /\ (Some "wien2k"%string = Some "vasp"%string
      \/ (symm_op (run_object 0%N false) = 0%N
          /\ use_rotations (run_object 0%N false) = false))
  /\ result (select_mesh run_broadening (run_object 0%N false) true None None)
     = Ok (example_real_mesh, None)
  /\ result run_dos_wien2k
     = Ok (run_dos_wien2k_result.1.1, run_dos_wien2k_result.1.2,
           run_dos_wien2k_result.2)
  /\ Some "wien2k"%string != None
  /\ (0 < dos_n_shells (run_object 0%N false) (Some "wien2k"%string))%N
  /\ "up"%string \in spn (run_object 0%N false)
  /\ run_dos_wien2k_result.1.2 0%N "up"%string 0%N
     = \sum_(0 <= ik < n_k (run_object 0%N false))
         - (imag_trace
              (dos_dims (run_object 0%N false) (Some "wien2k"%string) 0)
              (proj_type_G_loc (run_object 0%N false)
                 (dos_G_latt_w run_lattice_gf (run_object 0%N false) None
                    None example_real_mesh true true false ik)
                 (@zero algC) ik 0 (Some "wien2k"%string) "up"%string 0%N)
            / run_pi).
Proof.
have H1 : perm_eq (flatten [:: [:: 1%N]; [:: 0%N]])
            (iota 0 (n_k (run_object 0%N false))) by [].
have H2 : Some "wien2k"%string = Some "vasp"%string
          \/ (symm_op (run_object 0%N false) = 0%N
              /\ use_rotations (run_object 0%N false) = false).
  by right.
have H3 : result
            (select_mesh run_broadening (run_object 0%N false) true None None)
          = Ok (example_real_mesh, None) by [].
have H5 : Some "wien2k"%string != None :> option string by [].
have H6 : (0 < dos_n_shells (run_object 0%N false) (Some "wien2k"%string))%N
  by [].
have H7 : "up"%string \in spn (run_object 0%N false) by [].
have H4 : result run_dos_wien2k
          = Ok (run_dos_wien2k_result.1.1, run_dos_wien2k_result.1.2,
                run_dos_wien2k_result.2).
  reflexivity.
split; [exact H1|split; [exact H2|split; [exact H3|split; [exact H4|]]]].
split; [exact H5|split; [exact H6|split; [exact H7|]]].
exact (projected_DOS_counts_every_k_point_once 0 H1 H2 H3 H4 H5 H6 H7).
Defined.

Local Abbreviation run_two_shells :=
  (example_object algC (example_archive [::]) "wien2k" example_real_mesh
     2 2 2 0%N false).

Local Abbreviation run_akw_shells sl :=
  (gen_Akw run_pi run_lattice_gf run_two_shells [:: [:: 0%N; 1%N]] 0 None
     None example_real_mesh 0 None (Some sl) true true
     (Some "wann"%string)).

Local Abbreviation run_akw_shells_result sl :=
  (returned ((fun _ _ _ => 0), (fun _ _ _ _ => 0), (fun _ _ _ _ _ _ => 0))
     (result (run_akw_shells sl))).

(** X14 on a run: the lists [[0]] and [[1]] on an object with two
    correlated shells. *)
Lemma shell_list_counts_by_length_only_witness :
  use_rotations run_two_shells = false
  /\ size [:: Z.of_nat 0] = size [:: Z.of_nat 1]
  /\ result (run_akw_shells [:: Z.of_nat 0])
     = Ok (run_akw_shells_result [:: Z.of_nat 0])
  /\ result (run_akw_shells [:: Z.of_nat 1])
     = Ok (run_akw_shells_result [:: Z.of_nat 1])
  /\ run_akw_shells_result [:: Z.of_nat 0]
     = run_akw_shells_result [:: Z.of_nat 1].
Proof.
have H1 : use_rotations run_two_shells = false by [].
have H2 : size [:: Z.of_nat 0] = size [:: Z.of_nat 1] by [].
have H3 : result (run_akw_shells [:: Z.of_nat 0])
          = Ok (run_akw_shells_result [:: Z.of_nat 0]).
  reflexivity.
have H4 : result (run_akw_shells [:: Z.of_nat 1])
          = Ok (run_akw_shells_result [:: Z.of_nat 1]).
  reflexivity.
split; [exact H1|split; [exact H2|split; [exact H3|split; [exact H4|]]]].
exact (shell_list_counts_by_length_only H1 H2 H3 H4).
Defined.

Local Abbreviation run_empty_archive :=
  (example_object algC [::] "wien2k" example_real_mesh 2 1 1 0%N false).

(** X15 on a run: an object on an archive that holds no subgroup. *)
Lemma incomplete_archive_fails_before_sweep_witness :
  values_not_read_of run_empty_archive (bands_data run_empty_archive)
    [:: "n_k"; "n_orbitals"; "proj_mat"; "hopping"]%string != [::]
  /\ values_not_read_of run_empty_archive (cont_data run_empty_archive)
       [:: "n_k"; "bmat"; "BZ_n_k"; "BZ_iknr"; "BZ_vkl"; "n_orbitals";
           "proj_mat"; "hopping"]%string != [::]
  /\ values_not_read_of run_empty_archive (parproj_data run_empty_archive)
       [:: "dens_mat_below"; "n_parproj"; "proj_mat_all"; "rot_mat_all";
           "rot_mat_all_time_inv"]%string != [::]
  /\ logs (fun e => ~~ is_provider_call e)
       (spaghettis run_pi run_broadening run_lattice_gf run_empty_archive
          [:: [:: 0%N; 1%N]] 0 None None None 0 None None true true None)
  /\ logs (fun e => ~~ is_provider_call e)
       (spectral_contours run_pi run_broadening run_lattice_gf
          run_empty_archive [:: [:: 0%N; 1%N]] 0 None None None None false
          true true None)
  /\ logs (fun e => ~~ is_provider_call e)
       (partial_charges run_lattice_gf run_symmetrize run_density
          run_empty_archive [:: [:: 0%N; 1%N]] 0 None true true).
Proof.
have H1 : values_not_read_of run_empty_archive (bands_data run_empty_archive)
            [:: "n_k"; "n_orbitals"; "proj_mat"; "hopping"]%string != [::]
  by [].
have H2 : values_not_read_of run_empty_archive (cont_data run_empty_archive)
            [:: "n_k"; "bmat"; "BZ_n_k"; "BZ_iknr"; "BZ_vkl"; "n_orbitals";
                "proj_mat"; "hopping"]%string != [::]
  by [].
have H3 : values_not_read_of run_empty_archive
            (parproj_data run_empty_archive)
            [:: "dens_mat_below"; "n_parproj"; "proj_mat_all"; "rot_mat_all";
                "rot_mat_all_time_inv"]%string != [::]
  by [].
have [T1 [T2 T3]] :=
  @incomplete_archive_fails_before_sweep _ run_pi run_broadening
    run_lattice_gf run_symmetrize run_density run_empty_archive
    [:: [:: 0%N; 1%N]] 0 None None None 0 None None false true true None.
split; [exact H1|split; [exact H2|split; [exact H3|]]].
split; [exact (proj2 (T1 H1))|split; [exact (proj2 (T2 H2))|]].
exact (proj2 (T3 H3)).
Defined.

Local Abbreviation run_akw_wann :=
  (gen_Akw run_pi run_lattice_gf (run_object 0%N false)
     [:: [:: 1%N]; [:: 0%N]] 0 None None run_fine_mesh (1 : algC)
     run_plot_range None true true (Some "wann"%string)).

Local Abbreviation run_akw_wann_result :=
  (returned ((fun _ _ _ => 0), (fun _ _ _ _ => 0), (fun _ _ _ _ _ _ => 0))
     (result run_akw_wann)).

Local Abbreviation run_akw_wann_locals :=
  (if result (akw_setup (run_object 0%N false) (Some "wann"%string) None)
     is Ok (Some loc) then loc
   else {| akw_n_shells := 0; akw_shell_list := [::];
           akw_dims := fun _ => 0%N; akw_shells_type := shells_corr |}).

(** X18 on a run: the block 'up', which is not the last one, at the second
    k-point, on two workers, on the mesh of 201 points from -1 to 1 with
    the plot range (-0.3, 0.3): the first column is the mesh point 70. *)
Lemma projected_offset_lands_on_last_block_witness :
  perm_eq (flatten [:: [:: 1%N]; [:: 0%N]])
    (iota 0 (n_k (run_object 0%N false)))
  /\ use_rotations (run_object 0%N false) = false
  /\ uniq (spn (run_object 0%N false))
  /\ result (akw_setup (run_object 0%N false) (Some "wann"%string) None)
     = Ok (Some run_akw_wann_locals)
  /\ result run_akw_wann
     = Ok (run_akw_wann_result.1.1, run_akw_wann_result.1.2,
           run_akw_wann_result.2)
  /\ (0 < akw_n_shells run_akw_wann_locals)%N
  /\ "up"%string \in spn (run_object 0%N false)
  /\ (1 < n_k (run_object 0%N false))%N
  /\ nth 0%N (akw_window run_fine_mesh run_plot_range) 0 = 70%N
  /\ run_akw_wann_result.2 0%N "up"%string 1%N 0%N 0%N 0%N
     = - 'Im (akw_G_loc_k run_lattice_gf (run_object 0%N false) None None
                run_fine_mesh true true (Some "wann"%string) 1 0
                "up"%string
                (nth 0%N (akw_window run_fine_mesh run_plot_range) 0)
                0%N 0%N) / run_pi
       + (if "up"%string == sp_left_over (run_object 0%N false)
          then 1%:R * 1 else 0).
Proof.
have H1 : perm_eq (flatten [:: [:: 1%N]; [:: 0%N]])
            (iota 0 (n_k (run_object 0%N false))) by [].
have H2 : use_rotations (run_object 0%N false) = false by [].
have H3 : uniq (spn (run_object 0%N false)) by [].
have H4 : result (akw_setup (run_object 0%N false) (Some "wann"%string) None)
          = Ok (Some run_akw_wann_locals) by [].
have H6 : (0 < akw_n_shells run_akw_wann_locals)%N by [].
have H7 : "up"%string \in spn (run_object 0%N false) by [].
have H8 : (1 < n_k (run_object 0%N false))%N by [].
have H9 : nth 0%N (akw_window run_fine_mesh run_plot_range) 0 = 70%N.
  vm_compute; reflexivity.
have H5 : result run_akw_wann
          = Ok (run_akw_wann_result.1.1, run_akw_wann_result.1.2,
                run_akw_wann_result.2).
  reflexivity.
split; [exact H1|split; [exact H2|split; [exact H3|split; [exact H4|]]]].
split; [exact H5|split; [exact H6|split; [exact H7|split; [exact H8|]]]].
split; [exact H9|].
exact (projected_offset_lands_on_last_block 0 0 0 H1 H2 H3 H4 H5 H6 H7 H8).
Defined.
